(** * Pesca: bank-statement normalisation and ledger synchronisation

    A shallow embedding of the transaction pipeline of the repository:
    - the canonical [Transaction] record ([src/lib/transaction.ts]);
    - the numeric helper [parseFloatSafely] ([src/unnamed/part_001], the
      module imported as [lib.ts]);
    - the two statement parsers, [parseDbsCsv] of the DBS driver and
      [parseTable] of the Citibank driver, and the combined export
      [writeCombinedOutput] of the main module (all three in
      [src/lib/drivers/dbs.ts]);
    - the Actual Budget adapter ([src/unnamed/part_000]):
      [convertTransaction], [groupTransactionsByAccount],
      [importTransactions] and [nodeJsMain].

    JavaScript values are modelled as follows.
    - A [number] is an IEEE-754 binary64 value, given by [spec_float] with
      precision 53 and maximal exponent 1024; arithmetic is the correctly
      rounded arithmetic of [SpecFloat].
    - A [string] is a sequence of code units; the embedding covers the code
      units below 256, so the white space recognised by [trim], [\s] and
      the numeric parsers is TAB, LF, VT, FF, CR, SP and NBSP.
    - [undefined] is [None]; an array is a [list]; a [Map] is an association
      list kept in insertion order.
    - A function that can throw returns an [Outcome]. *)

From Stdlib Require Import ZArith List String Ascii Bool Lia Permutation Sorted.
From Stdlib Require Import SpecFloat.
Import ListNotations.

Local Open Scope string_scope.
Local Open Scope list_scope.
Local Open Scope Z_scope.

(* ================================================================== *)
(** * JavaScript primitives *)
(* ================================================================== *)

Module Js.

(** ** Exceptions *)

Inductive Outcome (A : Type) : Type :=
| Returned (a : A)
| Thrown (e : string).
Arguments Returned {A} a.
Arguments Thrown {A} e.

Definition obind {A B : Type} (x : Outcome A) (f : A -> Outcome B)
  : Outcome B :=
  match x with
  | Returned a => f a
  | Thrown e => Thrown e
  end.

(** ** Code units and strings *)

Definition codeUnit (c : ascii) : nat := nat_of_ascii c.

(** [WhiteSpace] and [LineTerminator] code units below 256. *)
Definition isWhiteSpace (c : ascii) : bool :=
  let n := codeUnit c in
  (((9 <=? n) && (n <=? 13)) || (n =? 32) || (n =? 160))%nat.

Definition isDigit (c : ascii) : bool :=
  let n := codeUnit c in ((48 <=? n) && (n <=? 57))%nat.

Definition digitValue (c : ascii) : Z := Z.of_nat (codeUnit c) - 48.

Fixpoint trimStart (s : string) : string :=
  match s with
  | EmptyString => EmptyString
  | String c s' => if isWhiteSpace c then trimStart s' else s
  end.

Definition reverse (s : string) : string :=
  string_of_list_ascii (rev (list_ascii_of_string s)).

Definition trimEnd (s : string) : string := reverse (trimStart (reverse s)).

(** [String.prototype.trim]. *)
Definition trim (s : string) : string := trimEnd (trimStart s).

(** [s.replace(/,/g, "")]. *)
Fixpoint removeCommas (s : string) : string :=
  match s with
  | EmptyString => EmptyString
  | String c s' =>
      if Ascii.eqb c "," then removeCommas s' else String c (removeCommas s')
  end.

(** [s.replace(",", "")]: a string pattern replaces the first occurrence
    only. *)
Fixpoint removeFirstComma (s : string) : string :=
  match s with
  | EmptyString => EmptyString
  | String c s' =>
      if Ascii.eqb c "," then s' else String c (removeFirstComma s')
  end.

(** [s.replace(/\s+/g, " ")]: every maximal run of white space becomes one
    space.  [inRun] records that the previous code unit was white space. *)
Fixpoint collapseFrom (inRun : bool) (s : string) : string :=
  match s with
  | EmptyString => EmptyString
  | String c s' =>
      if isWhiteSpace c then
        if inRun then collapseFrom true s'
        else String " " (collapseFrom true s')
      else String c (collapseFrom false s')
  end.

Definition collapseWhiteSpace (s : string) : string := collapseFrom false s.

Fixpoint dropUnits (n : nat) (s : string) : string :=
  match n, s with
  | O, _ => s
  | S n', String _ s' => dropUnits n' s'
  | S _, EmptyString => EmptyString
  end.

(** [s.substring(start)]: a negative start counts as 0, one past the end
    as the length. *)
Definition substringFrom (start : Z) (s : string) : string :=
  dropUnits (Z.to_nat start) s.

(** [s.split(sep)] for a separator of one code unit. *)
Fixpoint split (sep : ascii) (s : string) : list string :=
  match s with
  | EmptyString => [EmptyString]
  | String c s' =>
      if Ascii.eqb c sep then EmptyString :: split sep s'
      else match split sep s' with
           | h :: t => String c h :: t
           | [] => [String c EmptyString]
           end
  end.

(** [s.includes(sub)]. *)
Fixpoint includes (sub s : string) : bool :=
  prefix sub s ||
  match s with
  | EmptyString => false
  | String _ s' => includes sub s'
  end.

(** [arr.join(sep)]; an [undefined] element is rendered as the empty
    string. *)
Definition elementText (x : option string) : string :=
  match x with Some s => s | None => EmptyString end.

Fixpoint join (sep : string) (l : list (option string)) : string :=
  match l with
  | [] => EmptyString
  | [x] => elementText x
  | x :: rest => (elementText x ++ sep ++ join sep rest)%string
  end.

(** Truthiness of a string-or-undefined value. *)
Definition truthy (x : option string) : bool :=
  match x with
  | Some (String _ _) => true
  | _ => false
  end.

(** ** Arrays *)

(** [arr[i]]: [undefined] outside the array, also for the [-1] that
    [indexOf] returns. *)
Definition at_ {A : Type} (l : list A) (i : Z) : option A :=
  if i <? 0 then None else nth_error l (Z.to_nat i).

Fixpoint indexOfFrom (i : Z) (x : string) (l : list string) : Z :=
  match l with
  | [] => -1
  | y :: l' => if String.eqb y x then i else indexOfFrom (i + 1) x l'
  end.

(** [arr.indexOf(x)]. *)
Definition indexOf (x : string) (l : list string) : Z := indexOfFrom 0 x l.

(** [arr.includes(x)]. *)
Definition arrayIncludes (x : string) (l : list string) : bool :=
  existsb (String.eqb x) l.

(** ** Numbers *)

Definition number : Type := spec_float.

Definition prec : Z := 53.
Definition emax : Z := 1024.

Definition nan : number := S754_nan.
Definition infinity (negative : bool) : number := S754_infinity negative.

(** The number nearest to [m * 2^e]. *)
Definition dyadic (m e : Z) : number := binary_normalize prec emax m e false.

(** The number denoted by an integer literal. *)
Definition ofZ (z : Z) : number := dyadic z 0.

Definition mul (x y : number) : number := SFmul prec emax x y.

(** [x < y] and [x <= y]; both are false when an operand is NaN. *)
Definition ltb (x y : number) : bool := SFltb x y.
Definition leb (x y : number) : bool := SFleb x y.

(** [Number.isNaN]. *)
Definition isNaN (x : number) : bool :=
  match x with S754_nan => true | _ => false end.

(** [Number.isFinite]. *)
Definition isFinite (x : number) : bool :=
  match x with
  | S754_nan | S754_infinity _ => false
  | _ => true
  end.

(** Truthiness of a number: [0], [-0] and [NaN] are falsy. *)
Definition numberTruthy (x : number) : bool :=
  match x with
  | S754_zero _ | S754_nan => false
  | _ => true
  end.

(** [x || y] on numbers. *)
Definition orElse (x y : number) : number := if numberTruthy x then x else y.

(** [Math.abs]. *)
Definition Math_abs (x : number) : number := SFabs x.

(** [Math.round]: the nearest integer, a tie going towards +Infinity.
    A finite [x] with a negative exponent is [n / 2^k]; the result is
    [floor ((n + 2^(k-1)) / 2^k)], and a zero result keeps the sign of [x]. *)
Definition Math_round (x : number) : number :=
  match x with
  | S754_finite s m e =>
      if 0 <=? e then x
      else
        let n := cond_Zopp s (Zpos m) in
        let r := Z.shiftr (n + Z.shiftl 1 (- e - 1)) (- e) in
        if r =? 0 then S754_zero s else ofZ r
  | _ => x
  end.

(** [JSON.parse(JSON.stringify(x))] for a number [x]; [None] is [null].
    [-0] is written [0], [NaN] and the infinities are written [null];
    every other number is written with the digits that read back as the
    same number. *)
Definition JSON_number (x : number) : option number :=
  match x with
  | S754_zero _ => Some (S754_zero false)
  | S754_finite _ _ _ => Some x
  | S754_infinity _ | S754_nan => None
  end.

(** ** [parseFloat] *)

(** The longest run of decimal digits in front of [s]: its value on top of
    [acc], the number of digits added to [count], and what follows. *)
Fixpoint scanDigits (acc count : Z) (s : string) : Z * Z * string :=
  match s with
  | EmptyString => (acc, count, s)
  | String c s' =>
      if isDigit c then scanDigits (10 * acc + digitValue c) (count + 1) s'
      else (acc, count, s)
  end.

(** [ExponentPart]: [e] or [E], an optional sign and at least one digit.
    Anything else is not part of the literal and counts as exponent 0. *)
Definition scanExponent (s : string) : Z :=
  match s with
  | String c s' =>
      if Ascii.eqb c "e" || Ascii.eqb c "E" then
        match s' with
        | String "+" s'' => fst (fst (scanDigits 0 0 s''))
        | String "-" s'' => - fst (fst (scanDigits 0 0 s''))
        | _ => fst (fst (scanDigits 0 0 s'))
        end
      else 0
  | EmptyString => 0
  end.

(** The longest prefix that is a [StrUnsignedDecimalLiteral]. *)
Inductive StrLiteral : Type :=
| LitInfinity
| LitDecimal (mantissa exp10 : Z).

Definition scanUnsigned (s : string) : option StrLiteral :=
  if prefix "Infinity" s then Some LitInfinity
  else
    let '(i, ni, r1) := scanDigits 0 0 s in
    match r1 with
    | String "." r2 =>
        let '(m, nf, r3) := scanDigits i 0 r2 in
        if (0 <? ni) || (0 <? nf)
        then Some (LitDecimal m (scanExponent r3 - nf))
        else None
    | _ => if 0 <? ni then Some (LitDecimal i (scanExponent r1)) else None
    end.

(** The number nearest to [m * 10^e10], negated when [negative] (ties to
    even). *)
Definition decimalValue (negative : bool) (m e10 : Z) : number :=
  if m =? 0 then S754_zero negative
  else if 0 <=? e10 then
    binary_normalize prec emax (cond_Zopp negative (m * 10 ^ e10)) 0 negative
  else
    let '(q, e, l) := SFdiv_core_binary prec emax m 0 (10 ^ (- e10)) 0 in
    binary_round_aux prec emax negative q e l.

Definition parseFloat (input : string) : number :=
  let s := trimStart input in
  let '(negative, body) :=
    match s with
    | String "-" r => (true, r)
    | String "+" r => (false, r)
    | _ => (false, s)
    end in
  match scanUnsigned body with
  | None => nan
  | Some LitInfinity => infinity negative
  | Some (LitDecimal m e) => decimalValue negative m e
  end.

(** [ToString] of a string-or-undefined value. *)
Definition toStringValue (x : option string) : string :=
  match x with Some s => s | None => "undefined" end.

(** ** [parseInt] without a radix argument *)

Definition radixDigit (radix : Z) (c : ascii) : option Z :=
  let n := Z.of_nat (codeUnit c) in
  let v :=
    if (48 <=? n) && (n <=? 57) then n - 48
    else if (97 <=? n) && (n <=? 122) then n - 87
    else if (65 <=? n) && (n <=? 90) then n - 55
    else radix in
  if v <? radix then Some v else None.

Fixpoint scanRadix (radix acc : Z) (seen : bool) (s : string) : option Z :=
  match s with
  | EmptyString => if seen then Some acc else None
  | String c s' =>
      match radixDigit radix c with
      | Some v => scanRadix radix (radix * acc + v) true s'
      | None => if seen then Some acc else None
      end
  end.

(** [None] is NaN.  The integer is the mathematical value of the digits;
    the callers below only distinguish values far below 2^53, where the
    conversion to a number is exact. *)
Definition parseInt (input : string) : option Z :=
  let s := trimStart input in
  let '(negative, body) :=
    match s with
    | String "-" r => (true, r)
    | String "+" r => (false, r)
    | _ => (false, s)
    end in
  let '(radix, digits) :=
    match body with
    | String "0" (String c r) =>
        if Ascii.eqb c "x" || Ascii.eqb c "X" then (16, r) else (10, body)
    | _ => (10, body)
    end in
  option_map (cond_Zopp negative) (scanRadix radix 0 false digits).

(** ** [Map]: entries in insertion order *)

Definition JsMap (V : Type) : Type := list (string * V).

Fixpoint Map_get {V : Type} (k : string) (m : JsMap V) : option V :=
  match m with
  | [] => None
  | (k', v) :: m' => if String.eqb k' k then Some v else Map_get k m'
  end.

Definition Map_has {V : Type} (k : string) (m : JsMap V) : bool :=
  match Map_get k m with Some _ => true | None => false end.

(** [m.set(k, v)]: an existing key keeps its place, a new one goes last. *)
Fixpoint Map_set {V : Type} (k : string) (v : V) (m : JsMap V) : JsMap V :=
  match m with
  | [] => [(k, v)]
  | (k', v') :: m' =>
      if String.eqb k' k then (k, v) :: m' else (k', v') :: Map_set k v m'
  end.

(** ** [Array.prototype.sort] with a comparator

    The sort is stable: of two elements that compare equal, the one that
    came first stays first.  [insertSorted] puts [x], which precedes the
    elements of [l] in the array, in front of the first element it does not
    exceed. *)
Section Sort.
Context {A : Type}.
Variable compareFn : A -> A -> Z.

Fixpoint insertSorted (x : A) (l : list A) : list A :=
  match l with
  | [] => [x]
  | y :: l' =>
      if compareFn x y <=? 0 then x :: y :: l'
      else y :: insertSorted x l'
  end.

Definition sort (l : list A) : list A := fold_right insertSorted [] l.
End Sort.

End Js.

(* ================================================================== *)
(** * [Temporal.PlainDate] *)
(* ================================================================== *)

Module Temporal.
Import Js.

Record PlainDate : Type := mkPlainDate { year : Z; month : Z; day : Z }.

Definition isLeapYear (y : Z) : bool :=
  (y mod 4 =? 0) && (negb (y mod 100 =? 0) || (y mod 400 =? 0)).

Definition daysInMonth (y m : Z) : Z :=
  if (m =? 1) || (m =? 3) || (m =? 5) || (m =? 7) || (m =? 8) || (m =? 10)
     || (m =? 12) then 31
  else if (m =? 4) || (m =? 6) || (m =? 9) || (m =? 11) then 30
  else if m =? 2 then (if isLeapYear y then 29 else 28)
  else 0.

Definition isValidISODate (y m d : Z) : bool :=
  (1 <=? m) && (m <=? 12) && (1 <=? d) && (d <=? daysInMonth y m).

(** [Temporal.PlainDate.compare]: -1, 0 or 1. *)
Definition compare (a b : PlainDate) : Z :=
  match year a ?= year b with
  | Lt => -1
  | Gt => 1
  | Eq =>
      match month a ?= month b with
      | Lt => -1
      | Gt => 1
      | Eq =>
          match day a ?= day b with
          | Lt => -1
          | Gt => 1
          | Eq => 0
          end
      end
  end.

(** The representable dates run from -271821-04-19 to +275760-09-13. *)
Definition withinLimits (p : PlainDate) : bool :=
  (0 <=? compare p (mkPlainDate (-271821) 4 19))
  && (compare p (mkPlainDate 275760 9 13) <=? 0).

(** [new Temporal.PlainDate(y, m, d)] on the results of [parseInt]:
    a NaN argument, an impossible date and a date outside the limits all
    raise a RangeError. *)
Definition create (y m d : option Z) : Outcome PlainDate :=
  match y, m, d with
  | Some y, Some m, Some d =>
      if isValidISODate y m d && withinLimits (mkPlainDate y m d)
      then Returned (mkPlainDate y m d)
      else Thrown "RangeError"
  | _, _, _ => Thrown "RangeError"
  end.

(** The [width] low decimal digits of [n]. *)
Fixpoint decimalDigits (width : nat) (n : Z) : string :=
  match width with
  | O => EmptyString
  | S w =>
      (decimalDigits w (n / 10)
       ++ String (ascii_of_nat (48 + Z.to_nat (n mod 10))) EmptyString)%string
  end.

(** [date.toString()]: [YYYY-MM-DD], the year with a sign and six digits
    outside 0..9999. *)
Definition toString (p : PlainDate) : string :=
  let y := year p in
  let sign : string := if y <? 0 then "-" else "+" in
  let yearText :=
    if (0 <=? y) && (y <=? 9999) then decimalDigits 4 y
    else (sign ++ decimalDigits 6 (Z.abs y))%string in
  (yearText ++ "-" ++ decimalDigits 2 (month p) ++ "-"
   ++ decimalDigits 2 (day p))%string.

End Temporal.

(* ================================================================== *)
(** * [Transaction] and [parseFloatSafely]

    [src/lib/transaction.ts] and [src/unnamed/part_001]. *)
(* ================================================================== *)

Module Lib.
Import Js.

Record Transaction : Type := mkTransaction {
  account : string;
  date : Temporal.PlainDate;
  description : string;
  absoluteAmount : number;
  isDebit : bool;
  isPending : bool
}.

(** The getter [amount]: debits are positive. *)
Definition amount (t : Transaction) : number :=
  mul (if isDebit t then ofZ 1 else ofZ (-1)) (absoluteAmount t).

Record DriverOutput : Type := mkDriverOutput {
  transactions : list Transaction
}.

Definition parseFloatSafely (floatString : string) (removeCommas : bool)
  : number :=
  let floatString :=
    if removeCommas then Js.removeCommas floatString else floatString in
  let asFloat := parseFloat floatString in
  if isNaN asFloat then ofZ 0 else asFloat.

End Lib.

(* ================================================================== *)
(** * The DBS driver: [parseDbsCsv]

    [src/lib/drivers/dbs.ts], lines 7 to 82. *)
(* ================================================================== *)

Module Dbs.
Import Js.

(** The embedding starts where the text has been cut and read by the CSV
    library: [account] is the label found in the head of the file and
    [rows] is the result of [parseCsv(body)].  The conversion
    [new Date(cell) ... toPlainDate()] is the parameter [dateOfCell]; it
    throws on an invalid date. *)
Section ParseDbsCsv.
Variable dateOfCell : option string -> Outcome Temporal.PlainDate.

Record Columns : Type := mkColumns {
  ref0 : Z; ref1 : Z; ref2 : Z; ref3 : Z;
  idxCreditAmount : Z;
  idxDebitAmount : Z
}.

Definition resolveColumns (headerRow : list string) : Columns :=
  let isPOSB := arrayIncludes "Transaction Ref1" headerRow in
  if isPOSB then
    mkColumns (indexOf "Reference" headerRow)
              (indexOf "Transaction Ref1" headerRow)
              (indexOf "Transaction Ref2" headerRow)
              (indexOf "Transaction Ref3" headerRow)
              (indexOf "Credit Amount" headerRow)
              (indexOf "Debit Amount" headerRow)
  else
    mkColumns (indexOf "Statement Code" headerRow)
              (indexOf "Client Reference" headerRow)
              (indexOf "Additional Reference" headerRow)
              (indexOf "Misc Reference" headerRow)
              (indexOf "Credit Amount" headerRow)
              (indexOf "Debit Amount" headerRow).

(** [x !== "ITR"]. *)
Definition isNotITR (x : option string) : bool :=
  match x with
  | Some s => negb (String.eqb s "ITR")
  | None => true
  end.

(** The array [parts] of [buildDescription]. *)
Definition descriptionParts (c : Columns) (row : list string)
  : list (option string) :=
  (if isNotITR (at_ row (ref0 c)) then [at_ row (ref0 c)] else [])
  ++ (if truthy (at_ row (ref1 c)) then [at_ row (ref1 c)] else [])
  ++ (if truthy (at_ row (ref2 c)) then [at_ row (ref2 c)] else [])
  ++ (if truthy (at_ row (ref3 c)) then [at_ row (ref3 c)] else []).

(** When [parts] is empty [row[ref0]] is the string ["ITR"], so the
    first branch never returns [undefined]. *)
Definition buildDescription (c : Columns) (row : list string) : string :=
  let parts := descriptionParts c row in
  if (List.length parts =? 0)%nat then elementText (at_ row (ref0 c))
  else collapseWhiteSpace (join " " parts).

Definition parseCells (account : string) (c : Columns) (cells : list string)
  : Outcome Lib.Transaction :=
  let cells := map trim cells in
  obind (dateOfCell (at_ cells 0)) (fun date =>
  let description := buildDescription c cells in
  let creditAmount :=
    Lib.parseFloatSafely (toStringValue (at_ cells (idxCreditAmount c)))
                         false in
  let debitAmount :=
    Lib.parseFloatSafely (toStringValue (at_ cells (idxDebitAmount c)))
                         false in
  let absoluteAmount := orElse debitAmount creditAmount in
  let isDebit := ltb (ofZ 0) debitAmount in
  Returned
    (Lib.mkTransaction account date description absoluteAmount isDebit
                       false)).

(** The loop over the data rows; [unshift] puts each transaction in
    front of the ones built so far. *)
Fixpoint parseRows (account : string) (c : Columns)
         (rows : list (list string)) (transactions : list Lib.Transaction)
  : Outcome (list Lib.Transaction) :=
  match rows with
  | [] => Returned transactions
  | cells :: rest =>
      obind (parseCells account c cells) (fun t =>
      parseRows account c rest (t :: transactions))
  end.

Definition parseDbsCsv (account : string) (rows : list (list string))
  : Outcome (list Lib.Transaction) :=
  match rows with
  | [] => Thrown "Invalid CSV"
  | headerRow :: rows =>
      parseRows account (resolveColumns headerRow) rows []
  end.
End ParseDbsCsv.

End Dbs.

(* ================================================================== *)
(** * The Citibank driver: [parseTable]

    [src/lib/drivers/dbs.ts], lines 296 to 377. *)
(* ================================================================== *)

Module Citi.
Import Js.

(** What the HTML library hands to [parseRow] for one [tr] of the table
    body, after the sort captions and the first column have been removed:
    the value of [attr("class")] and the texts of the [td] elements. *)
Record TableRow : Type := mkTableRow {
  classAttr : option string;
  cellTexts : list string
}.

Fixpoint allDigits (s : string) : bool :=
  match s with
  | EmptyString => true
  | String c s' => isDigit c && allDigits s'
  end.

(** A match of [/xxxxxxxxxxxx([0-9]{4})/] at the start of [s]. *)
Definition maskedPANHere (s : string) : option string :=
  let digits := substring 12 4 s in
  if prefix "xxxxxxxxxxxx" s && (String.length digits =? 4)%nat
     && allDigits digits
  then Some ("xxxxxxxxxxxx" ++ digits)%string
  else None.

(** [s.match(/xxxxxxxxxxxx([0-9]{4})/)?.[0]]: the leftmost match. *)
Fixpoint matchMaskedPAN (s : string) : option string :=
  match maskedPANHere s with
  | Some m => Some m
  | None =>
      match s with
      | EmptyString => None
      | String _ s' => matchMaskedPAN s'
      end
  end.

Definition parseRow (tr : TableRow) : list string :=
  let classes := classAttr tr in
  let maskedPAN :=
    match classes with
    | Some c => match matchMaskedPAN c with Some m => m | None => "" end
    | None => ""
    end in
  let pending :=
    match classes with
    | Some c => includes "pending" c
    | None => false
    end in
  (maskedPAN :: cellTexts tr) ++ [if pending then "pending" else ""].

(** [SGD 1,234.56] becomes [1234.56]. *)
Definition parseNumber (str : string) : string :=
  removeFirstComma (substringFrom 4 str).

(** The state of the two arrays that the loop fills. *)
Definition Tables : Type := (list (list string) * list Lib.Transaction)%type.

(** The body of the callback of [each].  A row whose date cell is empty
    is skipped.  [parseNumber] throws a TypeError on [undefined]; once both
    amounts are there, so are the cells before them. *)
Definition parseTableRow (tr : TableRow) (acc : Tables) : Outcome Tables :=
  let '(csvRows, transactions) := acc in
  let parsedRow := parseRow tr in
  if negb (truthy (at_ parsedRow 1)) then Returned acc
  else
    let maskedPAN := elementText (at_ parsedRow 0) in
    let rawDate := elementText (at_ parsedRow 1) in
    let remarks := elementText (at_ parsedRow 2) in
    let pending := at_ parsedRow 5 in
    match at_ parsedRow 3, at_ parsedRow 4 with
    | Some rawDebit, Some rawCredit =>
        let debit := ("-" ++ parseNumber rawDebit)%string in
        let credit := parseNumber rawCredit in
        let amountString := if truthy (Some credit) then credit else debit in
        let csvRows :=
          if negb (truthy pending)
          then csvRows ++ [[rawDate; remarks; amountString; ""; maskedPAN]]
          else csvRows in
        let parts := split "/" rawDate in
        let d := at_ parts 0 in
        let m := at_ parts 1 in
        let y := at_ parts 2 in
        obind (Temporal.create (parseInt (toStringValue y))
                               (parseInt (toStringValue m))
                               (parseInt (toStringValue d))) (fun date =>
        let amount := Math_abs (Lib.parseFloatSafely amountString false) in
        let isDebit :=
          match amountString with
          | String c _ => Ascii.eqb c "-"
          | EmptyString => false
          end in
        let isPending := truthy pending in
        let account :=
          ("Citi " ++ substringFrom (Z.of_nat (String.length maskedPAN) - 4)
                                    maskedPAN)%string in
        let transaction :=
          Lib.mkTransaction account date remarks amount isDebit isPending in
        Returned (csvRows, transaction :: transactions))
    | _, _ => Thrown "TypeError"
    end.

Fixpoint eachRow (rows : list TableRow) (acc : Tables) : Outcome Tables :=
  match rows with
  | [] => Returned acc
  | tr :: rest => obind (parseTableRow tr acc) (eachRow rest)
  end.

Definition parseTable (rows : list TableRow) : Outcome Tables :=
  eachRow rows ([], []).

End Citi.

(* ================================================================== *)
(** * The combined export: [writeCombinedOutput]

    [src/lib/drivers/dbs.ts], lines 547 to 581. *)
(* ================================================================== *)

Module Main.
Import Js.

(** One record of [transactions.csv], as passed to [stringifyCsv]. *)
Record CombinedRow : Type := mkCombinedRow {
  rowDate : string;
  rowDescription : string;
  rowAmount : number;
  rowAccount : string;
  rowStatus : string
}.

Definition compareByDate (a b : Lib.Transaction) : Z :=
  Temporal.compare (Lib.date a) (Lib.date b).

Definition combinedRow (t : Lib.Transaction) : CombinedRow :=
  mkCombinedRow (Temporal.toString (Lib.date t))
                (Lib.description t)
                (Lib.amount t)
                (Lib.account t)
                (if Lib.isPending t then "pending" else "cleared").

(** The transactions of all outputs, in the order in which
    [writeCombinedOutput] writes them. *)
Definition combinedTransactions (outputs : list Lib.DriverOutput)
  : list Lib.Transaction :=
  sort compareByDate (flat_map Lib.transactions outputs).

(** [None]: no file is written. *)
Definition writeCombinedOutput (outputs : list Lib.DriverOutput)
  : option (list CombinedRow) :=
  let transactions := flat_map Lib.transactions outputs in
  if (List.length transactions =? 0)%nat then None
  else Some (map combinedRow (sort compareByDate transactions)).

End Main.

(* ================================================================== *)
(** * The Actual Budget adapter

    [src/unnamed/part_000]. *)
(* ================================================================== *)

Module Actual.
Import Js.

Record ActualParams : Type := mkActualParams {
  dataDir : string;
  serverURL : string;
  password : string;
  syncId : string;
  (** [Record<string, string>]: the entries in the order of
      [Object.entries]. *)
  accountMapping : list (string * string)
}.

Record ActualTransaction : Type := mkActualTransaction {
  date : string;
  amount : number;
  payee : string;
  imported_payee : string;
  notes : string;
  cleared : bool
}.

Record ActualAccountTransactions : Type := mkActualAccountTransactions {
  account : string;
  transactions : list ActualTransaction
}.

Definition convertTransaction (transaction : Lib.Transaction)
  : ActualTransaction :=
  let sign := if Lib.isDebit transaction then ofZ (-1) else ofZ 1 in
  {| date := Temporal.toString (Lib.date transaction);
     amount :=
       mul (Math_round (mul (Lib.absoluteAmount transaction) (ofZ 100))) sign;
     notes := Lib.description transaction;
     imported_payee := Lib.description transaction;
     payee := Lib.description transaction;
     cleared := negb (Lib.isPending transaction) |}.

(** [Map<string, Transaction[]>]. *)
Definition Groups : Type := JsMap (list Lib.Transaction).

(** The first loop of [groupTransactionsByAccount]. *)
Definition emptyGroups (accountNames : list string) : Groups :=
  fold_left (fun m accountName => Map_set accountName [] m) accountNames [].

(** One turn of the second loop: [push] on the array found under the
    account of the transaction, nothing when there is none. *)
Definition addToGroup (m : Groups) (transaction : Lib.Transaction) : Groups :=
  match Map_get (Lib.account transaction) m with
  | Some group => Map_set (Lib.account transaction) (group ++ [transaction]) m
  | None => m
  end.

Definition groupTransactionsByAccount (accountNames : list string)
           (transactions : list Lib.Transaction) : Groups :=
  fold_left addToGroup transactions (emptyGroups accountNames).

(** The payloads that [importTransactions] builds, one per entry of the
    map. *)
Definition payloads (params : ActualParams)
           (transactions : list Lib.Transaction)
  : list ActualAccountTransactions :=
  map (fun entry =>
         mkActualAccountTransactions (fst entry)
                                     (map convertTransaction (snd entry)))
      (groupTransactionsByAccount (map fst (accountMapping params))
                                  transactions).

(** ** The lines between the two processes

    [importTransactions] writes each payload as [JSON.stringify(payload)]
    and a line feed, and [processTransactions] reads each line back with
    [JSON.parse].  The text of a payload holds no line feed of its own,
    so the lines are the payloads, one for one.  Strings and booleans come
    back as they were; a number goes through [JSON_number]. *)
Module Json.

Record Transaction : Type := mkTransaction {
  date : string;
  (** [None]: [null]. *)
  amount : option number;
  payee : string;
  imported_payee : string;
  notes : string;
  cleared : bool
}.

Record Line : Type := mkLine {
  account : string;
  transactions : list Transaction
}.

End Json.

(** [JSON.parse(JSON.stringify(t))]. *)
Definition parsedTransaction (t : ActualTransaction) : Json.Transaction :=
  Json.mkTransaction (date t) (JSON_number (amount t)) (payee t)
                     (imported_payee t) (notes t) (cleared t).

(** [JSON.parse(JSON.stringify(payload))]. *)
Definition parsedLine (payload : ActualAccountTransactions) : Json.Line :=
  Json.mkLine (account payload)
              (map parsedTransaction (transactions payload)).

(** The standard input of the child process as [processTransactions]
    reads it, line by line. *)
Definition stdinLines (params : ActualParams)
           (transactions : list Lib.Transaction) : list Json.Line :=
  map parsedLine (payloads params transactions).

(** ** The ledger capability *)

Record LedgerAccount : Type := mkLedgerAccount {
  name : string;
  id : string
}.

(** [@actual-app/api]: each call may change the ledger and may throw.
    [api_importTransactions] returns the text of a truthy result. *)
Record Api : Type := mkApi {
  Ledger : Type;
  (** [init({ dataDir, serverURL, password })]. *)
  api_init : string -> string -> string -> Ledger -> Outcome unit * Ledger;
  api_downloadBudget : string -> Ledger -> Outcome unit * Ledger;
  api_getAccounts : Ledger -> Outcome (list LedgerAccount) * Ledger;
  api_importTransactions :
    string -> list Json.Transaction -> Ledger ->
    Outcome (option string) * Ledger;
  api_sync : Ledger -> Outcome unit * Ledger;
  api_shutdown : Ledger -> Outcome unit * Ledger
}.

(** The record kept of one call of [api.importTransactions]: the arguments,
    the account of the line that led to it, and whether the call threw. *)
Record ImportCall : Type := mkImportCall {
  forAccount : string;
  accountId : string;
  records : list Json.Transaction;
  rejected : bool
}.

Definition hasThrown {A : Type} (r : Outcome A) : bool :=
  match r with Thrown _ => true | Returned _ => false end.

(** The map from account name to id that [getAccounts] fills. *)
Definition accountIds (accounts : list LedgerAccount) : JsMap string :=
  fold_left (fun m a => Map_set (name a) (id a) m) accounts [].

Section Process.
Variable api : Api.

(** The state of the Node.js process: the ledger behind the API, the
    calls of [api.importTransactions] made so far (oldest first) and the
    values shown by [console.dir]. *)
Record World : Type := mkWorld {
  ledger : Ledger api;
  importCalls : list ImportCall;
  console : list string
}.

Definition Proc (A : Type) : Type := World -> Outcome A * World.

Definition ret {A : Type} (a : A) : Proc A := fun w => (Returned a, w).

Definition throw {A : Type} (e : string) : Proc A := fun w => (Thrown e, w).

Definition bind {A B : Type} (p : Proc A) (f : A -> Proc B) : Proc B :=
  fun w =>
    match p w with
    | (Returned a, w') => f a w'
    | (Thrown e, w') => (Thrown e, w')
    end.

Local Notation "x <- p ;; q" := (bind p (fun x => q))
  (at level 61, p at next level, right associativity).
Local Notation "p ;; q" := (bind p (fun _ => q))
  (at level 61, right associativity).

Definition call {A : Type} (op : Ledger api -> Outcome A * Ledger api)
  : Proc A :=
  fun w =>
    let '(r, l) := op (ledger w) in
    (r, mkWorld l (importCalls w) (console w)).

Definition callImport (line : Json.Line) (accountId : string)
  : Proc (option string) :=
  fun w =>
    let '(r, l) :=
      api_importTransactions api accountId (Json.transactions line)
                             (ledger w) in
    (r, mkWorld l
          (importCalls w
           ++ [mkImportCall (Json.account line) accountId
                            (Json.transactions line) (hasThrown r)])
          (console w)).

Definition consoleDir (text : string) : Proc unit :=
  fun w =>
    (Returned tt, mkWorld (ledger w) (importCalls w) (console w ++ [text])).

Definition getAccounts : Proc (JsMap string) :=
  accounts <- call (api_getAccounts api) ;;
  ret (accountIds accounts).

(** The loop of [processAccountMapping] over [Object.entries].  The
    message of the error is written without its quotation marks. *)
Fixpoint resolveEntries (availableAccounts : JsMap string)
         (entries : list (string * string)) (accountIdMapping : JsMap string)
  : Outcome (JsMap string) :=
  match entries with
  | [] => Returned accountIdMapping
  | (source, destination) :: rest =>
      if Map_has destination availableAccounts then
        resolveEntries availableAccounts rest
          (Map_set source
                   (elementText (Map_get destination availableAccounts))
                   accountIdMapping)
      else Thrown ("Destination account " ++ destination ++ " does not exist.")
  end.

Definition processAccountMapping (accountMapping : list (string * string))
  : Proc (JsMap string) :=
  availableAccounts <- getAccounts ;;
  match resolveEntries availableAccounts accountMapping [] with
  | Returned m => ret m
  | Thrown e => throw e
  end.

(** The loop of [processTransactions] over the lines of the standard
    input, each as [JSON.parse] reads it. *)
Fixpoint processTransactions (accountNameToId : string -> option string)
         (lines : list Json.Line) : Proc unit :=
  match lines with
  | [] => ret tt
  | line :: rest =>
      let accountId := accountNameToId (Json.account line) in
      (if truthy accountId then
         results <- callImport line (elementText accountId) ;;
         match results with
         | Some text => consoleDir text
         | None => ret tt
         end
       else ret tt) ;;
      processTransactions accountNameToId rest
  end.

(** The [try] block of [nodeJsMain]. *)
Definition syncStep (params : ActualParams) (stdin : list Json.Line)
  : Proc unit :=
  call (api_init api (dataDir params) (serverURL params) (password params)) ;;
  call (api_downloadBudget api (syncId params)) ;;
  accountIdMapping <- processAccountMapping (accountMapping params) ;;
  processTransactions (fun name => Map_get name accountIdMapping) stdin.

(** The [catch] block: when [api.sync] or [api.shutdown] throws in turn,
    the process still ends with status 1. *)
Definition cleanUp : Proc unit :=
  call (api_sync api) ;; call (api_shutdown api).

(** [nodeJsMain]: the exit status of the process and its final state.
    [paramsEnv] is the environment variable with the parameters. *)
Definition nodeJsMain (paramsEnv : option ActualParams)
           (stdin : list Json.Line) (w : World)
  : Z * World :=
  match paramsEnv with
  | None => (1, w)
  | Some params =>
      match syncStep params stdin w with
      | (Returned _, w') => (0, w')
      | (Thrown _, w') => (1, snd (cleanUp w'))
      end
  end.

(** [importTransactions]: spawns the Node.js process with the
    parameters, feeds it the lines and reports [code === 0]. *)
Definition importTransactions (params : ActualParams)
           (transactions : list Lib.Transaction) (w : World)
  : bool * World :=
  let '(code, w') :=
    nodeJsMain (Some params) (stdinLines params transactions) w in
  (code =? 0, w').

Definition start (l : Ledger api) : World := mkWorld l [] [].
End Process.

End Actual.

(* ================================================================== *)
(** * The description rule as the specification words it *)
(* ================================================================== *)

Module Spec.
Import Js.

(** A reference sub-field counts when it is neither empty nor the
    sentinel. *)
Definition isReference (s : string) : bool :=
  negb (String.eqb s "") && negb (String.eqb s "ITR").

(** The sub-fields that count, in priority order, joined by single spaces
    with white space collapsed; the primary field when nothing is left. *)
Definition specDescription (refs : list string) : string :=
  let text :=
    collapseWhiteSpace (join " " (map Some (filter isReference refs))) in
  if String.eqb text "" then hd "" refs else text.

(** ** Transactions

    [nonNegative]: the invariant [absoluteAmount >= 0].
    [ofAccount a]: the transactions whose account is [a]. *)
Definition nonNegative (t : Lib.Transaction) : Prop :=
  leb (ofZ 0) (Lib.absoluteAmount t) = true.

Definition ofAccount (a : string) (t : Lib.Transaction) : bool :=
  String.eqb (Lib.account t) a.

(** ** Rows of the Citibank table

    A row carries the pending marker when its class attribute contains
    [pending]; it is a transaction row when its first cell, the date, is
    not empty. *)
Definition hasPendingClass (tr : Citi.TableRow) : bool :=
  match Citi.classAttr tr with
  | Some c => includes "pending" c
  | None => false
  end.

Definition hasDate (tr : Citi.TableRow) : bool :=
  truthy (nth_error (Citi.cellTexts tr) 0).

Definition remarksOf (tr : Citi.TableRow) : string :=
  nth 1 (Citi.cellTexts tr) "".

(** The record of the re-serialisation that mirrors a row of four cells
    (date, remarks, debit, credit): date, remarks, signed amount, an empty
    field and the masked card number. *)
Definition csvRowOf (tr : Citi.TableRow) : list string :=
  match Citi.cellTexts tr with
  | [rawDate; remarks; rawDebit; rawCredit] =>
      let credit := Citi.parseNumber rawCredit in
      let amountString :=
        if truthy (Some credit) then credit
        else ("-" ++ Citi.parseNumber rawDebit)%string in
      [rawDate; remarks; amountString; ""; hd "" (Citi.parseRow tr)]
  | _ => []
  end.

(** ** Calls of the ledger

    The record that [processTransactions] keeps of the call for a line,
    given the function from account names to ids. *)
Definition callFor (accountNameToId : string -> option string)
           (line : Actual.Json.Line) (threw : bool)
  : Actual.ImportCall :=
  Actual.mkImportCall
    (Actual.Json.account line)
    (elementText (accountNameToId (Actual.Json.account line)))
    (Actual.Json.transactions line) threw.

(** A source account is resolved in [m] when it has an id there and the
    id is the one of an available ledger account. *)
Definition resolved (availableAccounts m : JsMap string) (source : string)
  : Prop :=
  exists i destination,
    Map_get source m = Some i
    /\ Map_get destination availableAccounts = Some i.

End Spec.

(* ================================================================== *)
(** * Concrete statements, ledgers and tables *)
(* ================================================================== *)

Module Scenario.
Import Js.

Definition jan1 : Temporal.PlainDate := Temporal.mkPlainDate 2024 1 1.
Definition jan2 : Temporal.PlainDate := Temporal.mkPlainDate 2024 1 2.

Definition coffee : Lib.Transaction :=
  Lib.mkTransaction "Citi 1234" jan2 "COFFEE" (parseFloat "4.5") true false.

Definition salary : Lib.Transaction :=
  Lib.mkTransaction "DBS Savings" jan1 "SALARY" (parseFloat "3000") false false.

(** Two driver outputs; the newer transaction comes first. *)
Definition batch : list Lib.DriverOutput :=
  [Lib.mkDriverOutput [coffee]; Lib.mkDriverOutput [salary]].

(** A DBS statement whose debit cell holds a negative amount. *)
Definition posbHeader : list string :=
  ["Transaction Date"; "Reference"; "Debit Amount"; "Credit Amount";
   "Transaction Ref1"; "Transaction Ref2"; "Transaction Ref3"].

Definition negativeDebitRow : list string :=
  ["01 Jan 2024"; "ADV"; "-5"; " "; "REVERSAL"; ""; ""].

Definition kopiRow : list string :=
  ["01 Jan 2024"; "NETS"; " 1.20"; ""; "KOPI"; ""; ""].

Definition readAsJan1 (cell : option string) : Outcome Temporal.PlainDate :=
  Returned jan1.

(** Column positions for rows that hold the four reference fields only. *)
Definition referenceColumns : Dbs.Columns := Dbs.mkColumns 0 1 2 3 4 5.

(** A Citibank table: a pending row without a date, a pending purchase and
    a settled one. *)
Definition pendingWithoutDate : Citi.TableRow :=
  Citi.mkTableRow (Some "pending xxxxxxxxxxxx1234")
                  [""; "COFFEE"; "SGD 4.50"; ""].

Definition pendingPurchase : Citi.TableRow :=
  Citi.mkTableRow (Some "pending xxxxxxxxxxxx1234")
                  ["02/01/2024"; "COFFEE"; "SGD 4.50"; ""].

Definition settledPurchase : Citi.TableRow :=
  Citi.mkTableRow (Some "xxxxxxxxxxxx1234")
                  ["01/01/2024"; "BOOKS"; "SGD 1,234.56"; ""].

(** A ledger without state that lists [accounts] and rejects every import
    for the account [failing]. *)
Definition ledgerApi (accounts : list Actual.LedgerAccount) (failing : string)
  : Actual.Api :=
  Actual.mkApi unit
    (fun _ _ _ l => (Returned tt, l))
    (fun _ l => (Returned tt, l))
    (fun l => (Returned accounts, l))
    (fun accountId _ l =>
       if String.eqb accountId failing then (Thrown "rejected", l)
       else (Returned None, l))
    (fun l => (Returned tt, l))
    (fun l => (Returned tt, l)).

Definition checking : Actual.LedgerAccount :=
  Actual.mkLedgerAccount "Checking" "id-checking".

Definition card : Actual.LedgerAccount :=
  Actual.mkLedgerAccount "Card" "id-card".

(** Three ledgers: one that rejects the imports for [Checking], one that
    accepts every import, and one that has no account [Card]. *)
Definition rejectingChecking : Actual.Api :=
  ledgerApi [checking; card] "id-checking".

Definition accepting : Actual.Api := ledgerApi [checking; card] "".

Definition withoutCard : Actual.Api := ledgerApi [checking] "".

Definition params : Actual.ActualParams :=
  Actual.mkActualParams "data" "https://ledger.example" "secret" "budget"
    [("DBS Savings", "Checking"); ("Citi 1234", "Card")].

End Scenario.

(* ================================================================== *)
(** * More string primitives *)
(* ================================================================== *)

Module JsText.
Import Js.

Fixpoint indexOfFrom (i : Z) (sub s : string) : Z :=
  if prefix sub s then i
  else match s with
       | EmptyString => -1
       | String _ s' => indexOfFrom (i + 1) sub s'
       end.

(** [s.indexOf(sub)]: the position of the leftmost occurrence, or -1. *)
Definition indexOf (sub s : string) : Z := indexOfFrom 0 sub s.

Fixpoint takeUnits (n : nat) (s : string) : string :=
  match n, s with
  | O, _ => EmptyString
  | S _, EmptyString => EmptyString
  | S n', String c s' => String c (takeUnits n' s')
  end.

(** [s.substring(0, end)]: a negative end counts as 0. *)
Definition substringTo (finish : Z) (s : string) : string :=
  takeUnits (Z.to_nat finish) s.

(** The line feed. *)
Definition lineFeed : ascii := ascii_of_nat 10.

(** The character class of the key pattern: slash, backslash, bar,
    colon, angle brackets, question mark, star and double quote. *)
Definition isReserved (c : ascii) : bool :=
  let n := codeUnit c in
  ((n =? 47) || (n =? 92) || (n =? 124) || (n =? 58) || (n =? 60)
   || (n =? 62) || (n =? 63) || (n =? 42) || (n =? 34))%nat.

(** [s.replace(pattern, "_")] for the global pattern of that class. *)
Fixpoint replaceReserved (s : string) : string :=
  match s with
  | EmptyString => EmptyString
  | String c s' =>
      String (if isReserved c then "_"%char else c) (replaceReserved s')
  end.

Fixpoint allUnits (p : ascii -> bool) (s : string) : bool :=
  match s with
  | EmptyString => true
  | String c s' => p c && allUnits p s'
  end.

End JsText.

(* ================================================================== *)
(** * The DBS driver: the head of [parseDbsCsv]

    [src/lib/drivers/dbs.ts], lines 8 to 17: the signature test and the
    cut of the text into the account label and the body that goes to the
    CSV reader. *)
(* ================================================================== *)

Module DbsText.
Import Js.

Record Preamble : Type := mkPreamble {
  (** [head[0].split(",")[1]], [undefined] when the first line has no
      comma. *)
  account : option string;
  body : string
}.

Definition preamble (contents : string) : Outcome Preamble :=
  if negb (includes "Account Details For:" contents) then Thrown "Invalid CSV"
  else
    let start := JsText.indexOf "Transaction Date," contents in
    let head :=
      split JsText.lineFeed (trim (JsText.substringTo start contents)) in
    let account := at_ (split "," (elementText (at_ head 0))) 1 in
    let body := trim (substringFrom start contents) in
    Returned (mkPreamble account body).

End DbsText.

(* ================================================================== *)
(** * The Citibank driver: waiting for the page

    [src/lib/drivers/dbs.ts], lines 202 to 221 and 272 to 294.  The page
    is outside the program: the calls of [locator.waitFor] and of
    [page.reload] are given by their outcomes, and [noMoreTrans n] tells
    whether the end marker is visible after [n] clicks on the link for
    more activity.  In the loop of [processTransactionsTable] the clicks
    themselves are taken to succeed. *)
(* ================================================================== *)

Module CitiPage.
Import Js.

(** [waitOrRefresh]: the number of times the page is reloaded, or the
    error of a reload.  [attempt] counts the calls of [waitFor] made
    before this one; [waitFor n] is the outcome of the call number [n]
    and [reload n] that of the reload that follows it.  The [catch]
    takes any error of [waitFor]; an error of [page.reload] is not
    caught. *)
Fixpoint waitOrRefresh (waitFor reload : nat -> Outcome unit)
         (attempt retries : nat) : Outcome nat :=
  match waitFor attempt with
  | Returned _ => Returned O
  | Thrown _ =>
      obind (reload attempt) (fun _ =>
      match retries with
      | O => Returned 1%nat
      | S retries' =>
          obind (waitOrRefresh waitFor reload (S attempt) retries')
                (fun reloads => Returned (S reloads))
      end)
  end.



End CitiPage.

(* ================================================================== *)
(** * The configuration: sources and their credentials

    [src/lib/drivers/dbs.ts], lines 681 to 781. *)
(* ================================================================== *)

Module Config.
Import Js.

(** [SourceParams] and [UnresolvedSourceParams]: every field is
    optional before the resolution. *)
Record SourceParams : Type := mkSourceParams {
  key : option string;
  from1Password : option string;
  username : option string;
  password : option string;
  website : option string
}.

(** [opRead path] is the standard output of [op read path]. *)
Section OnePassword.
Variable opRead : string -> string.

Definition fetch1PasswordCredential (opSecretReferenceBase field : string)
  : option string :=
  let path := ("op://" ++ opSecretReferenceBase ++ "/" ++ field)%string in
  let trimmedStdout := trim (opRead path) in
  if negb (String.eqb trimmedStdout "") then Some trimmedStdout else None.

(** [if (credential) target[field] = credential]. *)
Definition assignField (opBasePath field : string) (current : option string)
  : option string :=
  let credential := fetch1PasswordCredential opBasePath field in
  if truthy credential then credential else current.

(** [assignFrom1Password] with the default fields. *)
Definition assignFrom1Password (target : SourceParams) (opBasePath : string)
  : SourceParams :=
  let filled :=
    mkSourceParams (key target) (from1Password target)
      (assignField opBasePath "username" (username target))
      (assignField opBasePath "password" (password target))
      (assignField opBasePath "website" (website target)) in
  if negb (truthy (key filled)) then
    mkSourceParams (Some (JsText.replaceReserved opBasePath))
      (from1Password filled) (username filled) (password filled)
      (website filled)
  else filled.

(** What one task of [resolveSources] pushes to the resolved sources. *)
Definition resolveSource (source : SourceParams) : list SourceParams :=
  if truthy (key source) then [source]
  else if truthy (from1Password source) then
    [assignFrom1Password source (elementText (from1Password source))]
  else [].

(** The resolved sources, in the order of the configuration.  The tasks
    run concurrently, so the program may push them in another order. *)
Definition resolveSources (sources : list SourceParams) : list SourceParams :=
  flat_map resolveSource sources.
End OnePassword.

End Config.

(* ================================================================== *)
(** * The pull: drivers, sources and the two output files

    [src/lib/drivers/dbs.ts], lines 464 to 473, 489 to 545 and 583 to
    653.  The browser is outside the program: [newPage] and [closePage]
    are the two calls of [withPage] around the driver, and the scraping of
    each driver, after its test of the credentials, is a parameter. *)
(* ================================================================== *)

Module Pull.
Import Js.

Record DriverDefinition : Type := mkDriverDefinition {
  name : string;
  pull : Config.SourceParams -> Outcome Lib.DriverOutput;
  supportsSource : Config.SourceParams -> bool
}.

(** [!!source.website?.includes(domain)]. *)
Definition websiteIncludes (domain : string) (source : Config.SourceParams)
  : bool :=
  match Config.website source with
  | Some w => includes domain w
  | None => false
  end.

(** The test at the head of both [pull] functions. *)
Definition hasCredentials (source : Config.SourceParams) : bool :=
  truthy (Config.username source) && truthy (Config.password source).

(** What [processSource] and [writeSyncPlaceholder] leave behind. *)
Record PullState : Type := mkPullState {
  outputs : list Lib.DriverOutput;
  (** The calls of [setError]: the key of the source and the message. *)
  errors : list (option string * string)
}.

Section Drivers.
Variable citiScrape dbsScrape : Config.SourceParams -> Outcome Lib.DriverOutput.
Variable newPage closePage : Config.SourceParams -> Outcome unit.

Definition citi : DriverDefinition :=
  mkDriverDefinition "citibank.com.sg"
    (fun source =>
       if hasCredentials source then citiScrape source
       else Thrown "No username/password specified.")
    (websiteIncludes "citibank.com.sg").

Definition dbs : DriverDefinition :=
  mkDriverDefinition "dbs.com.sg"
    (fun source =>
       if hasCredentials source then dbsScrape source
       else Thrown "No username/password provided.")
    (websiteIncludes "dbs.com.sg").

Definition selectDriver (source : Config.SourceParams)
  : option DriverDefinition :=
  find (fun driver => supportsSource driver source) [citi; dbs].

Definition setError (source : Config.SourceParams) (message : string)
           (st : PullState) : PullState :=
  mkPullState (outputs st) (errors st ++ [(Config.key source, message)]).

Definition processSource (source : Config.SourceParams) (st : PullState)
  : PullState :=
  match selectDriver source with
  | None =>
      setError source
        ("No matching driver for source: "
         ++ toStringValue (Config.key source)) st
  | Some driver =>
      let failed :=
        ("Failed processing source: "
         ++ toStringValue (Config.key source))%string in
      match newPage source with
      | Thrown _ => setError source failed st
      | Returned _ =>
          let st' :=
            match pull driver source with
            | Returned output =>
                mkPullState (outputs st ++ [output]) (errors st)
            | Thrown e => setError source e st
            end in
          match closePage source with
          | Returned _ => st'
          | Thrown _ => setError source failed st'
          end
      end
  end.

(** [processSources]: one task per source, one after the other. *)
Definition processSources (sources : list Config.SourceParams) : PullState :=
  fold_left (fun st source => processSource source st) sources
            (mkPullState [] []).

(** [writeSyncPlaceholder]: the array [transactions] of [output.json];
    [None] when no file is written. *)
Definition writeSyncPlaceholder (outputs : list Lib.DriverOutput)
  : option (list Lib.Transaction) :=
  let transactions := flat_map Lib.transactions outputs in
  if (List.length transactions =? 0)%nat then None
  else Some (sort Main.compareByDate transactions).

(** [executePull]: the two files written for the sources of the
    configuration. *)
Definition executePull (sources : list Config.SourceParams)
  : option (list Main.CombinedRow) * option (list Lib.Transaction) :=
  let outputs := outputs (processSources sources) in
  (Main.writeCombinedOutput outputs, writeSyncPlaceholder outputs).
End Drivers.

End Pull.

(* ================================================================== *)
(** * Properties of texts and dates used in the statements below *)
(* ================================================================== *)

Module Shape.
Import Js.

(** No white space other than single spaces: every white-space unit is a
    space and is not followed by white space. *)
Fixpoint singleSpaced (s : string) : bool :=
  match s with
  | EmptyString => true
  | String c s' =>
      (if isWhiteSpace c then
         Ascii.eqb c " "
         && match s' with
            | String c' _ => negb (isWhiteSpace c')
            | EmptyString => true
            end
       else true)
      && singleSpaced s'
  end.

(** [digits] is the masked card number of the class attribute [c]:
    four digits that follow twelve [x], at the leftmost place where the
    attribute holds such a number. *)
Definition cardDigits (c digits : string) : Prop :=
  String.length digits = 4%nat
  /\ Citi.allDigits digits = true
  /\ exists pre post,
       c = (pre ++ "xxxxxxxxxxxx" ++ digits ++ post)%string
       /\ forall pre' digits' post',
            (String.length pre' < String.length pre)%nat ->
            String.length digits' = 4%nat ->
            Citi.allDigits digits' = true ->
            c <> (pre' ++ "xxxxxxxxxxxx" ++ digits' ++ post')%string.

(** The class attribute [c] holds no masked card number. *)
Definition noCardNumber (c : string) : Prop :=
  forall pre digits post,
    String.length digits = 4%nat ->
    Citi.allDigits digits = true ->
    c <> (pre ++ "xxxxxxxxxxxx" ++ digits ++ post)%string.

(** [label] is the account label that goes with the row [tr]. *)
Definition labelOf (tr : Citi.TableRow) (label : string) : Prop :=
  match Citi.classAttr tr with
  | None => label = "Citi "
  | Some c =>
      (noCardNumber c /\ label = "Citi ")
      \/ exists digits,
           cardDigits c digits /\ label = ("Citi " ++ digits)%string
  end.

Definition onDate (d : Temporal.PlainDate) (t : Lib.Transaction) : bool :=
  Temporal.compare (Lib.date t) d =? 0.

(** [x] is a zero, or a finite or infinite number of sign [negative];
    never NaN. *)
Definition signOrZero (negative : bool) (x : number) : bool :=
  match x with
  | S754_zero _ => true
  | S754_infinity s | S754_finite s _ _ => Bool.eqb negative s
  | S754_nan => false
  end.

(** The account of the transaction is one of [keys]. *)
Definition mapped (keys : list string) (t : Lib.Transaction) : bool :=
  existsb (String.eqb (Lib.account t)) keys.

(** The account of the line has an id in [m] that is not empty: the
    test [if (accountId)] of [processTransactions]. *)
Definition hasId (m : JsMap string) (line : Actual.Json.Line) : bool :=
  truthy (Map_get (Actual.Json.account line) m).

End Shape.

(* ================================================================== *)
(** * Facts about numbers and sorting *)
(* ================================================================== *)

Module NumberFacts.
Import Js.

(** The string primitives on a few inputs. *)
Example string_primitives :
  trim "  KOPI  C  " = "KOPI  C"
  /\ collapseWhiteSpace "NETS  KOPI   C" = "NETS KOPI C"
  /\ split "/" "02/01/2024" = ["02"; "01"; "2024"]
  /\ removeFirstComma "1,234,567.80" = "1234,567.80"
  /\ removeCommas "1,234,567.80" = "1234567.80"
  /\ substringFrom 4 "SGD 4.50" = "4.50"
  /\ join " " [Some "a"; None; Some "b"] = "a  b".
Proof. repeat split. Qed.

(** [parseFloat] reads the longest numeric prefix and rounds to the
    nearest double. *)
Example parseFloat_values :
  parseFloat "4250" = ofZ 4250
  /\ parseFloat "1,234.5" = ofZ 1
  /\ parseFloat " -.5e1x" = ofZ (-5)
  /\ parseFloat "0.1" = S754_finite false 7205759403792794 (-56)
  /\ parseFloat "" = nan
  /\ parseFloat "undefined" = nan
  /\ parseFloat "-" = nan
  /\ parseFloat "1e999" = infinity false
  /\ parseFloat "-Infinity" = infinity true.
Proof. repeat split; vm_compute; reflexivity. Qed.

(** [parseInt] and the constructor of [Temporal.PlainDate]. *)
Example parseInt_values :
  parseInt "2024" = Some 2024
  /\ parseInt " 08" = Some 8
  /\ parseInt "0x1F" = Some 31
  /\ parseInt "12px" = Some 12
  /\ parseInt "undefined" = None
  /\ Temporal.create (Some 2024) (Some 2) (Some 29)
     = Returned (Temporal.mkPlainDate 2024 2 29)
  /\ Temporal.create (Some 2023) (Some 2) (Some 29) = Thrown "RangeError"
  /\ Temporal.create (Some 2024) None (Some 1) = Thrown "RangeError"
  /\ Temporal.toString (Temporal.mkPlainDate 2024 2 9) = "2024-02-09".
Proof. repeat split. Qed.

Lemma isNaN_parseFloatSafely (s : string) (b : bool) :
  isNaN (Lib.parseFloatSafely s b) = false.
Proof.
  unfold Lib.parseFloatSafely.
  destruct (isNaN (parseFloat (if b then removeCommas s else s))) eqn:E.
  - reflexivity.
  - exact E.
Qed.

Lemma abs_nonnegative (x : number) :
  isNaN x = false -> leb (ofZ 0) (Math_abs x) = true.
Proof.
  destruct x as [s | s | | s m e]; simpl; intros H;
    try discriminate; reflexivity.
Qed.

End NumberFacts.

Module SortFacts.
Import Js.

Section Sorting.
Context {A : Type}.
Variable compareFn : A -> A -> Z.
Hypothesis compareFn_total :
  forall a b, 0 < compareFn a b -> compareFn b a <= 0.
Hypothesis compareFn_trans :
  forall a b c, compareFn a b <= 0 -> compareFn b c <= 0 -> compareFn a c <= 0.

Lemma insertSorted_perm (x : A) (l : list A) :
  Permutation (x :: l) (insertSorted compareFn x l).
Proof.
  induction l as [| y l IH]; simpl.
  - apply Permutation_refl.
  - destruct (compareFn x y <=? 0).
    + apply Permutation_refl.
    + eapply perm_trans; [apply perm_swap |].
      apply perm_skip, IH.
Qed.

Lemma sort_perm (l : list A) : Permutation l (sort compareFn l).
Proof.
  induction l as [| x l IH]; simpl.
  - constructor.
  - eapply perm_trans; [apply perm_skip, IH | apply insertSorted_perm].
Qed.

Lemma insertSorted_sorted (x : A) (l : list A) :
  StronglySorted (fun a b => compareFn a b <= 0) l ->
  StronglySorted (fun a b => compareFn a b <= 0) (insertSorted compareFn x l).
Proof.
  induction 1 as [| y l Hs IH Hall]; simpl.
  - repeat constructor.
  - destruct (compareFn x y <=? 0) eqn:E.
    + apply Z.leb_le in E.
      constructor; [constructor; assumption |].
      constructor; [exact E |].
      rewrite Forall_forall in *. intros z Hz.
      eapply compareFn_trans; [exact E | apply Hall, Hz].
    + apply Z.leb_gt in E.
      constructor; [exact IH |].
      rewrite Forall_forall in *. intros z Hz.
      assert (Hin : In z (x :: l)).
      { eapply Permutation_in; [| exact Hz].
        apply Permutation_sym, insertSorted_perm. }
      destruct Hin as [<- | Hin].
      * apply compareFn_total, E.
      * apply Hall, Hin.
Qed.

Lemma sort_sorted (l : list A) :
  StronglySorted (fun a b => compareFn a b <= 0) (sort compareFn l).
Proof.
  induction l as [| x l IH]; simpl.
  - constructor.
  - apply insertSorted_sorted, IH.
Qed.
End Sorting.

Lemma compare_total (a b : Temporal.PlainDate) :
  0 < Temporal.compare a b -> Temporal.compare b a <= 0.
Proof.
  unfold Temporal.compare.
  destruct (Z.compare_spec (Temporal.year a) (Temporal.year b)),
           (Z.compare_spec (Temporal.year b) (Temporal.year a)); try lia;
  destruct (Z.compare_spec (Temporal.month a) (Temporal.month b)),
           (Z.compare_spec (Temporal.month b) (Temporal.month a)); try lia;
  destruct (Z.compare_spec (Temporal.day a) (Temporal.day b)),
           (Z.compare_spec (Temporal.day b) (Temporal.day a)); lia.
Qed.

Lemma compare_trans (a b c : Temporal.PlainDate) :
  Temporal.compare a b <= 0 -> Temporal.compare b c <= 0 ->
  Temporal.compare a c <= 0.
Proof.
  unfold Temporal.compare.
  destruct (Z.compare_spec (Temporal.year a) (Temporal.year b)),
           (Z.compare_spec (Temporal.year b) (Temporal.year c)),
           (Z.compare_spec (Temporal.year a) (Temporal.year c)); try lia;
  destruct (Z.compare_spec (Temporal.month a) (Temporal.month b)),
           (Z.compare_spec (Temporal.month b) (Temporal.month c)),
           (Z.compare_spec (Temporal.month a) (Temporal.month c)); try lia;
  destruct (Z.compare_spec (Temporal.day a) (Temporal.day b)),
           (Z.compare_spec (Temporal.day b) (Temporal.day c)),
           (Z.compare_spec (Temporal.day a) (Temporal.day c)); lia.
Qed.

End SortFacts.

(* ================================================================== *)
(** * The combined export *)
(* ================================================================== *)

Module ExportFacts.
Import Js.

(** Every date in [transactions.csv] is on or before the dates of the
    rows that follow it. *)
Lemma combinedTransactions_oldest_first (outputs : list Lib.DriverOutput) :
  StronglySorted
    (fun a b => Temporal.compare (Lib.date a) (Lib.date b) <= 0)
    (Main.combinedTransactions outputs).
Proof.
  unfold Main.combinedTransactions.
  apply (SortFacts.sort_sorted Main.compareByDate).
  - intros a b. apply SortFacts.compare_total.
  - intros a b c. apply SortFacts.compare_trans.
Qed.

Lemma combinedTransactions_perm (outputs : list Lib.DriverOutput) :
  Permutation (flat_map Lib.transactions outputs)
              (Main.combinedTransactions outputs).
Proof. apply SortFacts.sort_perm. Qed.

Lemma writeCombinedOutput_rows (outputs : list Lib.DriverOutput) :
  flat_map Lib.transactions outputs <> [] ->
  Main.writeCombinedOutput outputs
  = Some (map Main.combinedRow (Main.combinedTransactions outputs)).
Proof.
  unfold Main.writeCombinedOutput, Main.combinedTransactions.
  destruct (flat_map Lib.transactions outputs); [congruence | reflexivity].
Qed.

(** C1, on the batch [Scenario.batch] (a purchase of 2 January 2024
    followed by a salary of 1 January 2024): the file lists the row of
    1 January first and the row of 2 January after it, so the dates go up,
    against the comment "Sort in descending order" in the source. *)
Theorem writeCombinedOutput_lists_oldest_first :
  Main.writeCombinedOutput Scenario.batch
  = Some [Main.combinedRow Scenario.salary; Main.combinedRow Scenario.coffee]
  /\ option_map (map Main.rowDate) (Main.writeCombinedOutput Scenario.batch)
     = Some ["2024-01-01"; "2024-01-02"]
  /\ Temporal.compare (Lib.date Scenario.salary) (Lib.date Scenario.coffee)
     = -1.
Proof.
  split; [| split].
  - rewrite writeCombinedOutput_rows by discriminate. reflexivity.
  - vm_compute. reflexivity.
  - reflexivity.
Qed.

End ExportFacts.

(* ================================================================== *)
(** * [convertTransaction] *)
(* ================================================================== *)

Module ConvertFacts.
Import Js.

(** [Math.round] at ties and near zero. *)
Example Math_round_ties :
  Math_round (dyadic 5 (-1)) = ofZ 3
  /\ Math_round (dyadic (-5) (-1)) = ofZ (-2)
  /\ Math_round (dyadic 1 (-1)) = ofZ 1
  /\ Math_round (dyadic (-1) (-1)) = S754_zero true
  /\ Math_round (dyadic 1 (-2)) = S754_zero false
  /\ Math_round (dyadic 4250 0) = ofZ 4250.
Proof. repeat split; vm_compute; reflexivity. Qed.

Example parseFloat_forty_two_and_a_half :
  parseFloat "42.5" = dyadic 85 (-1).
Proof. vm_compute. reflexivity. Qed.

(** C3: [convertTransaction] computes the amount as
    [Math.round(absoluteAmount * 100) * sign] with sign -1 for a debit and
    +1 otherwise, sets [cleared] to the negation of [isPending] and copies
    the description to [payee], [imported_payee] and [notes]; a debit of
    42.5 becomes -4250 and a credit of 42.5 becomes 4250. *)
Theorem convertTransaction_fields :
  (forall t : Lib.Transaction,
     Actual.amount (Actual.convertTransaction t)
     = mul (Math_round (mul (Lib.absoluteAmount t) (ofZ 100)))
           (if Lib.isDebit t then ofZ (-1) else ofZ 1)
     /\ Actual.cleared (Actual.convertTransaction t) = negb (Lib.isPending t)
     /\ Actual.payee (Actual.convertTransaction t) = Lib.description t
     /\ Actual.imported_payee (Actual.convertTransaction t) = Lib.description t
     /\ Actual.notes (Actual.convertTransaction t) = Lib.description t)
  /\ (forall account date description isPending,
        Actual.amount
          (Actual.convertTransaction
             (Lib.mkTransaction account date description (dyadic 85 (-1))
                                true isPending))
        = ofZ (-4250))
  /\ (forall account date description isPending,
        Actual.amount
          (Actual.convertTransaction
             (Lib.mkTransaction account date description (dyadic 85 (-1))
                                false isPending))
        = ofZ 4250).
Proof.
  split; [| split].
  - intros t. unfold Actual.convertTransaction; simpl.
    destruct (Lib.isDebit t); repeat split; reflexivity.
  - intros. unfold Actual.convertTransaction; simpl. vm_compute. reflexivity.
  - intros. unfold Actual.convertTransaction; simpl. vm_compute. reflexivity.
Qed.

End ConvertFacts.

(* ================================================================== *)
(** * [parseFloatSafely] *)
(* ================================================================== *)

Module ParseFloatFacts.
Import Js.

(** C5, as stated, fails on the text [Infinity]: [parseFloat] accepts it,
    the result is not NaN and [parseFloatSafely] returns +Infinity, which
    is not a finite number. *)
Lemma parseFloatSafely_Infinity_not_finite :
  Lib.parseFloatSafely "Infinity" false = infinity false
  /\ isFinite (Lib.parseFloatSafely "Infinity" false) = false
  /\ isFinite (Lib.parseFloatSafely "-Infinity" true) = false.
Proof. repeat split; vm_compute; reflexivity. Qed.

(** C5, amended: for every string and either flag, [parseFloatSafely]
    returns a number (it cannot throw) that is never NaN; it is 0 when the
    numeric parse gives NaN and the parsed number otherwise, so it is
    finite exactly when the parse does not give an infinity. *)
Theorem parseFloatSafely_never_NaN :
  forall (floatString : string) (removeCommas : bool),
    let parsed :=
      parseFloat (if removeCommas then Js.removeCommas floatString
                  else floatString) in
    isNaN (Lib.parseFloatSafely floatString removeCommas) = false
    /\ Lib.parseFloatSafely floatString removeCommas
       = (if isNaN parsed then ofZ 0 else parsed)
    /\ isFinite (Lib.parseFloatSafely floatString removeCommas)
       = match parsed with S754_infinity _ => false | _ => true end.
Proof.
  intros floatString removeCommas parsed.
  split; [apply NumberFacts.isNaN_parseFloatSafely |].
  unfold Lib.parseFloatSafely. fold parsed.
  split; [reflexivity |].
  destruct parsed; reflexivity.
Qed.

End ParseFloatFacts.

(* ================================================================== *)
(** * [buildDescription] *)
(* ================================================================== *)

Module DescriptionFacts.
Import Js.

Lemma collapseFrom_nonempty (b : bool) (c : ascii) (s : string) :
  isWhiteSpace c = false -> collapseFrom b (String c s) <> EmptyString.
Proof. intros H. simpl. rewrite H. discriminate. Qed.

Lemma collapseWhiteSpace_nonempty (s : string) :
  s <> EmptyString -> collapseWhiteSpace s <> EmptyString.
Proof.
  destruct s as [| c s]; [congruence |].
  intros _. unfold collapseWhiteSpace. simpl.
  destruct (isWhiteSpace c); discriminate.
Qed.

Lemma join_nonempty (sep p : string) (rest : list (option string)) :
  p <> EmptyString -> join sep (Some p :: rest) <> EmptyString.
Proof.
  destruct p as [| c p]; [congruence |].
  intros _. destruct rest; simpl; discriminate.
Qed.

Lemma truthy_Some (s : string) :
  truthy (Some s) = negb (String.eqb s "").
Proof. destruct s; reflexivity. Qed.

(** With a non-empty primary field and no sentinel in the other fields,
    the parts that the code collects are the fields that count. *)
Lemma descriptionParts_filter (c : Dbs.Columns) (row : list string)
      (r0 r1 r2 r3 : string) :
  at_ row (Dbs.ref0 c) = Some r0 ->
  at_ row (Dbs.ref1 c) = Some r1 ->
  at_ row (Dbs.ref2 c) = Some r2 ->
  at_ row (Dbs.ref3 c) = Some r3 ->
  r0 <> "" -> r1 <> "ITR" -> r2 <> "ITR" -> r3 <> "ITR" ->
  Dbs.descriptionParts c row
  = map Some (filter Spec.isReference [r0; r1; r2; r3]).
Proof.
  intros H0 H1 H2 H3 N0 N1 N2 N3.
  unfold Dbs.descriptionParts. rewrite H0, H1, H2, H3.
  rewrite !truthy_Some. unfold Dbs.isNotITR, Spec.isReference. simpl.
  apply String.eqb_neq in N0, N1, N2, N3.
  rewrite N0, N1, N2, N3. simpl. rewrite !andb_true_r.
  destruct (String.eqb r0 "ITR"), (String.eqb r1 ""), (String.eqb r2 ""),
           (String.eqb r3 ""); reflexivity.
Qed.

(** When the code falls back to the primary field, that field is the
    sentinel. *)
Lemma buildDescription_fallback (c : Dbs.Columns) (row : list string) :
  Dbs.descriptionParts c row = [] -> at_ row (Dbs.ref0 c) = Some "ITR".
Proof.
  unfold Dbs.descriptionParts.
  destruct (at_ row (Dbs.ref0 c)) as [r0 |]; simpl; [| discriminate].
  destruct (String.eqb r0 "ITR") eqn:E; simpl; [| discriminate].
  apply String.eqb_eq in E. now subst.
Qed.

(** The sentinel is only looked for in the primary field. *)
Lemma buildDescription_keeps_ITR_elsewhere :
  Dbs.buildDescription Scenario.referenceColumns ["X"; "ITR"; ""; ""]
  = "X ITR".
Proof. reflexivity. Qed.

(** C6, as stated, fails on a row whose primary field is empty: for the
    reference fields ["", "A", "", ""] the only non-empty field is [A], so
    the description should be [A]; the code pushes the empty primary field
    as well and returns [A] behind a space. *)
Lemma buildDescription_empty_primary_field :
  Dbs.buildDescription Scenario.referenceColumns [""; "A"; ""; ""] = " A"
  /\ Spec.specDescription [""; "A"; ""; ""] = "A"
  /\ Dbs.buildDescription Scenario.referenceColumns [""; "A"; ""; ""]
     <> Spec.specDescription [""; "A"; ""; ""].
Proof.
  split; [reflexivity | split; [reflexivity | vm_compute; discriminate]].
Qed.

(** C6, amended: on every row whose primary reference field is not empty
    and whose three other reference fields do not hold the sentinel, the
    description is the text that the specification words: the fields that
    are neither empty nor the sentinel, in the order ref0..ref3, joined by
    single spaces with white space collapsed, and the primary field when
    that text is empty.  The fields ["ITR", "", "REF2", ""] give [REF2],
    and a row with the sentinel alone gives the sentinel. *)
Theorem buildDescription_refines_spec :
  (forall (c : Dbs.Columns) (row : list string) (r0 r1 r2 r3 : string),
     at_ row (Dbs.ref0 c) = Some r0 ->
     at_ row (Dbs.ref1 c) = Some r1 ->
     at_ row (Dbs.ref2 c) = Some r2 ->
     at_ row (Dbs.ref3 c) = Some r3 ->
     r0 <> "" -> r1 <> "ITR" -> r2 <> "ITR" -> r3 <> "ITR" ->
     Dbs.buildDescription c row = Spec.specDescription [r0; r1; r2; r3])
  /\ Dbs.buildDescription Scenario.referenceColumns ["ITR"; ""; "REF2"; ""]
     = "REF2"
  /\ Dbs.buildDescription Scenario.referenceColumns ["ITR"; ""; ""; ""]
     = "ITR".
Proof.
  split; [| split; reflexivity].
  intros c row r0 r1 r2 r3 H0 H1 H2 H3 N0 N1 N2 N3.
  unfold Dbs.buildDescription, Spec.specDescription.
  rewrite (descriptionParts_filter c row r0 r1 r2 r3) by assumption.
  rewrite H0.
  destruct (filter Spec.isReference [r0; r1; r2; r3]) as [| p ps] eqn:F.
  - reflexivity.
  - assert (Hp : p <> "").
    { assert (Hin : In p (filter Spec.isReference [r0; r1; r2; r3])).
      { rewrite F. now left. }
      apply filter_In in Hin. destruct Hin as [_ Hp].
      unfold Spec.isReference in Hp. apply andb_prop in Hp.
      destruct Hp as [Hp _]. apply negb_true_iff, String.eqb_neq in Hp.
      exact Hp. }
    cbn [map List.length Nat.eqb].
    pose proof (collapseWhiteSpace_nonempty _
                  (join_nonempty " " p (map Some ps) Hp)) as Hne.
    apply String.eqb_neq in Hne. rewrite Hne. reflexivity.
Qed.

(** The hypotheses of C6 hold on a statement row. *)
Lemma buildDescription_refines_spec_witness :
  Dbs.buildDescription Scenario.referenceColumns ["ADV"; "NETS"; ""; "KOPI  C"]
  = Spec.specDescription ["ADV"; "NETS"; ""; "KOPI  C"].
Proof.
  apply (proj1 buildDescription_refines_spec Scenario.referenceColumns
               ["ADV"; "NETS"; ""; "KOPI  C"] "ADV" "NETS" "" "KOPI  C");
    solve [reflexivity | discriminate].
Defined.

End DescriptionFacts.

(* ================================================================== *)
(** * Amounts built by the parsers *)
(* ================================================================== *)

Module AmountFacts.
Import Js.

(** C7 on the DBS statement [Scenario.negativeDebitRow], whose debit cell
    holds [-5]: [parseDbsCsv] builds one transaction and its
    [absoluteAmount] is -5, which is not at least 0.  The Citibank parser
    takes [Math.abs] of the same kind of value. *)
Theorem parseDbsCsv_negative_absoluteAmount :
  exists t : Lib.Transaction,
    Dbs.parseDbsCsv Scenario.readAsJan1 "POSB"
                    [Scenario.posbHeader; Scenario.negativeDebitRow]
    = Returned [t]
    /\ Lib.absoluteAmount t = ofZ (-5)
    /\ leb (ofZ 0) (Lib.absoluteAmount t) = false.
Proof.
  eexists. split; [vm_compute; reflexivity |].
  split; vm_compute; reflexivity.
Qed.

End AmountFacts.

(* ================================================================== *)
(** * The order of the DBS transactions *)
(* ================================================================== *)

Module DbsFacts.
Import Js.

Section Rows.
Variable dateOfCell : option string -> Outcome Temporal.PlainDate.

Lemma parseRows_reverse (account : string) (c : Dbs.Columns)
      (rows : list (list string)) :
  forall built transactions : list Lib.Transaction,
    Dbs.parseRows dateOfCell account c rows built = Returned transactions ->
    map Lib.description transactions
    = rev (map (fun cells => Dbs.buildDescription c (map trim cells)) rows)
      ++ map Lib.description built.
Proof.
  induction rows as [| cells rows IH]; intros built transactions;
    cbn [Dbs.parseRows map rev].
  - intros H. injection H as <-. reflexivity.
  - unfold Dbs.parseCells.
    destruct (dateOfCell (at_ (map trim cells) 0)) as [date | e];
      cbn [obind]; [| discriminate].
    intros H. apply IH in H. rewrite H. cbn [map Lib.description].
    rewrite <- app_assoc. reflexivity.
Qed.

(** [parseDbsCsv] emits the transactions in reverse source order: the
    descriptions of the result are those of the data rows, last row
    first. *)
Lemma parseDbsCsv_reverse_order (account : string) (headerRow : list string)
      (rows : list (list string)) (transactions : list Lib.Transaction) :
  Dbs.parseDbsCsv dateOfCell account (headerRow :: rows)
  = Returned transactions ->
  map Lib.description transactions
  = rev (map (fun cells =>
                Dbs.buildDescription (Dbs.resolveColumns headerRow)
                                     (map trim cells))
             rows).
Proof.
  unfold Dbs.parseDbsCsv. intros H. apply parseRows_reverse in H.
  rewrite H. apply app_nil_r.
Qed.
End Rows.

(** The hypothesis holds on a statement of two rows. *)
Lemma parseDbsCsv_reverse_order_witness :
  ["NETS KOPI"; "ADV REVERSAL"]
  = rev (map (fun cells =>
                Dbs.buildDescription (Dbs.resolveColumns Scenario.posbHeader)
                                     (map trim cells))
             [Scenario.negativeDebitRow; Scenario.kopiRow]).
Proof.
  refine (parseDbsCsv_reverse_order Scenario.readAsJan1 "POSB"
            Scenario.posbHeader
            [Scenario.negativeDebitRow; Scenario.kopiRow]
            [Lib.mkTransaction "POSB" Scenario.jan1 "NETS KOPI"
               (parseFloat "1.2") true false;
             Lib.mkTransaction "POSB" Scenario.jan1 "ADV REVERSAL"
               (ofZ (-5)) false false]
            _).
  vm_compute. reflexivity.
Defined.

End DbsFacts.

(* ================================================================== *)
(** * [parseTable] *)
(* ================================================================== *)

Module TableFacts.
Import Js.

(** Array access at the positions that the destructuring reads. *)
Lemma at_nat {A : Type} (l : list A) (n : nat) :
  at_ l (Z.of_nat n) = nth_error l n.
Proof.
  unfold at_. destruct (Z.ltb_spec (Z.of_nat n) 0) as [H | _]; [lia |].
  now rewrite Nat2Z.id.
Qed.

Lemma at_positions {A : Type} (l : list A) :
  at_ l 0 = nth_error l 0 /\ at_ l 1 = nth_error l 1
  /\ at_ l 2 = nth_error l 2 /\ at_ l 3 = nth_error l 3
  /\ at_ l 4 = nth_error l 4 /\ at_ l 5 = nth_error l 5.
Proof. repeat split; apply (at_nat l). Qed.

(** What one turn of the loop does with a row of four cells. *)
Lemma parseTableRow_four_cells (tr : Citi.TableRow)
      (csvRows csvRows' : list (list string))
      (transactions transactions' : list Lib.Transaction) :
  List.length (Citi.cellTexts tr) = 4%nat ->
  Citi.parseTableRow tr (csvRows, transactions)
  = Returned (csvRows', transactions') ->
  (Spec.hasDate tr = false
   /\ csvRows' = csvRows /\ transactions' = transactions)
  \/ (Spec.hasDate tr = true
      /\ csvRows'
         = csvRows ++ (if Spec.hasPendingClass tr then []
                       else [Spec.csvRowOf tr])
      /\ exists t,
           transactions' = t :: transactions
           /\ Lib.isPending t = Spec.hasPendingClass tr
           /\ Lib.description t = Spec.remarksOf tr).
Proof.
  destruct tr as [classes cells].
  destruct cells as [| rawDate [| remarks [| rawDebit [| rawCredit [| ? ?]]]]];
    try discriminate.
  intros _.
  unfold Citi.parseTableRow, Spec.hasDate, Spec.hasPendingClass,
    Spec.csvRowOf, Spec.remarksOf.
  cbn [Citi.cellTexts Citi.classAttr nth_error nth].
  destruct (at_positions
              (Citi.parseRow (Citi.mkTableRow classes
                                [rawDate; remarks; rawDebit; rawCredit])))
    as (E0 & E1 & E2 & E3 & E4 & E5).
  rewrite E0, E1, E2, E3, E4, E5. clear E0 E1 E2 E3 E4 E5.
  unfold Citi.parseRow.
  cbn [Citi.cellTexts Citi.classAttr app hd nth_error elementText].
  destruct (truthy (Some rawDate)) eqn:Hdate; cbn [negb].
  - intros H. right. split; [reflexivity |].
    match type of H with
    | obind ?d _ = _ => destruct d as [date | e]; cbn [obind] in H
    end; [| discriminate].
    injection H as <- <-.
    set (pending := match classes with
                    | Some c => includes "pending" c
                    | None => false
                    end).
    split.
    + destruct pending; [rewrite app_nil_r |]; reflexivity.
    + eexists. split; [reflexivity |]. cbn [Lib.isPending Lib.description].
      split; [destruct pending; reflexivity | reflexivity].
  - intros H. injection H as <- <-. left. repeat split.
Qed.

(** Every amount that [parseTable] builds went through [Math.abs]. *)
Lemma parseTableRow_nonNegative (tr : Citi.TableRow) (acc acc' : Citi.Tables) :
  Citi.parseTableRow tr acc = Returned acc' ->
  Forall Spec.nonNegative (snd acc) -> Forall Spec.nonNegative (snd acc').
Proof.
  destruct acc as [csvRows transactions].
  unfold Citi.parseTableRow.
  destruct (negb (truthy (at_ (Citi.parseRow tr) 1))).
  - intros H. injection H as <-. trivial.
  - destruct (at_ (Citi.parseRow tr) 3) as [rawDebit |]; [| discriminate].
    destruct (at_ (Citi.parseRow tr) 4) as [rawCredit |]; [| discriminate].
    match goal with
    | |- obind ?d _ = _ -> _ => destruct d as [date | e]; cbn [obind]
    end; [| discriminate].
    intros H Hall. injection H as <-. cbn [snd] in *.
    constructor; [| exact Hall].
    unfold Spec.nonNegative. cbn [Lib.absoluteAmount].
    apply NumberFacts.abs_nonnegative, NumberFacts.isNaN_parseFloatSafely.
Qed.

Lemma eachRow_nonNegative (rows : list Citi.TableRow) :
  forall acc acc' : Citi.Tables,
    Citi.eachRow rows acc = Returned acc' ->
    Forall Spec.nonNegative (snd acc) -> Forall Spec.nonNegative (snd acc').
Proof.
  induction rows as [| tr rows IH]; intros acc acc'; simpl.
  - intros H. injection H as <-. trivial.
  - destruct (Citi.parseTableRow tr acc) as [acc1 | e] eqn:E; simpl;
      [| discriminate].
    intros H Hall. eapply IH; [exact H |].
    eapply parseTableRow_nonNegative; eassumption.
Qed.

(** The Citibank half of the amount invariant: whenever [parseTable]
    returns, every transaction has an [absoluteAmount] of at least 0. *)
Lemma parseTable_amounts_nonNegative (rows : list Citi.TableRow)
      (csvRows : list (list string)) (transactions : list Lib.Transaction) :
  Citi.parseTable rows = Returned (csvRows, transactions) ->
  Forall Spec.nonNegative transactions.
Proof.
  intros H.
  apply (eachRow_nonNegative rows ([], []) (csvRows, transactions) H).
  constructor.
Qed.

(** The hypothesis holds on the table of two purchases. *)
Lemma parseTable_amounts_nonNegative_witness :
  Forall Spec.nonNegative
    [Lib.mkTransaction "Citi 1234" Scenario.jan1 "BOOKS"
       (parseFloat "1234.56") true false;
     Lib.mkTransaction "Citi 1234" Scenario.jan2 "COFFEE"
       (parseFloat "4.5") true true].
Proof.
  refine (TableFacts.parseTable_amounts_nonNegative
            [Scenario.pendingPurchase; Scenario.settledPurchase]
            [["01/01/2024"; "BOOKS"; "-1234.56"; ""; "xxxxxxxxxxxx1234"]]
            _ _).
  vm_compute. reflexivity.
Defined.

(** The loop over a table whose rows have four cells. *)
Lemma eachRow_four_cells (rows : list Citi.TableRow) :
  Forall (fun tr => List.length (Citi.cellTexts tr) = 4%nat) rows ->
  forall csvRows transactions csvRows' transactions',
    Citi.eachRow rows (csvRows, transactions)
    = Returned (csvRows', transactions') ->
    csvRows'
    = csvRows
      ++ map Spec.csvRowOf
             (filter (fun tr => Spec.hasDate tr
                                && negb (Spec.hasPendingClass tr)) rows)
    /\ exists built,
         transactions' = rev built ++ transactions
         /\ Forall2 (fun tr t =>
                       Lib.isPending t = Spec.hasPendingClass tr
                       /\ Lib.description t = Spec.remarksOf tr)
                    (filter Spec.hasDate rows) built.
Proof.
  induction 1 as [| tr rows Hlen Hall IH];
    intros csvRows transactions csvRows' transactions';
    cbn [Citi.eachRow filter map].
  - intros H. injection H as <- <-. rewrite app_nil_r.
    split; [reflexivity |]. exists []. split; [reflexivity | constructor].
  - destruct (Citi.parseTableRow tr (csvRows, transactions))
      as [[csv1 tx1] | e] eqn:E; cbn [obind]; [| discriminate].
    intros H. apply IH in H. destruct H as [Hcsv [built [Htx Hrel]]].
    destruct (parseTableRow_four_cells _ _ _ _ _ Hlen E)
      as [[Hd [-> ->]] | [Hd [-> [t [-> [Hp Hr]]]]]]; rewrite Hd;
      cbn [andb negb].
    + split; [exact Hcsv |]. exists built. split; assumption.
    + split.
      * rewrite Hcsv, <- app_assoc.
        destruct (Spec.hasPendingClass tr); reflexivity.
      * exists (t :: built). split.
        -- rewrite Htx. simpl. rewrite <- app_assoc. reflexivity.
        -- constructor; [split; assumption | exact Hrel].
Qed.

Lemma Forall2_In_left {A B : Type} (R : A -> B -> Prop) (l : list A)
      (l' : list B) (a : A) :
  Forall2 R l l' -> In a l -> exists b, In b l' /\ R a b.
Proof.
  induction 1 as [| x y l l' Hxy _ IH]; simpl; [tauto |].
  intros [<- | Hin].
  - exists y. split; [now left | exact Hxy].
  - destruct (IH Hin) as [b [Hb Hab]]. exists b. split; [now right | exact Hab].
Qed.

(** C8, as stated, fails on a pending row whose date cell is empty: the
    loop leaves such a row out before it looks at the marker, so the row
    yields no transaction at all. *)
Lemma parseTable_skips_pending_row_without_date :
  Spec.hasPendingClass Scenario.pendingWithoutDate = true
  /\ Citi.parseTable [Scenario.pendingWithoutDate] = Returned ([], []).
Proof. split; reflexivity. Qed.

(** C8, amended: for a table whose rows have the four cells date, remarks,
    debit and credit and that [parseTable] reads without an exception, the
    re-serialisation holds the records of exactly the rows that have a date
    and no pending marker, in table order; the rows that have a date
    correspond, in reverse order, to the transactions, each with
    [isPending] equal to the marker of its row; so every pending row with a
    date is left out of the re-serialisation and yields a transaction with
    [isPending = true]. *)
Theorem parseTable_pending_rows :
  forall (rows : list Citi.TableRow) (csvRows : list (list string))
         (transactions : list Lib.Transaction),
    Forall (fun tr => List.length (Citi.cellTexts tr) = 4%nat) rows ->
    Citi.parseTable rows = Returned (csvRows, transactions) ->
    csvRows
    = map Spec.csvRowOf
          (filter (fun tr => Spec.hasDate tr
                             && negb (Spec.hasPendingClass tr)) rows)
    /\ Forall2 (fun tr t =>
                  Lib.isPending t = Spec.hasPendingClass tr
                  /\ Lib.description t = Spec.remarksOf tr)
               (filter Spec.hasDate rows) (rev transactions)
    /\ (forall tr,
          In tr rows -> Spec.hasPendingClass tr = true ->
          Spec.hasDate tr = true ->
          exists t, In t transactions
                    /\ Lib.isPending t = true
                    /\ Lib.description t = Spec.remarksOf tr).
Proof.
  intros rows csvRows transactions Hfour Hparse.
  unfold Citi.parseTable in Hparse.
  destruct (eachRow_four_cells rows Hfour _ _ _ _ Hparse)
    as [Hcsv [built [Htx Hrel]]].
  rewrite app_nil_r in Htx. subst transactions.
  rewrite rev_involutive.
  split; [exact Hcsv |]. split; [exact Hrel |].
  intros tr Hin Hpending Hdate.
  assert (Hkept : In tr (filter Spec.hasDate rows)).
  { apply filter_In. split; assumption. }
  destruct (Forall2_In_left _ _ _ _ Hrel Hkept) as [t [Ht [Hp Hr]]].
  exists t. split; [apply in_rev in Ht; exact Ht |].
  split; [rewrite Hp; exact Hpending | exact Hr].
Qed.

(** The hypotheses of C8 hold on a table with a pending and a settled
    purchase: only the settled one is re-serialised. *)
Lemma parseTable_pending_rows_witness :
  [["01/01/2024"; "BOOKS"; "-1234.56"; ""; "xxxxxxxxxxxx1234"]]
  = map Spec.csvRowOf
        (filter (fun tr => Spec.hasDate tr && negb (Spec.hasPendingClass tr))
                [Scenario.pendingPurchase; Scenario.settledPurchase]).
Proof.
  refine (proj1 (parseTable_pending_rows
                   [Scenario.pendingPurchase; Scenario.settledPurchase]
                   _
                   [Lib.mkTransaction "Citi 1234" Scenario.jan1 "BOOKS"
                      (parseFloat "1234.56") true false;
                    Lib.mkTransaction "Citi 1234" Scenario.jan2 "COFFEE"
                      (parseFloat "4.5") true true]
                   _ _)).
  - repeat constructor.
  - vm_compute. reflexivity.
Defined.

End TableFacts.

(* ================================================================== *)
(** * Maps in insertion order *)
(* ================================================================== *)

Module MapFacts.
Import Js.

Section Maps.
Context {V : Type}.
Implicit Types (m : JsMap V) (k : string) (v : V).

Lemma get_set_same k v m : Map_get k (Map_set k v m) = Some v.
Proof.
  induction m as [| [k' v'] m IH]; simpl.
  - now rewrite String.eqb_refl.
  - destruct (String.eqb k' k) eqn:E; simpl.
    + now rewrite String.eqb_refl.
    + now rewrite E.
Qed.

Lemma get_set_other k k' v m :
  k <> k' -> Map_get k' (Map_set k v m) = Map_get k' m.
Proof.
  intros Hne. induction m as [| [k0 v0] m IH]; simpl.
  - apply String.eqb_neq in Hne. now rewrite Hne.
  - destruct (String.eqb k0 k) eqn:E; simpl.
    + apply String.eqb_eq in E. subst k0.
      apply String.eqb_neq in Hne. now rewrite Hne.
    + destruct (String.eqb k0 k'); [reflexivity | exact IH].
Qed.

Lemma get_None_not_key k m : Map_get k m = None <-> ~ In k (map fst m).
Proof.
  induction m as [| [k' v'] m IH]; simpl; [tauto |].
  destruct (String.eqb k' k) eqn:E.
  - apply String.eqb_eq in E.
    split; [discriminate | intros H; elim H; now left].
  - apply String.eqb_neq in E. rewrite IH. tauto.
Qed.

Lemma get_Some_key k v m : Map_get k m = Some v -> In k (map fst m).
Proof.
  intros H. destruct (in_dec string_dec k (map fst m)) as [Hin | Hout];
    [exact Hin |].
  apply get_None_not_key in Hout. congruence.
Qed.

(** The keys after [set]: unchanged for a key of the map, one more at the
    end otherwise. *)
Lemma keys_set k v m :
  map fst (Map_set k v m)
  = if Map_has k m then map fst m else map fst m ++ [k].
Proof.
  unfold Map_has. induction m as [| [k' v'] m IH]; simpl; [reflexivity |].
  destruct (String.eqb k' k) eqn:E; simpl.
  - apply String.eqb_eq in E. now subst.
  - rewrite IH. now destruct (Map_get k m).
Qed.

Lemma has_true_key k m : Map_has k m = true <-> In k (map fst m).
Proof.
  unfold Map_has. destruct (Map_get k m) eqn:E.
  - split; [intros _; eapply get_Some_key; eassumption | reflexivity].
  - apply get_None_not_key in E. split; [discriminate | tauto].
Qed.

Lemma set_NoDup k v m : NoDup (map fst m) -> NoDup (map fst (Map_set k v m)).
Proof.
  intros Hnd. rewrite keys_set. destruct (Map_has k m) eqn:E; [exact Hnd |].
  apply NoDup_app; [exact Hnd | repeat constructor; simpl; tauto |].
  intros x Hx [<- | []].
  apply has_true_key in Hx. congruence.
Qed.

Lemma set_In_key k k' v m :
  In k' (map fst (Map_set k v m)) <-> k' = k \/ In k' (map fst m).
Proof.
  rewrite keys_set. destruct (Map_has k m) eqn:E.
  - apply has_true_key in E. split; [tauto | intros [-> | H]; assumption].
  - rewrite in_app_iff. simpl. intuition congruence.
Qed.
End Maps.

End MapFacts.

(* ================================================================== *)
(** * [groupTransactionsByAccount] *)
(* ================================================================== *)

Module GroupFacts.
Import Js.

Lemma map_unchanged {A : Type} (f : A -> A) (l : list A) :
  (forall x, In x l -> f x = x) -> map f l = l.
Proof.
  intros H. rewrite <- (map_id l) at 2. apply map_ext_in, H.
Qed.

(** One [push]: the array under the account of [t] grows by [t]. *)
Lemma addToGroup_map (t : Lib.Transaction) (m : Actual.Groups) :
  NoDup (map fst m) ->
  Actual.addToGroup m t
  = map (fun e => (fst e,
                   snd e ++ (if Spec.ofAccount (fst e) t then [t] else [])))
        m.
Proof.
  unfold Actual.addToGroup, Spec.ofAccount.
  induction m as [| [k v] m IH]; intros Hnd; [reflexivity |].
  inversion Hnd as [| ? ? Hout Hnd']; subst.
  cbn [Map_get Map_set map fst snd].
  rewrite (String.eqb_sym (Lib.account t) k).
  destruct (String.eqb k (Lib.account t)) eqn:E.
  - apply String.eqb_eq in E. subst k. f_equal.
    symmetry. apply map_unchanged. intros [k' v'] Hin. cbn [fst snd].
    destruct (String.eqb (Lib.account t) k') eqn:E'.
    + apply String.eqb_eq in E'. subst k'.
      elim Hout. apply in_map_iff. now exists (Lib.account t, v').
    + now rewrite app_nil_r.
  - rewrite app_nil_r. specialize (IH Hnd').
    destruct (Map_get (Lib.account t) m); now rewrite <- IH.
Qed.

Lemma fold_addToGroup (transactions : list Lib.Transaction) :
  forall m : Actual.Groups,
    NoDup (map fst m) ->
    fold_left Actual.addToGroup transactions m
    = map (fun e => (fst e,
                     snd e ++ filter (Spec.ofAccount (fst e)) transactions))
          m.
Proof.
  induction transactions as [| t ts IH]; intros m Hnd; cbn [fold_left].
  - symmetry. apply map_unchanged. intros [k v] _. cbn [fst snd filter].
    now rewrite app_nil_r.
  - rewrite (addToGroup_map t m Hnd), IH.
    + rewrite map_map. apply map_ext. intros [k v]. cbn [fst snd filter].
      destruct (Spec.ofAccount k t); rewrite <- app_assoc; reflexivity.
    + rewrite map_map. cbn [fst]. exact Hnd.
Qed.

(** The first loop: distinct keys, empty arrays, and the keys are the
    account names. *)
Lemma set_empty_all_empty (k : string) (m : Actual.Groups) :
  Forall (fun e => snd e = []) m ->
  Forall (fun e => snd e = []) (Map_set k [] m).
Proof.
  induction 1 as [| [k' v'] m Hv Hall IH]; cbn [Map_set].
  - repeat constructor.
  - destruct (String.eqb k' k); constructor; assumption || reflexivity.
Qed.

Lemma emptyGroups_from (accountNames : list string) :
  forall m : Actual.Groups,
    NoDup (map fst m) ->
    Forall (fun e => snd e = []) m ->
    let r := fold_left (fun m n => Map_set n [] m) accountNames m in
    NoDup (map fst r)
    /\ Forall (fun e => snd e = []) r
    /\ (forall k, In k (map fst r) <-> In k accountNames \/ In k (map fst m)).
Proof.
  induction accountNames as [| n names IH]; intros m Hnd Hall; cbn [fold_left].
  - repeat split; try assumption; simpl; tauto.
  - destruct (IH (Map_set n [] m)) as [H1 [H2 H3]].
    + apply MapFacts.set_NoDup, Hnd.
    + apply set_empty_all_empty, Hall.
    + repeat split; try assumption.
      * intros Hk. apply H3 in Hk. rewrite MapFacts.set_In_key in Hk.
        simpl. intuition.
      * intros Hk. apply H3. rewrite MapFacts.set_In_key.
        simpl in Hk. intuition.
Qed.

Lemma emptyGroups_keys_in_order (accountNames : list string) :
  forall m : Actual.Groups,
    NoDup accountNames ->
    (forall k, In k accountNames -> ~ In k (map fst m)) ->
    map fst (fold_left (fun m n => Map_set n [] m) accountNames m)
    = map fst m ++ accountNames.
Proof.
  induction accountNames as [| n names IH]; intros m Hnd Hfresh;
    cbn [fold_left].
  - now rewrite app_nil_r.
  - inversion Hnd as [| ? ? Hout Hnd']; subst.
    rewrite IH; [| exact Hnd' |].
    + rewrite MapFacts.keys_set.
      destruct (Map_has n m) eqn:E.
      * apply MapFacts.has_true_key in E. elim (Hfresh n); [now left | exact E].
      * now rewrite <- app_assoc.
    + intros k Hk Hin. apply MapFacts.set_In_key in Hin.
      destruct Hin as [-> | Hin]; [contradiction |].
      apply (Hfresh k); [now right | exact Hin].
Qed.

(** The grouping, entry by entry: under each key, the transactions of
    that account in their order of arrival. *)
Lemma groupTransactionsByAccount_entries (accountNames : list string)
      (transactions : list Lib.Transaction) :
  Actual.groupTransactionsByAccount accountNames transactions
  = map (fun k => (k, filter (Spec.ofAccount k) transactions))
        (map fst (Actual.emptyGroups accountNames)).
Proof.
  unfold Actual.groupTransactionsByAccount, Actual.emptyGroups.
  destruct (emptyGroups_from accountNames [] (NoDup_nil _) (Forall_nil _))
    as [Hnd [Hall _]].
  rewrite (fold_addToGroup transactions _ Hnd), map_map.
  apply map_ext_in. intros [k v] Hin. cbn [fst snd].
  rewrite Forall_forall in Hall. specialize (Hall _ Hin). cbn [snd] in Hall.
  now subst v.
Qed.

Lemma emptyGroups_keys (accountNames : list string) :
  NoDup (map fst (Actual.emptyGroups accountNames))
  /\ (forall k, In k (map fst (Actual.emptyGroups accountNames))
                <-> In k accountNames).
Proof.
  unfold Actual.emptyGroups.
  destruct (emptyGroups_from accountNames [] (NoDup_nil _) (Forall_nil _))
    as [Hnd [_ Hkeys]].
  split; [exact Hnd |]. intros k. rewrite Hkeys. simpl. tauto.
Qed.

Lemma emptyGroups_keys_NoDup (accountNames : list string) :
  NoDup accountNames ->
  map fst (Actual.emptyGroups accountNames) = accountNames.
Proof.
  intros Hnd. unfold Actual.emptyGroups.
  rewrite emptyGroups_keys_in_order; [reflexivity | exact Hnd |].
  intros k _ [].
Qed.

(** The payloads: one per key, with the converted transactions of that
    account. *)
Lemma payloads_entries (params : Actual.ActualParams)
      (transactions : list Lib.Transaction) :
  Actual.payloads params transactions
  = map (fun k =>
           Actual.mkActualAccountTransactions
             k (map Actual.convertTransaction
                    (filter (Spec.ofAccount k) transactions)))
        (map fst (Actual.emptyGroups
                    (map fst (Actual.accountMapping params)))).
Proof.
  unfold Actual.payloads.
  rewrite groupTransactionsByAccount_entries, map_map. reflexivity.
Qed.

End GroupFacts.

(* ================================================================== *)
(** * The synchronisation process *)
(* ================================================================== *)

Module SyncFacts.
Import Js.

Section Run.
Variable api : Actual.Api.

(** One turn of the loop of [processTransactions]. *)
Lemma processTransactions_step (f : string -> option string)
      (line : Actual.Json.Line)
      (rest : list Actual.Json.Line) (w : Actual.World api) :
  Actual.processTransactions api f (line :: rest) w
  = if truthy (f (Actual.Json.account line)) then
      match Actual.api_importTransactions api
              (elementText (f (Actual.Json.account line)))
              (Actual.Json.transactions line) (Actual.ledger api w) with
      | (Returned results, l) =>
          Actual.processTransactions api f rest
            (Actual.mkWorld api l
               (Actual.importCalls api w ++ [Spec.callFor f line false])
               (Actual.console api w
                ++ match results with Some text => [text] | None => [] end))
      | (Thrown e, l) =>
          (Thrown e,
           Actual.mkWorld api l
             (Actual.importCalls api w ++ [Spec.callFor f line true])
             (Actual.console api w))
      end
    else Actual.processTransactions api f rest w.
Proof.
  cbn [Actual.processTransactions]. unfold Actual.bind at 1.
  destruct (truthy (f (Actual.Json.account line))).
  - unfold Actual.bind, Actual.callImport, Spec.callFor.
    destruct (Actual.api_importTransactions api _ _ _) as [[results | e] l];
      cbn [Actual.hasThrown].
    + destruct results as [text |]; cbn.
      * reflexivity.
      * rewrite app_nil_r. destruct w; reflexivity.
    + reflexivity.
  - reflexivity.
Qed.

(** Where the calls of the loop come from: each is the call for a line
    whose account has a truthy id. *)
Lemma processTransactions_origin (f : string -> option string)
      (lines : list Actual.Json.Line) :
  forall (w w' : Actual.World api) (r : Outcome unit),
    Actual.processTransactions api f lines w = (r, w') ->
    exists cs,
      Actual.importCalls api w' = Actual.importCalls api w ++ cs
      /\ Forall (fun c => exists line threw,
                    In line lines
                    /\ truthy (f (Actual.Json.account line)) = true
                    /\ c = Spec.callFor f line threw) cs.
Proof.
  induction lines as [| line rest IH]; intros w w' r.
  - cbn. intros H. injection H as <- <-. exists []. rewrite app_nil_r.
    split; [reflexivity | constructor].
  - rewrite processTransactions_step.
    destruct (truthy (f (Actual.Json.account line))) eqn:T.
    + destruct (Actual.api_importTransactions api _ _ _)
        as [[results | e] l].
      * intros H. apply IH in H. destruct H as [cs [Hcs Hall]].
        cbn [Actual.importCalls] in Hcs.
        exists (Spec.callFor f line false :: cs). split.
        -- rewrite Hcs, <- app_assoc. reflexivity.
        -- constructor.
           ++ exists line, false. repeat split; [now left | exact T].
           ++ eapply Forall_impl; [| exact Hall].
              intros c [ln [threw [Hin Hrest]]].
              exists ln, threw. split; [now right | exact Hrest].
      * intros H. injection H as <- <-.
        exists [Spec.callFor f line true]. split; [reflexivity |].
        constructor; [| constructor].
        exists line, true. repeat split; [now left | exact T].
    + intros H. apply IH in H. destruct H as [cs [Hcs Hall]].
      exists cs. split; [exact Hcs |].
      eapply Forall_impl; [| exact Hall].
      intros c [ln [threw [Hin Hrest]]].
      exists ln, threw. split; [now right | exact Hrest].
Qed.

(** How the loop ends: after a normal end no call has thrown; after an
    exception the last call, and only the last, has thrown. *)
Lemma processTransactions_stop (f : string -> option string)
      (lines : list Actual.Json.Line) :
  forall (w w' : Actual.World api) (r : Outcome unit),
    Actual.processTransactions api f lines w = (r, w') ->
    exists cs,
      Actual.importCalls api w' = Actual.importCalls api w ++ cs
      /\ match r with
         | Returned _ => Forall (fun c => Actual.rejected c = false) cs
         | Thrown _ =>
             exists cs' c,
               cs = cs' ++ [c]
               /\ Actual.rejected c = true
               /\ Forall (fun c => Actual.rejected c = false) cs'
         end.
Proof.
  induction lines as [| line rest IH]; intros w w' r.
  - cbn. intros H. injection H as <- <-. exists []. rewrite app_nil_r.
    split; [reflexivity | constructor].
  - rewrite processTransactions_step.
    destruct (truthy (f (Actual.Json.account line))) eqn:T.
    + destruct (Actual.api_importTransactions api _ _ _)
        as [[results | e] l].
      * intros H. apply IH in H. destruct H as [cs [Hcs Hend]].
        cbn [Actual.importCalls] in Hcs.
        exists (Spec.callFor f line false :: cs). split.
        -- rewrite Hcs, <- app_assoc. reflexivity.
        -- destruct r as [u | e].
           ++ constructor; [reflexivity | exact Hend].
           ++ destruct Hend as [cs' [c [-> [Hc Hall]]]].
              exists (Spec.callFor f line false :: cs'), c.
              repeat split; [exact Hc |].
              constructor; [reflexivity | exact Hall].
      * intros H. injection H as <- <-.
        exists [Spec.callFor f line true]. split; [reflexivity |].
        exists [], (Spec.callFor f line true). repeat split. constructor.
    + apply IH.
Qed.

(** After a normal end, every line whose account has a truthy id has had
    its call, and the call returned. *)
Lemma processTransactions_complete (f : string -> option string)
      (lines : list Actual.Json.Line) :
  forall (w w' : Actual.World api) (u : unit),
    Actual.processTransactions api f lines w = (Returned u, w') ->
    forall line,
      In line lines -> truthy (f (Actual.Json.account line)) = true ->
      exists before after,
        Actual.importCalls api w'
        = before ++ Spec.callFor f line false :: after.
Proof.
  induction lines as [| line rest IH]; intros w w' u; [intros _ ? [] |].
  rewrite processTransactions_step.
  intros H ln [<- | Hin] T.
  - rewrite T in H.
    destruct (Actual.api_importTransactions api _ _ _)
      as [[results | e] l]; [| discriminate].
    apply processTransactions_origin in H. destruct H as [cs [Hcs _]].
    cbn [Actual.importCalls] in Hcs.
    exists (Actual.importCalls api w), cs.
    rewrite Hcs, <- app_assoc. reflexivity.
  - destruct (truthy (f (Actual.Json.account line))).
    + destruct (Actual.api_importTransactions api _ _ _)
        as [[results | e] l]; [| discriminate].
      eapply IH; eassumption.
    + eapply IH; eassumption.
Qed.

(** A call of the API other than an import leaves the record of the
    imports alone. *)
Lemma call_keeps_calls {A : Type}
      (op : Actual.Ledger api -> Outcome A * Actual.Ledger api)
      (w : Actual.World api) :
  Actual.importCalls api (snd (Actual.call api op w))
  = Actual.importCalls api w.
Proof.
  unfold Actual.call. destruct (op (Actual.ledger api w)). reflexivity.
Qed.

Lemma cleanUp_keeps_calls (w : Actual.World api) :
  Actual.importCalls api (snd (Actual.cleanUp api w))
  = Actual.importCalls api w.
Proof.
  unfold Actual.cleanUp, Actual.bind.
  pose proof (call_keeps_calls (Actual.api_sync api) w) as H1.
  destruct (Actual.call api (Actual.api_sync api) w) as [[u | e] w1];
    cbn [snd] in *; [| exact H1].
  rewrite call_keeps_calls. exact H1.
Qed.

(** The [try] block, step by step: either it stops before the loop, with
    an exception and no import, or it reaches the loop with the account
    list of the ledger and the ids resolved from it. *)
Lemma syncStep_cases (params : Actual.ActualParams)
      (stdin : list Actual.Json.Line) (w w' : Actual.World api)
      (r : Outcome unit) :
  Actual.syncStep api params stdin w = (r, w') ->
  (exists e, r = Thrown e
             /\ Actual.importCalls api w' = Actual.importCalls api w)
  \/ (exists w1 accounts l l' accountIdMapping,
        Actual.importCalls api w1 = Actual.importCalls api w
        /\ Actual.api_getAccounts api l = (Returned accounts, l')
        /\ Actual.resolveEntries (Actual.accountIds accounts)
             (Actual.accountMapping params) []
           = Returned accountIdMapping
        /\ Actual.processTransactions api
             (fun name => Map_get name accountIdMapping) stdin w1
           = (r, w')).
Proof.
  unfold Actual.syncStep, Actual.bind at 1.
  pose proof (call_keeps_calls
                (Actual.api_init api (Actual.dataDir params)
                   (Actual.serverURL params) (Actual.password params)) w)
    as K0.
  destruct (Actual.call api _ w) as [[u0 | e0] w0]; cbn [snd] in K0.
  2:{ intros H. injection H as <- <-. left. exists e0.
      split; [reflexivity | exact K0]. }
  unfold Actual.bind at 1.
  pose proof (call_keeps_calls
                (Actual.api_downloadBudget api (Actual.syncId params)) w0)
    as K1.
  destruct (Actual.call api _ w0) as [[u1 | e1] w1]; cbn [snd] in K1.
  2:{ intros H. injection H as <- <-. left. exists e1.
      split; [reflexivity | congruence]. }
  unfold Actual.bind at 1, Actual.processAccountMapping, Actual.bind at 1,
    Actual.getAccounts, Actual.bind at 1.
  pose proof (call_keeps_calls (Actual.api_getAccounts api) w1) as K2.
  unfold Actual.call in *.
  destruct (Actual.api_getAccounts api (Actual.ledger api w1))
    as [[accounts | e2] l2] eqn:G; cbn [snd Actual.importCalls] in K2.
  2:{ intros H. injection H as <- <-. left. exists e2.
      split; [reflexivity | cbn; congruence]. }
  cbn [Actual.ret].
  destruct (Actual.resolveEntries (Actual.accountIds accounts)
              (Actual.accountMapping params) []) as [m | e3] eqn:R.
  2:{ unfold Actual.throw. intros H. injection H as <- <-. left. exists e3.
      split; [reflexivity | cbn; congruence]. }
  unfold Actual.ret. intros H. right.
  eexists _, accounts, _, _, m.
  split; [| split; [exact G | split; [exact R | exact H]]].
  cbn. congruence.
Qed.

(** [nodeJsMain] with its parameters: either it ends with status 1 and no
    import, or it reaches the loop, and the status tells how the loop
    ended. *)
Lemma nodeJsMain_cases (params : Actual.ActualParams)
      (stdin : list Actual.Json.Line) (w : Actual.World api) :
  (fst (Actual.nodeJsMain api (Some params) stdin w) = 1
   /\ Actual.importCalls api (snd (Actual.nodeJsMain api (Some params) stdin w))
      = Actual.importCalls api w)
  \/ (exists w1 w2 r accounts l l' accountIdMapping,
        Actual.importCalls api w1 = Actual.importCalls api w
        /\ Actual.api_getAccounts api l = (Returned accounts, l')
        /\ Actual.resolveEntries (Actual.accountIds accounts)
             (Actual.accountMapping params) []
           = Returned accountIdMapping
        /\ Actual.processTransactions api
             (fun name => Map_get name accountIdMapping) stdin w1
           = (r, w2)
        /\ Actual.importCalls api
             (snd (Actual.nodeJsMain api (Some params) stdin w))
           = Actual.importCalls api w2
        /\ fst (Actual.nodeJsMain api (Some params) stdin w)
           = if Actual.hasThrown r then 1 else 0).
Proof.
  unfold Actual.nodeJsMain.
  destruct (Actual.syncStep api params stdin w) as [r w'] eqn:S.
  destruct (syncStep_cases params stdin w w' r S)
    as [[e [-> K]] | [w1 [accounts [l [l' [m [K [G [R P]]]]]]]]].
  - left. cbn [fst snd]. rewrite cleanUp_keeps_calls. auto.
  - right. exists w1, w', r, accounts, l, l', m.
    repeat (split; [assumption |]).
    destruct r; cbn [fst snd Actual.hasThrown];
      [| rewrite cleanUp_keeps_calls]; auto.
Qed.

End Run.

(** ** Resolving the account mapping *)

Lemma accountIds_from (accounts : list Actual.LedgerAccount) :
  forall (m : JsMap string) (k i : string),
    Map_get k (fold_left (fun m a => Map_set (Actual.name a) (Actual.id a) m)
                         accounts m)
    = Some i ->
    (exists a, In a accounts /\ Actual.name a = k /\ Actual.id a = i)
    \/ Map_get k m = Some i.
Proof.
  induction accounts as [| a accounts IH]; intros m k i; cbn [fold_left].
  - auto.
  - intros H. apply IH in H. destruct H as [[b [Hb Hrest]] | H].
    + left. exists b. split; [now right | exact Hrest].
    + destruct (string_dec (Actual.name a) k) as [E | E].
      * subst k. rewrite MapFacts.get_set_same in H. injection H as <-.
        left. exists a. split; [now left | auto].
      * rewrite MapFacts.get_set_other in H by exact E. now right.
Qed.

(** An id that the map of the ledger holds is the id of a listed
    account with that name. *)
Lemma accountIds_listed (accounts : list Actual.LedgerAccount) (k i : string) :
  Map_get k (Actual.accountIds accounts) = Some i ->
  exists a, In a accounts /\ Actual.name a = k /\ Actual.id a = i.
Proof.
  intros H. apply accountIds_from in H. destruct H as [H | H];
    [exact H | discriminate].
Qed.

(** A destination that is not available makes the resolution throw. *)
Lemma resolveEntries_missing (availableAccounts : JsMap string)
      (entries : list (string * string)) (source destination : string) :
  In (source, destination) entries ->
  Map_has destination availableAccounts = false ->
  forall accountIdMapping,
    exists e,
      Actual.resolveEntries availableAccounts entries accountIdMapping
      = Thrown e.
Proof.
  intros Hin Hmiss.
  induction entries as [| [s d] entries IH]; [destruct Hin |].
  intros acc. cbn [Actual.resolveEntries].
  destruct (Map_has d availableAccounts) eqn:E.
  - destruct Hin as [Heq | Hin]; [injection Heq as -> ->; congruence |].
    apply IH, Hin.
  - eexists. reflexivity.
Qed.

(** After a successful resolution every source of the mapping has an id
    taken from the available accounts. *)
Lemma resolveEntries_resolved (availableAccounts : JsMap string)
      (entries : list (string * string)) :
  forall acc m : JsMap string,
    Actual.resolveEntries availableAccounts entries acc = Returned m ->
    forall source,
      Spec.resolved availableAccounts acc source
      \/ In source (map fst entries) ->
      Spec.resolved availableAccounts m source.
Proof.
  induction entries as [| [s d] entries IH]; intros acc m;
    cbn [Actual.resolveEntries].
  - intros H. injection H as <-. intros source [H | []]. exact H.
  - unfold Map_has.
    destruct (Map_get d availableAccounts) as [i |] eqn:E; [| discriminate].
    intros H source Hsource. apply (IH _ _ H).
    destruct (string_dec s source) as [-> | Hne].
    + left. exists i, d. cbn [elementText].
      split; [apply MapFacts.get_set_same | exact E].
    + destruct Hsource as [[j [d' [Hj Hd']]] | [Heq | Hin]].
      * left. exists j, d'.
        split; [now rewrite MapFacts.get_set_other | exact Hd'].
      * cbn in Heq. contradiction.
      * now right.
Qed.

End SyncFacts.

(* ================================================================== *)
(** * The ledger adapter, end to end *)
(* ================================================================== *)

Module TraceFacts.
Import Js.

Lemma filter_filter_implied {A : Type} (p q : A -> bool) (l : list A) :
  (forall x, p x = true -> q x = true) ->
  filter p (filter q l) = filter p l.
Proof.
  intros H. induction l as [| x l IH]; [reflexivity |].
  cbn [filter]. destruct (q x) eqn:Hq; cbn [filter].
  - now rewrite IH.
  - destruct (p x) eqn:Hp; [| exact IH].
    rewrite (H x Hp) in Hq. discriminate.
Qed.

Lemma filter_all {A : Type} (p : A -> bool) (l : list A) :
  (forall x, In x l -> p x = true) -> filter p l = l.
Proof.
  induction l as [| x l IH]; intros H; [reflexivity |].
  cbn [filter]. rewrite (H x) by now left.
  f_equal. apply IH. intros y Hy. apply H. now right.
Qed.

Lemma Forall2_map_right {A B : Type} (R : A -> B -> Prop) (h : A -> B)
      (l : list A) :
  (forall x, In x l -> R x (h x)) -> Forall2 R l (map h l).
Proof.
  induction l as [| x l IH]; intros H; cbn [map]; constructor.
  - apply H. now left.
  - apply IH. intros y Hy. apply H. now right.
Qed.

(** The lines of the standard input: one per key, with the JSON reading
    of the converted transactions of that account. *)
Lemma stdinLines_entries (params : Actual.ActualParams)
      (transactions : list Lib.Transaction) :
  Actual.stdinLines params transactions
  = map (fun k =>
           Actual.Json.mkLine
             k (map Actual.parsedTransaction
                    (map Actual.convertTransaction
                         (filter (Spec.ofAccount k) transactions))))
        (map fst (Actual.emptyGroups
                    (map fst (Actual.accountMapping params)))).
Proof.
  unfold Actual.stdinLines. rewrite GroupFacts.payloads_entries, map_map.
  reflexivity.
Qed.

(** The transactions of accounts that are no key of the mapping do not
    reach the lines. *)
Lemma stdinLines_mapped_only (params : Actual.ActualParams)
      (transactions : list Lib.Transaction) :
  Actual.stdinLines params
    (filter (Shape.mapped (map fst (Actual.accountMapping params)))
            transactions)
  = Actual.stdinLines params transactions.
Proof.
  rewrite !stdinLines_entries. apply map_ext_in. intros k Hk.
  rewrite filter_filter_implied; [reflexivity |].
  intros t Ht. unfold Spec.ofAccount in Ht. apply String.eqb_eq in Ht.
  unfold Shape.mapped. apply existsb_exists. exists k. split.
  - apply GroupFacts.emptyGroups_keys, Hk.
  - rewrite Ht. apply String.eqb_refl.
Qed.

(** ** Resolving the account mapping, entry by entry *)

Lemma resolveEntries_keeps (availableAccounts : JsMap string)
      (entries : list (string * string)) :
  forall (acc m : JsMap string) (k : string),
    Actual.resolveEntries availableAccounts entries acc = Returned m ->
    ~ In k (map fst entries) ->
    Map_get k m = Map_get k acc.
Proof.
  induction entries as [| [s d] entries IH]; intros acc m k H Hout;
    cbn [Actual.resolveEntries] in H.
  - now injection H as <-.
  - destruct (Map_has d availableAccounts); [| discriminate].
    cbn [map fst In] in Hout.
    rewrite (IH _ _ k H) by tauto.
    apply MapFacts.get_set_other. tauto.
Qed.

(** After a successful resolution every source has the id that the
    ledger holds under one of its own destinations. *)
Lemma resolveEntries_source (availableAccounts : JsMap string)
      (entries : list (string * string)) :
  forall acc m : JsMap string,
    Actual.resolveEntries availableAccounts entries acc = Returned m ->
    forall s,
      In s (map fst entries) ->
      exists d i,
        In (s, d) entries
        /\ Map_get d availableAccounts = Some i /\ Map_get s m = Some i.
Proof.
  induction entries as [| [s0 d0] entries IH]; intros acc m H s Hin;
    [destruct Hin |].
  cbn [Actual.resolveEntries] in H. unfold Map_has in H.
  destruct (Map_get d0 availableAccounts) as [i0 |] eqn:E; [| discriminate].
  cbn [elementText] in H.
  destruct (in_dec string_dec s (map fst entries)) as [Hlater | Hlast].
  - destruct (IH _ _ H s Hlater) as [d [i [Hd Hi]]].
    exists d, i. split; [now right | exact Hi].
  - destruct Hin as [Heq | Hin]; [| contradiction].
    cbn [fst] in Heq. subst s0. exists d0, i0.
    split; [now left |]. split; [exact E |].
    rewrite (resolveEntries_keeps _ _ _ _ s H Hlast).
    apply MapFacts.get_set_same.
Qed.

Lemma resolveEntries_returns (availableAccounts : JsMap string)
      (entries : list (string * string)) :
  Forall (fun e => Map_has (snd e) availableAccounts = true) entries ->
  forall acc, exists m,
    Actual.resolveEntries availableAccounts entries acc = Returned m.
Proof.
  induction 1 as [| [s d] entries Hd _ IH]; intros acc;
    cbn [Actual.resolveEntries].
  - now exists acc.
  - cbn [snd] in Hd. rewrite Hd. apply IH.
Qed.

Lemma accountIds_has (accounts : list Actual.LedgerAccount) (d : string) :
  In d (map Actual.name accounts) ->
  Map_has d (Actual.accountIds accounts) = true.
Proof.
  intros Hin. apply in_map_iff in Hin. destruct Hin as [a [Hname Hin]].
  apply in_split in Hin. destruct Hin as [before [after ->]].
  unfold Actual.accountIds. rewrite fold_left_app.
  assert (Hgrow : forall l (m : JsMap string),
             Map_has d m = true ->
             Map_has d
               (fold_left
                  (fun m a => Map_set (Actual.name a) (Actual.id a) m) l m)
             = true).
  { induction l as [| b l IHl]; intros m Hm; [exact Hm |].
    cbn [fold_left]. apply IHl. apply MapFacts.has_true_key.
    apply MapFacts.set_In_key. right. now apply MapFacts.has_true_key. }
  cbn [fold_left]. apply Hgrow. apply MapFacts.has_true_key.
  apply MapFacts.set_In_key. now left.
Qed.

Lemma resolveEntries_listed (accounts : list Actual.LedgerAccount)
      (entries : list (string * string)) :
  Forall (fun e => In (snd e) (map Actual.name accounts)) entries ->
  exists m,
    Actual.resolveEntries (Actual.accountIds accounts) entries []
    = Returned m.
Proof.
  intros H. apply resolveEntries_returns.
  eapply Forall_impl; [| exact H]. intros e He. apply accountIds_has, He.
Qed.

Section Run.
Variable api : Actual.Api.

(** ** The [try] block along the calls that it makes *)

Lemma syncStep_trace (params : Actual.ActualParams)
      (stdin : list Actual.Json.Line) (l l1 l2 l3 : Actual.Ledger api)
      (u1 u2 : unit) (accounts : list Actual.LedgerAccount) :
  Actual.api_init api (Actual.dataDir params) (Actual.serverURL params)
                  (Actual.password params) l
  = (Returned u1, l1) ->
  Actual.api_downloadBudget api (Actual.syncId params) l1
  = (Returned u2, l2) ->
  Actual.api_getAccounts api l2 = (Returned accounts, l3) ->
  Actual.syncStep api params stdin (Actual.start api l)
  = match Actual.resolveEntries (Actual.accountIds accounts)
            (Actual.accountMapping params) [] with
    | Returned m =>
        Actual.processTransactions api (fun name => Map_get name m) stdin
          (Actual.mkWorld api l3 [] [])
    | Thrown e => (Thrown e, Actual.mkWorld api l3 [] [])
    end.
Proof.
  intros Hinit Hdl Hacc.
  unfold Actual.syncStep, Actual.bind, Actual.call, Actual.start,
    Actual.processAccountMapping, Actual.getAccounts, Actual.bind,
    Actual.call, Actual.ret, Actual.throw.
  cbn [Actual.ledger Actual.importCalls Actual.console].
  rewrite Hinit. cbn [Actual.ledger Actual.importCalls Actual.console].
  rewrite Hdl. cbn [Actual.ledger Actual.importCalls Actual.console].
  rewrite Hacc.
  destruct (Actual.resolveEntries (Actual.accountIds accounts)
              (Actual.accountMapping params) []); reflexivity.
Qed.

(** Either the [try] block throws before the loop, without any import,
    or it reaches the loop along three calls that returned, with the ids
    resolved from the accounts that the ledger listed. *)
Lemma syncStep_reaches_loop (params : Actual.ActualParams)
      (stdin : list Actual.Json.Line) (l : Actual.Ledger api) :
  (exists e w',
      Actual.syncStep api params stdin (Actual.start api l) = (Thrown e, w')
      /\ Actual.importCalls api w' = [])
  \/ (exists u1 l1 u2 l2 accounts l3 m,
        Actual.api_init api (Actual.dataDir params) (Actual.serverURL params)
                        (Actual.password params) l
        = (Returned u1, l1)
        /\ Actual.api_downloadBudget api (Actual.syncId params) l1
           = (Returned u2, l2)
        /\ Actual.api_getAccounts api l2 = (Returned accounts, l3)
        /\ Actual.resolveEntries (Actual.accountIds accounts)
             (Actual.accountMapping params) []
           = Returned m
        /\ Actual.syncStep api params stdin (Actual.start api l)
           = Actual.processTransactions api (fun name => Map_get name m)
               stdin (Actual.mkWorld api l3 [] [])).
Proof.
  destruct (Actual.api_init api (Actual.dataDir params)
              (Actual.serverURL params) (Actual.password params) l)
    as [[u1 | e] l1] eqn:Hinit.
  2:{ left. exists e, (Actual.mkWorld api l1 [] []).
      unfold Actual.syncStep, Actual.bind, Actual.call, Actual.start.
      cbn [Actual.ledger Actual.importCalls Actual.console].
      rewrite Hinit. split; reflexivity. }
  destruct (Actual.api_downloadBudget api (Actual.syncId params) l1)
    as [[u2 | e] l2] eqn:Hdl.
  2:{ left. exists e, (Actual.mkWorld api l2 [] []).
      unfold Actual.syncStep, Actual.bind, Actual.call, Actual.start.
      cbn [Actual.ledger Actual.importCalls Actual.console].
      rewrite Hinit. cbn [Actual.ledger Actual.importCalls Actual.console].
      rewrite Hdl. split; reflexivity. }
  destruct (Actual.api_getAccounts api l2) as [[accounts | e] l3] eqn:Hacc.
  2:{ left. exists e, (Actual.mkWorld api l3 [] []).
      unfold Actual.syncStep, Actual.bind, Actual.call, Actual.start,
        Actual.processAccountMapping, Actual.getAccounts, Actual.bind,
        Actual.call.
      cbn [Actual.ledger Actual.importCalls Actual.console].
      rewrite Hinit. cbn [Actual.ledger Actual.importCalls Actual.console].
      rewrite Hdl. cbn [Actual.ledger Actual.importCalls Actual.console].
      rewrite Hacc. split; reflexivity. }
  rewrite (syncStep_trace params stdin l l1 l2 l3 u1 u2 accounts
             Hinit Hdl Hacc).
  destruct (Actual.resolveEntries (Actual.accountIds accounts)
              (Actual.accountMapping params) []) as [m | e] eqn:Hm.
  - right. exists u1, l1, u2, l2, accounts, l3, m. repeat split; trivial.
  - left. exists e, (Actual.mkWorld api l3 [] []). split; reflexivity.
Qed.

(** ** The loop and the lines that have an id

    The calls of the loop are the calls for a leading part of the lines
    whose account has a truthy id, in their order: all of them after a
    normal end, and after an exception those up to the line whose call
    threw. *)
Lemma processTransactions_prefix (f : string -> option string)
      (lines : list Actual.Json.Line) :
  forall (w w' : Actual.World api) (r : Outcome unit),
    Actual.processTransactions api f lines w = (r, w') ->
    exists done rest,
      filter (fun line => truthy (f (Actual.Json.account line))) lines
      = done ++ rest
      /\ match r with
         | Returned _ =>
             rest = []
             /\ Actual.importCalls api w'
                = Actual.importCalls api w
                  ++ map (fun line => Spec.callFor f line false) done
         | Thrown _ =>
             exists done' last,
               done = done' ++ [last]
               /\ Actual.importCalls api w'
                  = Actual.importCalls api w
                    ++ map (fun line => Spec.callFor f line false) done'
                    ++ [Spec.callFor f last true]
         end.
Proof.
  induction lines as [| line lines IH]; intros w w' r H.
  - cbn in H. injection H as <- <-. exists [], [].
    split; [reflexivity |]. split; [reflexivity |].
    cbn. now rewrite app_nil_r.
  - rewrite SyncFacts.processTransactions_step in H. cbn [filter].
    destruct (truthy (f (Actual.Json.account line))) eqn:Ht.
    + destruct (Actual.api_importTransactions api _ _ _)
        as [[results | e] l0].
      * apply IH in H. destruct H as [done [rest [Hsplit Hr]]].
        exists (line :: done), rest. split; [cbn; now rewrite Hsplit |].
        cbn [Actual.importCalls] in Hr.
        destruct r as [u | e].
        -- destruct Hr as [-> Hcalls]. split; [reflexivity |].
           rewrite Hcalls, <- app_assoc. reflexivity.
        -- destruct Hr as [done' [last [-> Hcalls]]].
           exists (line :: done'), last. split; [reflexivity |].
           rewrite Hcalls, <- app_assoc. reflexivity.
      * injection H as <- <-.
        exists [line],
          (filter (fun line => truthy (f (Actual.Json.account line)))
                  lines).
        split; [reflexivity |]. exists [], line.
        split; reflexivity.
    + apply IH, H.
Qed.

(** The line at a given place has its call as soon as its account has a
    truthy id and no call for a line before it threw; what happens
    after it does not matter. *)
Lemma processTransactions_reaches (f : string -> option string)
      (before : list Actual.Json.Line) (line : Actual.Json.Line)
      (after : list Actual.Json.Line) :
  truthy (f (Actual.Json.account line)) = true ->
  forall (w w' : Actual.World api) (r : Outcome unit)
         (cs : list Actual.ImportCall),
    Actual.processTransactions api f (before ++ line :: after) w = (r, w') ->
    Actual.importCalls api w' = Actual.importCalls api w ++ cs ->
    (forall c,
        In c cs -> Actual.rejected c = true ->
        ~ In (Actual.forAccount c) (map Actual.Json.account before)) ->
    exists threw, In (Spec.callFor f line threw) cs.
Proof.
  intros Ht. induction before as [| h before IH]; intros w w' r cs H Hcs Hok.
  - cbn [app] in H. rewrite SyncFacts.processTransactions_step, Ht in H.
    destruct (Actual.api_importTransactions api _ _ _)
      as [[results | e] l0].
    + apply SyncFacts.processTransactions_origin in H.
      destruct H as [cs1 [H1 _]]. cbn [Actual.importCalls] in H1.
      rewrite H1, <- app_assoc in Hcs. apply app_inv_head in Hcs.
      exists false. rewrite <- Hcs. now left.
    + injection H as _ <-. cbn [Actual.importCalls] in Hcs.
      apply app_inv_head in Hcs. exists true. rewrite <- Hcs. now left.
  - cbn [app] in H. rewrite SyncFacts.processTransactions_step in H.
    destruct (truthy (f (Actual.Json.account h))) eqn:Hh.
    + destruct (Actual.api_importTransactions api _ _ _)
        as [[results | e] l0].
      * pose proof H as Horigin.
        apply SyncFacts.processTransactions_origin in Horigin.
        destruct Horigin as [cs1 [H1 _]]. cbn [Actual.importCalls] in H1.
        pose proof Hcs as Hcs'.
        rewrite H1, <- app_assoc in Hcs'. apply app_inv_head in Hcs'.
        destruct (IH _ _ _ cs1 H) as [threw Hin].
        -- rewrite H1. reflexivity.
        -- intros c Hc Hrej Hbefore. apply (Hok c); trivial.
           ++ rewrite <- Hcs'. now right.
           ++ cbn [map]. now right.
        -- exists threw. rewrite <- Hcs'. now right.
      * exfalso. injection H as _ <-. cbn [Actual.importCalls] in Hcs.
        apply app_inv_head in Hcs.
        apply (Hok (Spec.callFor f h true)).
        -- rewrite <- Hcs. now left.
        -- reflexivity.
        -- cbn [map Spec.callFor Actual.forAccount]. now left.
    + exact (IH _ _ _ cs H Hcs (fun c Hc Hrej Hbefore =>
                                  Hok c Hc Hrej (or_intror Hbefore))).
Qed.

(** ** The run as [importTransactions] sees it *)

Lemma importTransactions_of_loop (params : Actual.ActualParams)
      (transactions : list Lib.Transaction) (l : Actual.Ledger api)
      (r : Outcome unit) (w' : Actual.World api) :
  Actual.syncStep api params (Actual.stdinLines params transactions)
                  (Actual.start api l)
  = (r, w') ->
  fst (Actual.importTransactions api params transactions (Actual.start api l))
  = negb (Actual.hasThrown r)
  /\ Actual.importCalls api
       (snd (Actual.importTransactions api params transactions
                                       (Actual.start api l)))
     = Actual.importCalls api w'.
Proof.
  intros H. unfold Actual.importTransactions, Actual.nodeJsMain.
  rewrite H. destruct r as [u | e]; cbn [fst snd Actual.hasThrown negb].
  - split; reflexivity.
  - split; [reflexivity | apply SyncFacts.cleanUp_keeps_calls].
Qed.

(** Either the run fails before the loop, without any import, or it
    reaches the loop: then its calls are those of the loop, and it
    reports success exactly when the loop ends without an exception. *)
Lemma importTransactions_log (params : Actual.ActualParams)
      (transactions : list Lib.Transaction) (l : Actual.Ledger api) :
  (fst (Actual.importTransactions api params transactions
                                  (Actual.start api l))
   = false
   /\ Actual.importCalls api
        (snd (Actual.importTransactions api params transactions
                                        (Actual.start api l)))
      = [])
  \/ (exists u1 l1 u2 l2 accounts l3 m r w',
        Actual.api_init api (Actual.dataDir params) (Actual.serverURL params)
                        (Actual.password params) l
        = (Returned u1, l1)
        /\ Actual.api_downloadBudget api (Actual.syncId params) l1
           = (Returned u2, l2)
        /\ Actual.api_getAccounts api l2 = (Returned accounts, l3)
        /\ Actual.resolveEntries (Actual.accountIds accounts)
             (Actual.accountMapping params) []
           = Returned m
        /\ Actual.processTransactions api (fun name => Map_get name m)
             (Actual.stdinLines params transactions)
             (Actual.mkWorld api l3 [] [])
           = (r, w')
        /\ fst (Actual.importTransactions api params transactions
                                          (Actual.start api l))
           = negb (Actual.hasThrown r)
        /\ Actual.importCalls api
             (snd (Actual.importTransactions api params transactions
                                             (Actual.start api l)))
           = Actual.importCalls api w').
Proof.
  destruct (syncStep_reaches_loop params
              (Actual.stdinLines params transactions) l)
    as [[e [w' [H Hcalls]]]
       | [u1 [l1 [u2 [l2 [accounts [l3 [m [Hi [Hd [Ha [Hm H]]]]]]]]]]]].
  - left. destruct (importTransactions_of_loop _ _ _ _ _ H) as [-> ->].
    split; [reflexivity | exact Hcalls].
  - right.
    destruct (Actual.processTransactions api (fun name => Map_get name m)
                (Actual.stdinLines params transactions)
                (Actual.mkWorld api l3 [] [])) as [r w'] eqn:P.
    destruct (importTransactions_of_loop _ _ _ _ _ H) as [Hfst Hsnd].
    exists u1, l1, u2, l2, accounts, l3, m, r, w'.
    repeat split; trivial.
Qed.
End Run.

End TraceFacts.

(* ================================================================== *)
(** * The claims about the ledger import *)
(* ================================================================== *)

Module LedgerFacts.
Import Js.

Lemma rejected_is_last (cs' before after : list Actual.ImportCall)
      (c c0 : Actual.ImportCall) :
  Forall (fun c => Actual.rejected c = false) cs' ->
  Actual.rejected c = true ->
  before ++ c :: after = cs' ++ [c0] ->
  after = [].
Proof.
  intros Hall Hc Heq.
  destruct after as [| z after]; [reflexivity | exfalso].
  destruct (@exists_last _ (z :: after)) as [after' [y Hy]]; [discriminate |].
  rewrite Hy in Heq.
  change (before ++ c :: after' ++ [y])
    with (before ++ (c :: after') ++ [y]) in Heq.
  rewrite app_assoc in Heq. apply app_inj_tail in Heq.
  destruct Heq as [<- _].
  rewrite Forall_forall in Hall.
  specialize (Hall c). rewrite Hall in Hc; [discriminate |].
  apply in_or_app. right. now left.
Qed.

Lemma filter_none {A : Type} (f : A -> bool) (l : list A) :
  (forall x, In x l -> f x = false) -> filter f l = [].
Proof.
  induction l as [| x l IH]; intros H; cbn; [reflexivity |].
  rewrite (H x) by now left. apply IH. intros y Hy. apply H. now right.
Qed.

(** C2, as stated, fails when the ledger rejects the first account: with
    the two mapped accounts [DBS Savings] and [Citi 1234] and a ledger that
    throws on every import for [Checking], the only call made is the one
    for [DBS Savings]; no import is attempted for [Citi 1234]. *)
Lemma import_failure_leaves_later_account_out :
  let run :=
    Actual.importTransactions Scenario.rejectingChecking Scenario.params
      [Scenario.salary; Scenario.coffee]
      (Actual.start Scenario.rejectingChecking tt) in
  map fst (Actual.accountMapping Scenario.params)
  = ["DBS Savings"; "Citi 1234"]
  /\ map (fun c => (Actual.forAccount c, Actual.rejected c))
         (Actual.importCalls _ (snd run))
     = [("DBS Savings", true)]
  /\ ~ In "Citi 1234" (map Actual.forAccount (Actual.importCalls _ (snd run)))
  /\ fst run = false.
Proof.
  cbv zeta. split; [reflexivity |]. split; [vm_compute; reflexivity |].
  split; [| vm_compute; reflexivity].
  vm_compute. intros [H | []]. discriminate H.
Qed.

(** C2, amended: a submission failure (an import call that throws) ends
    the run: in the record of the calls of any run nothing comes after a
    call that threw, so the accounts whose payloads follow are not
    attempted; and whenever a call threw, the run reports failure. *)
Theorem import_failure_ends_the_run :
  forall (api : Actual.Api) (params : Actual.ActualParams)
         (transactions : list Lib.Transaction) (l : Actual.Ledger api),
    let run :=
      Actual.importTransactions api params transactions (Actual.start api l)
    in
    (forall before c after,
       Actual.importCalls api (snd run) = before ++ c :: after ->
       Actual.rejected c = true -> after = [])
    /\ (forall c,
          In c (Actual.importCalls api (snd run)) ->
          Actual.rejected c = true -> fst run = false).
Proof.
  intros api params transactions l. cbv zeta.
  unfold Actual.importTransactions.
  set (stdin := Actual.stdinLines params transactions).
  destruct (Actual.nodeJsMain api (Some params) stdin (Actual.start api l))
    as [code w'] eqn:N.
  pose proof (SyncFacts.nodeJsMain_cases api params stdin (Actual.start api l))
    as Hcases.
  rewrite N in Hcases. cbn [fst snd] in *.
  destruct Hcases
    as [[-> K] | [w1 [w2 [r [accounts [l0 [l1 [m [K [_ [_ [P [K' C]]]]]]]]]]]]].
  - cbn [Actual.start Actual.importCalls] in K. rewrite K. split.
    + intros before c after H. now destruct before.
    + intros c [].
  - apply SyncFacts.processTransactions_stop in P.
    destruct P as [cs [Hcs Hend]].
    rewrite K in Hcs. cbn [Actual.start Actual.importCalls app] in Hcs.
    rewrite K', Hcs. subst code.
    destruct r as [u | e]; cbn [Actual.hasThrown].
    + rewrite Forall_forall in Hend. split.
      * intros before c after H Hc.
        rewrite (Hend c) in Hc; [discriminate |].
        rewrite H. apply in_or_app. right. now left.
      * intros c Hin Hc. rewrite (Hend c Hin) in Hc. discriminate.
    + destruct Hend as [cs' [c0 [-> [Hc0 Hall]]]]. split.
      * intros before c after H Hc. symmetry in H.
        eapply rejected_is_last; eassumption.
      * reflexivity.
Qed.

(** The hypotheses of C2 hold in the run against the ledger that rejects
    [Checking]: a call threw and the run reports failure. *)
Lemma import_failure_ends_the_run_witness :
  fst (Actual.importTransactions Scenario.rejectingChecking Scenario.params
         [Scenario.salary; Scenario.coffee]
         (Actual.start Scenario.rejectingChecking tt))
  = false.
Proof.
  refine (proj2 (import_failure_ends_the_run Scenario.rejectingChecking
                   Scenario.params [Scenario.salary; Scenario.coffee] tt)
                (Actual.mkImportCall "DBS Savings" "id-checking"
                   [Actual.parsedTransaction
                      (Actual.convertTransaction Scenario.salary)] true)
                _ _).
  - vm_compute. left. reflexivity.
  - reflexivity.
Defined.

(** C4: when a destination of the account mapping is not among the
    accounts that the ledger lists, [nodeJsMain] ends with status 1 and the
    record of the import calls is as it was before; [importTransactions]
    then reports failure without a single import call. *)
Theorem missing_destination_aborts_before_any_import :
  forall (api : Actual.Api) (params : Actual.ActualParams)
         (source destination : string),
    In (source, destination) (Actual.accountMapping params) ->
    (forall l accounts l',
       Actual.api_getAccounts api l = (Returned accounts, l') ->
       ~ In destination (map Actual.name accounts)) ->
    (forall stdin w,
       fst (Actual.nodeJsMain api (Some params) stdin w) = 1
       /\ Actual.importCalls api
            (snd (Actual.nodeJsMain api (Some params) stdin w))
          = Actual.importCalls api w)
    /\ (forall transactions l,
          fst (Actual.importTransactions api params transactions
                                         (Actual.start api l))
          = false
          /\ Actual.importCalls api
               (snd (Actual.importTransactions api params transactions
                                               (Actual.start api l)))
             = []).
Proof.
  intros api params source destination Hin Hmissing.
  assert (Hmain : forall stdin w,
             fst (Actual.nodeJsMain api (Some params) stdin w) = 1
             /\ Actual.importCalls api
                  (snd (Actual.nodeJsMain api (Some params) stdin w))
                = Actual.importCalls api w).
  { intros stdin w.
    destruct (SyncFacts.nodeJsMain_cases api params stdin w)
      as [H | [w1 [w2 [r [accounts [l0 [l1 [m [_ [G [R _]]]]]]]]]]];
      [exact H | exfalso].
    destruct (SyncFacts.resolveEntries_missing
                (Actual.accountIds accounts) (Actual.accountMapping params)
                source destination Hin)
      with (accountIdMapping := @nil (string * string)) as [e He].
    - destruct (Map_has destination (Actual.accountIds accounts)) eqn:E;
        [| reflexivity].
      unfold Map_has in E.
      destruct (Map_get destination (Actual.accountIds accounts))
        as [i |] eqn:E'; [| discriminate].
      apply SyncFacts.accountIds_listed in E'.
      destruct E' as [a [Ha [Hname _]]].
      elim (Hmissing _ _ _ G). rewrite <- Hname. now apply in_map.
    - congruence. }
  split; [exact Hmain |].
  intros transactions l. unfold Actual.importTransactions.
  destruct (Hmain (Actual.stdinLines params transactions)
                  (Actual.start api l))
    as [Hcode Hcalls].
  destruct (Actual.nodeJsMain api (Some params)
              (Actual.stdinLines params transactions) (Actual.start api l))
    as [code w']. cbn [fst snd] in *. subst code.
  split; [reflexivity | exact Hcalls].
Qed.

(** The hypotheses of C4 hold for the ledger without the account [Card]:
    the run ends with status 1. *)
Lemma missing_destination_aborts_before_any_import_witness :
  fst (Actual.nodeJsMain Scenario.withoutCard (Some Scenario.params)
         (Actual.stdinLines Scenario.params [Scenario.coffee])
         (Actual.start Scenario.withoutCard tt))
  = 1.
Proof.
  refine (proj1 (proj1 (missing_destination_aborts_before_any_import
                          Scenario.withoutCard Scenario.params
                          "Citi 1234" "Card" _ _)
                       (Actual.stdinLines Scenario.params [Scenario.coffee])
                       (Actual.start Scenario.withoutCard tt))).
  - right. left. reflexivity.
  - intros l accounts l' H. injection H as <- _.
    intros [H | []]. discriminate H.
Defined.

(** C9, as stated, fails when the run ends early: the purchase belongs to
    [Citi 1234], a key of the account mapping, and its payload is
    written, but the ledger rejects the import for [DBS Savings], which
    comes first; the only payload submitted is the one for [DBS Savings],
    and the purchase is in no payload that reaches the ledger. *)
Lemma mapped_transaction_not_submitted_after_failure :
  let run :=
    Actual.importTransactions Scenario.rejectingChecking Scenario.params
      [Scenario.salary; Scenario.coffee]
      (Actual.start Scenario.rejectingChecking tt) in
  In (Lib.account Scenario.coffee)
     (map fst (Actual.accountMapping Scenario.params))
  /\ In (Actual.mkActualAccountTransactions
           "Citi 1234" [Actual.convertTransaction Scenario.coffee])
        (Actual.payloads Scenario.params [Scenario.salary; Scenario.coffee])
  /\ map Actual.forAccount (Actual.importCalls _ (snd run))
     = ["DBS Savings"]
  /\ (forall c,
        In c (Actual.importCalls _ (snd run)) ->
        ~ In (Actual.parsedTransaction
                (Actual.convertTransaction Scenario.coffee))
             (Actual.records c)).
Proof.
  cbv zeta. split; [right; left; reflexivity |].
  split; [right; left; reflexivity |].
  split; [vm_compute; reflexivity |].
  intros c Hc. vm_compute in Hc. destruct Hc as [<- | []].
  vm_compute. intros [H | []]. discriminate H.
Qed.

(** C9, amended: the payloads are one per key of the account mapping,
    and each holds the converted transactions of its account, in their
    order; the groups together hold exactly the transactions whose
    account is a key.  A transaction of an unmapped account is passed
    over without an error: the run is the run on the batch without such
    transactions.  What reaches the ledger is the JSON reading of the
    payloads: every import call of a run is for a key and carries the
    JSON reading of the converted transactions of that account; a run
    that fails before the loop makes no call; otherwise the calls are, in
    order, those for a leading part of the lines whose account has an id
    that is not empty, all of them when the run reports success, and
    those up to the call that threw when it reports failure.  Every
    transaction of the batch, mapped or not, has its row in the combined
    export. *)
Theorem payloads_hold_exactly_the_mapped_transactions :
  forall (params : Actual.ActualParams) (outputs : list Lib.DriverOutput),
    let transactions := flat_map Lib.transactions outputs in
    let keys := map fst (Actual.accountMapping params) in
    let sent := Actual.payloads params transactions in
    NoDup (map Actual.account sent)
    /\ (forall a, In a (map Actual.account sent) <-> In a keys)
    /\ (forall p,
          In p sent ->
          Actual.transactions p
          = map Actual.convertTransaction
                (filter (Spec.ofAccount (Actual.account p)) transactions))
    /\ (forall t,
          In t (List.concat (map snd (Actual.groupTransactionsByAccount
                                   keys transactions)))
          <-> In t transactions /\ In (Lib.account t) keys)
    /\ (forall (api : Actual.Api) (l : Actual.Ledger api),
          let run :=
            Actual.importTransactions api params transactions
                                      (Actual.start api l) in
          let calls := Actual.importCalls api (snd run) in
          Actual.importTransactions api params
            (filter (Shape.mapped keys) transactions) (Actual.start api l)
          = run
          /\ (forall c,
                In c calls ->
                In (Actual.forAccount c) keys
                /\ Actual.records c
                   = map Actual.parsedTransaction
                       (map Actual.convertTransaction
                            (filter (Spec.ofAccount (Actual.forAccount c))
                                    transactions)))
          /\ ((fst run = false /\ calls = [])
              \/ exists u1 l1 u2 l2 accounts l3 m done rest,
                   Actual.api_init api (Actual.dataDir params)
                     (Actual.serverURL params) (Actual.password params) l
                   = (Returned u1, l1)
                   /\ Actual.api_downloadBudget api (Actual.syncId params) l1
                      = (Returned u2, l2)
                   /\ Actual.api_getAccounts api l2 = (Returned accounts, l3)
                   /\ Actual.resolveEntries (Actual.accountIds accounts)
                        (Actual.accountMapping params) []
                      = Returned m
                   /\ filter (Shape.hasId m) (map Actual.parsedLine sent)
                      = done ++ rest
                   /\ Forall2
                        (fun line c =>
                           Actual.forAccount c = Actual.Json.account line
                           /\ Actual.accountId c
                              = elementText
                                  (Map_get (Actual.Json.account line) m)
                           /\ Actual.records c
                              = Actual.Json.transactions line)
                        done calls
                   /\ (fst run = true ->
                       rest = []
                       /\ Forall (fun c => Actual.rejected c = false) calls)
                   /\ (fst run = false ->
                       exists calls' c,
                         calls = calls' ++ [c]
                         /\ Actual.rejected c = true
                         /\ Forall (fun c => Actual.rejected c = false)
                                   calls')))
    /\ (forall t,
          In t transactions ->
          exists rows row,
            Main.writeCombinedOutput outputs = Some rows
            /\ In row rows
            /\ Main.rowDate row = Temporal.toString (Lib.date t)
            /\ Main.rowDescription row = Lib.description t
            /\ Main.rowAmount row = Lib.amount t
            /\ Main.rowAccount row = Lib.account t
            /\ Main.rowStatus row
               = (if Lib.isPending t then "pending" else "cleared")).
Proof.
  intros params outputs transactions keys sent.
  destruct (GroupFacts.emptyGroups_keys keys) as [Hnd Hkeys].
  assert (Hsent : sent
                  = map (fun k =>
                           Actual.mkActualAccountTransactions
                             k (map Actual.convertTransaction
                                    (filter (Spec.ofAccount k) transactions)))
                        (map fst (Actual.emptyGroups keys))).
  { apply GroupFacts.payloads_entries. }
  assert (Hacc : map Actual.account sent = map fst (Actual.emptyGroups keys)).
  { rewrite Hsent, map_map. cbn [Actual.account]. apply map_id. }
  split; [rewrite Hacc; exact Hnd |].
  split; [intros a; rewrite Hacc; apply Hkeys |].
  split.
  { intros p Hp. rewrite Hsent in Hp. apply in_map_iff in Hp.
    destruct Hp as [k [<- _]]. reflexivity. }
  split.
  { intros t. rewrite GroupFacts.groupTransactionsByAccount_entries.
    rewrite map_map. cbn [snd]. rewrite in_concat. split.
    - intros [g [Hg Ht]]. apply in_map_iff in Hg. destruct Hg as [k [<- Hk]].
      apply filter_In in Ht. destruct Ht as [Ht Hof].
      apply String.eqb_eq in Hof. split; [exact Ht |].
      rewrite Hof. apply Hkeys, Hk.
    - intros [Ht Hk].
      exists (filter (Spec.ofAccount (Lib.account t)) transactions).
      split.
      + apply in_map_iff. exists (Lib.account t). split; [reflexivity |].
        apply Hkeys, Hk.
      + apply filter_In. split; [exact Ht | apply String.eqb_refl]. }
  split.
  { intros api l. cbv zeta. split.
    { pose proof (TraceFacts.stdinLines_mapped_only params transactions)
        as E.
      fold keys in E. unfold Actual.importTransactions. now rewrite E. }
    assert (Hline : forall line,
               In line (Actual.stdinLines params transactions) ->
               In (Actual.Json.account line) keys
               /\ Actual.Json.transactions line
                  = map Actual.parsedTransaction
                      (map Actual.convertTransaction
                           (filter (Spec.ofAccount (Actual.Json.account line))
                                   transactions))).
    { intros line Hin. rewrite TraceFacts.stdinLines_entries in Hin.
      apply in_map_iff in Hin. destruct Hin as [k [<- Hk]].
      cbn [Actual.Json.account Actual.Json.transactions].
      split; [apply Hkeys, Hk | reflexivity]. }
    destruct (TraceFacts.importTransactions_log api params transactions l)
      as [[Hfst Hcalls]
         | [u1 [l1 [u2 [l2 [accounts [l3 [m [r [w'
             [Hi [Hd [Ha [Hm [P [Hfst Hcalls]]]]]]]]]]]]]]]].
    - rewrite Hcalls. split; [intros c [] |]. left. now split.
    - rewrite Hcalls, Hfst. split.
      + intros c Hc.
        destruct (SyncFacts.processTransactions_origin api _ _ _ _ _ P)
          as [cs [Hcs Hall]].
        cbn [Actual.importCalls app] in Hcs. rewrite Hcs in Hc.
        rewrite Forall_forall in Hall.
        destruct (Hall c Hc) as [line [threw [Hin [_ ->]]]].
        cbn [Spec.callFor Actual.forAccount Actual.records].
        apply Hline, Hin.
      + right.
        destruct (TraceFacts.processTransactions_prefix api _ _ _ _ _ P)
          as [done [rest [Hsplit Hr]]].
        cbn [Actual.importCalls app] in Hr.
        assert (Hmap : forall threw (ls : list Actual.Json.Line),
                   Forall2
                     (fun line c =>
                        Actual.forAccount c = Actual.Json.account line
                        /\ Actual.accountId c
                           = elementText
                               (Map_get (Actual.Json.account line) m)
                        /\ Actual.records c = Actual.Json.transactions line)
                     ls
                     (map (fun line =>
                             Spec.callFor (fun name => Map_get name m)
                                          line threw) ls)).
        { intros threw ls. apply TraceFacts.Forall2_map_right.
          intros line _. repeat split. }
        exists u1, l1, u2, l2, accounts, l3, m, done, rest.
        split; [exact Hi |]. split; [exact Hd |]. split; [exact Ha |].
        split; [exact Hm |]. split; [exact Hsplit |].
        destruct r as [u | e]; cbn [Actual.hasThrown negb].
        * destruct Hr as [-> ->]. split; [apply Hmap |].
          split; [| discriminate]. intros _. split; [reflexivity |].
          apply Forall_forall. intros c Hc. apply in_map_iff in Hc.
          destruct Hc as [line [<- _]]. reflexivity.
        * destruct Hr as [done' [last [-> ->]]]. split.
          -- apply Forall2_app; [apply Hmap |].
             apply (Hmap true [last]).
          -- split; [discriminate |]. intros _.
             eexists _, _. split; [reflexivity |].
             split; [reflexivity |].
             apply Forall_forall. intros c Hc. apply in_map_iff in Hc.
             destruct Hc as [line [<- _]]. reflexivity. }
  intros t Ht.
  exists (map Main.combinedRow (Main.combinedTransactions outputs)),
    (Main.combinedRow t).
  split.
  - apply ExportFacts.writeCombinedOutput_rows.
    fold transactions. intros E. rewrite E in Ht. destruct Ht.
  - split; [| repeat split].
    apply in_map.
    eapply Permutation_in; [apply ExportFacts.combinedTransactions_perm |].
    exact Ht.
Qed.

(** C10, as stated, fails when the run ends early: [Citi 1234] is a key
    of the mapping without a transaction in the batch and its payload is
    written with an empty list, but the ledger rejects the import for
    [DBS Savings], which comes first, and no import call is made for
    [Citi 1234]. *)
Lemma empty_payload_not_imported_after_failure :
  let run :=
    Actual.importTransactions Scenario.rejectingChecking Scenario.params
      [Scenario.salary] (Actual.start Scenario.rejectingChecking tt) in
  In "Citi 1234" (map fst (Actual.accountMapping Scenario.params))
  /\ filter (Spec.ofAccount "Citi 1234") [Scenario.salary] = []
  /\ In (Actual.mkActualAccountTransactions "Citi 1234" [])
        (Actual.payloads Scenario.params [Scenario.salary])
  /\ ~ In "Citi 1234" (map Actual.forAccount (Actual.importCalls _ (snd run))).
Proof.
  cbv zeta. split; [right; left; reflexivity |].
  split; [reflexivity |]. split; [right; left; reflexivity |].
  vm_compute. intros [H | []]. discriminate H.
Qed.

(** C10, amended: for every key of the account mapping to which no
    transaction of the batch belongs, a payload with an empty list is
    produced and written as a line of its own, whatever the ledger does.
    The import call with the empty list is made for that account as soon
    as the run reaches its line: [api.init], [api.downloadBudget] and
    [api.getAccounts] return, every destination of the mapping is among
    the accounts listed, the listed accounts that the key is mapped to
    have an id that is not empty, and no import call for a line before
    that of the key throws.  The call goes to the id of such an account;
    a call that throws later does not undo it. *)
Theorem empty_payload_is_imported :
  forall (api : Actual.Api) (params : Actual.ActualParams)
         (transactions : list Lib.Transaction) (l : Actual.Ledger api)
         (a : string),
    In a (map fst (Actual.accountMapping params)) ->
    (forall t, In t transactions -> Lib.account t <> a) ->
    let run :=
      Actual.importTransactions api params transactions (Actual.start api l)
    in
    In (Actual.mkActualAccountTransactions a [])
       (Actual.payloads params transactions)
    /\ In (Actual.Json.mkLine a []) (Actual.stdinLines params transactions)
    /\ (forall u1 l1 u2 l2 accounts l3 before after,
          Actual.api_init api (Actual.dataDir params)
            (Actual.serverURL params) (Actual.password params) l
          = (Returned u1, l1) ->
          Actual.api_downloadBudget api (Actual.syncId params) l1
          = (Returned u2, l2) ->
          Actual.api_getAccounts api l2 = (Returned accounts, l3) ->
          Forall (fun e => In (snd e) (map Actual.name accounts))
                 (Actual.accountMapping params) ->
          (forall d ledgerAccount,
              In (a, d) (Actual.accountMapping params) ->
              In ledgerAccount accounts ->
              Actual.name ledgerAccount = d ->
              Actual.id ledgerAccount <> "") ->
          map Actual.Json.account (Actual.stdinLines params transactions)
          = before ++ a :: after ->
          (forall c,
              In c (Actual.importCalls api (snd run)) ->
              Actual.rejected c = true ->
              ~ In (Actual.forAccount c) before) ->
          exists c d ledgerAccount,
            In c (Actual.importCalls api (snd run))
            /\ Actual.forAccount c = a
            /\ Actual.records c = []
            /\ In (a, d) (Actual.accountMapping params)
            /\ In ledgerAccount accounts
            /\ Actual.name ledgerAccount = d
            /\ Actual.accountId c = Actual.id ledgerAccount).
Proof.
  intros api params transactions l a Hkey Hnone. cbv zeta.
  assert (Hempty : filter (Spec.ofAccount a) transactions = []).
  { apply filter_none. intros t Ht. apply String.eqb_neq, Hnone, Ht. }
  assert (Hpayload : In (Actual.mkActualAccountTransactions a [])
                        (Actual.payloads params transactions)).
  { rewrite GroupFacts.payloads_entries. apply in_map_iff. exists a. split.
    - now rewrite Hempty.
    - apply GroupFacts.emptyGroups_keys, Hkey. }
  split; [exact Hpayload |].
  split.
  { unfold Actual.stdinLines.
    change (Actual.Json.mkLine a [])
      with (Actual.parsedLine (Actual.mkActualAccountTransactions a [])).
    apply in_map, Hpayload. }
  intros u1 l1 u2 l2 accounts l3 before after Hi Hd Ha Hdest Hid Hsplit Hok.
  destruct (TraceFacts.resolveEntries_listed accounts
              (Actual.accountMapping params) Hdest) as [m Hm].
  pose proof (TraceFacts.syncStep_trace api params
                (Actual.stdinLines params transactions) l l1 l2 l3 u1 u2
                accounts Hi Hd Ha) as Hstep.
  rewrite Hm in Hstep.
  destruct (Actual.processTransactions api (fun name => Map_get name m)
              (Actual.stdinLines params transactions)
              (Actual.mkWorld api l3 [] [])) as [r w'] eqn:P.
  destruct (TraceFacts.importTransactions_of_loop api _ _ _ _ _ Hstep)
    as [_ Hcalls].
  rewrite Hcalls in Hok |- *.
  apply map_eq_app in Hsplit.
  destruct Hsplit as [lb [la' [Hlines [Hb Hla]]]].
  apply map_eq_cons in Hla. destruct Hla as [line [la [-> [Hacc _]]]].
  destruct (TraceFacts.resolveEntries_source _ _ _ _ Hm a Hkey)
    as [d [i [Hin [Hd' Hs]]]].
  destruct (SyncFacts.accountIds_listed _ _ _ Hd')
    as [ledgerAccount [Hlisted [Hname Hi']]].
  assert (Htruthy : truthy (Map_get (Actual.Json.account line) m) = true).
  { rewrite Hacc, Hs. pose proof (Hid d ledgerAccount Hin Hlisted Hname) as Hne.
    rewrite Hi' in Hne. destruct i; [congruence | reflexivity]. }
  rewrite Hlines in P.
  destruct (TraceFacts.processTransactions_reaches api
              (fun name => Map_get name m) lb line la Htruthy
              _ _ _ (Actual.importCalls api w') P eq_refl)
    as [threw Hcall].
  { rewrite Hb. exact Hok. }
  exists (Spec.callFor (fun name => Map_get name m) line threw),
    d, ledgerAccount.
  split; [exact Hcall |].
  cbn [Spec.callFor Actual.forAccount Actual.records Actual.accountId].
  split; [exact Hacc |]. split.
  { assert (Hline : In line (Actual.stdinLines params transactions)).
    { rewrite Hlines. apply in_or_app. right. now left. }
    rewrite TraceFacts.stdinLines_entries in Hline.
    apply in_map_iff in Hline. destruct Hline as [k [<- _]].
    cbn [Actual.Json.account] in Hacc. subst k.
    cbn [Actual.Json.transactions]. now rewrite Hempty. }
  repeat split; trivial.
  rewrite Hacc, Hs. cbn [elementText]. now symmetry.
Qed.

(** The hypotheses of C10 hold in a run against a ledger that accepts
    the import for [Checking] and rejects the one for [Card]:
    [DBS Savings] has no transaction in the batch, its empty payload is
    written and imported, and the call for [Citi 1234] that throws
    afterwards does not change that. *)
Lemma empty_payload_is_imported_witness :
  In (Actual.mkActualAccountTransactions "DBS Savings" [])
     (Actual.payloads Scenario.params [Scenario.coffee])
  /\ exists c,
       In c (Actual.importCalls _
               (snd (Actual.importTransactions
                       (Scenario.ledgerApi
                          [Scenario.checking; Scenario.card] "id-card")
                       Scenario.params [Scenario.coffee]
                       (Actual.start
                          (Scenario.ledgerApi
                             [Scenario.checking; Scenario.card] "id-card")
                          tt))))
       /\ Actual.forAccount c = "DBS Savings"
       /\ Actual.records c = [].
Proof.
  destruct (empty_payload_is_imported
              (Scenario.ledgerApi [Scenario.checking; Scenario.card]
                                  "id-card")
              Scenario.params [Scenario.coffee] tt "DBS Savings")
    as [Hpayload [_ Hcall]].
  - left. reflexivity.
  - intros t [<- | []]. discriminate.
  - split; [exact Hpayload |].
    destruct (Hcall tt tt tt tt [Scenario.checking; Scenario.card] tt
                    [] ["Citi 1234"] eq_refl eq_refl eq_refl)
      as [c [d [ledgerAccount [Hin [Hfor [Hrec _]]]]]].
    + repeat constructor; cbn; tauto.
    + intros d ledgerAccount Hd [<- | [<- | []]] _; discriminate.
    + reflexivity.
    + intros c _ _ [].
    + exists c. repeat split; assumption.
Defined.

End LedgerFacts.

(* ================================================================== *)
(** * The two output files *)
(* ================================================================== *)

Module OutputFacts.
Import Js.

Lemma compare_same_date (a b d : Temporal.PlainDate) :
  Temporal.compare a d = 0 -> Temporal.compare b d = 0 ->
  Temporal.compare a b = 0.
Proof.
  unfold Temporal.compare.
  destruct (Z.compare_spec (Temporal.year a) (Temporal.year d)),
           (Z.compare_spec (Temporal.year b) (Temporal.year d)),
           (Z.compare_spec (Temporal.year a) (Temporal.year b)); try lia;
  destruct (Z.compare_spec (Temporal.month a) (Temporal.month d)),
           (Z.compare_spec (Temporal.month b) (Temporal.month d)),
           (Z.compare_spec (Temporal.month a) (Temporal.month b)); try lia;
  destruct (Z.compare_spec (Temporal.day a) (Temporal.day d)),
           (Z.compare_spec (Temporal.day b) (Temporal.day d)),
           (Z.compare_spec (Temporal.day a) (Temporal.day b)); lia.
Qed.

(** Inserting a transaction leaves the transactions of any one date in
    their order: the elements it passes have another date. *)
Lemma insertSorted_keeps_date_order (d : Temporal.PlainDate)
      (x : Lib.Transaction) (l : list Lib.Transaction) :
  filter (Shape.onDate d) (insertSorted Main.compareByDate x l)
  = filter (Shape.onDate d) (x :: l).
Proof.
  induction l as [| y l IH]; [reflexivity |].
  cbn [insertSorted].
  destruct (Main.compareByDate x y <=? 0) eqn:E; [reflexivity |].
  apply Z.leb_gt in E.
  cbn [filter] in *. rewrite IH.
  destruct (Shape.onDate d x) eqn:Hx, (Shape.onDate d y) eqn:Hy;
    try reflexivity.
  exfalso. unfold Shape.onDate in Hx, Hy.
  apply Z.eqb_eq in Hx, Hy. unfold Main.compareByDate in E.
  rewrite (compare_same_date _ _ _ Hx Hy) in E. lia.
Qed.

Lemma sort_keeps_date_order (d : Temporal.PlainDate)
      (l : list Lib.Transaction) :
  filter (Shape.onDate d) (sort Main.compareByDate l)
  = filter (Shape.onDate d) l.
Proof.
  induction l as [| x l IH]; [reflexivity |].
  cbn [sort fold_right]. fold (sort Main.compareByDate l).
  rewrite insertSorted_keeps_date_order. cbn [filter]. now rewrite IH.
Qed.

(** The combined export is stable: the transactions of one date stand in
    the file in the order in which the drivers delivered them. *)
Theorem combinedTransactions_stable :
  forall (outputs : list Lib.DriverOutput) (d : Temporal.PlainDate),
    filter (Shape.onDate d) (Main.combinedTransactions outputs)
    = filter (Shape.onDate d) (flat_map Lib.transactions outputs).
Proof.
  intros outputs d. unfold Main.combinedTransactions.
  apply sort_keeps_date_order.
Qed.

(** The snapshot [output.json] lists the transactions in the order of the
    rows of [transactions.csv], both oldest first, and neither file is
    written when the drivers delivered no transaction. *)
Theorem snapshot_follows_export :
  forall outputs : list Lib.DriverOutput,
    Main.writeCombinedOutput outputs
    = option_map (map Main.combinedRow) (Pull.writeSyncPlaceholder outputs)
    /\ (Pull.writeSyncPlaceholder outputs = None
        <-> flat_map Lib.transactions outputs = [])
    /\ (Main.writeCombinedOutput outputs = None
        <-> flat_map Lib.transactions outputs = []).
Proof.
  intros outputs.
  unfold Main.writeCombinedOutput, Pull.writeSyncPlaceholder.
  destruct (flat_map Lib.transactions outputs) as [| t ts]; cbn.
  - repeat split; reflexivity.
  - repeat split; discriminate.
Qed.

End OutputFacts.

(* ================================================================== *)
(** * Texts built by the parsers *)
(* ================================================================== *)

Module TextFacts.
Import Js.

Lemma collapseFrom_true_head (s : string) :
  match collapseFrom true s with
  | String c _ => isWhiteSpace c = false
  | EmptyString => True
  end.
Proof.
  induction s as [| c s IH]; cbn; [exact I |].
  destruct (isWhiteSpace c) eqn:E; [exact IH | exact E].
Qed.

Lemma collapseFrom_singleSpaced (s : string) :
  forall inRun, Shape.singleSpaced (collapseFrom inRun s) = true.
Proof.
  induction s as [| c s IH]; intros inRun; [reflexivity |].
  cbn [collapseFrom].
  destruct (isWhiteSpace c) eqn:E.
  - destruct inRun; [apply IH |].
    cbn [Shape.singleSpaced]. rewrite (IH true).
    pose proof (collapseFrom_true_head s) as H.
    destruct (collapseFrom true s) as [| c' r]; [reflexivity |].
    rewrite H. reflexivity.
  - cbn [Shape.singleSpaced]. rewrite E, IH. reflexivity.
Qed.

(** A description never holds a tab, a line break or two white-space
    characters in a row: its only white space is the single space. *)
Theorem buildDescription_singleSpaced :
  forall (c : Dbs.Columns) (row : list string),
    Shape.singleSpaced (Dbs.buildDescription c row) = true.
Proof.
  intros c row. unfold Dbs.buildDescription.
  destruct (Dbs.descriptionParts c row) as [| p ps] eqn:E.
  - rewrite (DescriptionFacts.buildDescription_fallback c row E). reflexivity.
  - cbn [List.length Nat.eqb]. apply collapseFrom_singleSpaced.
Qed.

(** A match of the masked card number is twelve [x] and four digits. *)
End TextFacts.

(* ================================================================== *)
(** * Waiting for the Citibank page *)
(* ================================================================== *)

Module PageFacts.

(** A call of [waitFor] that fails, by a timeout or otherwise, never
    makes [waitOrRefresh] fail: it throws only the error of a reload,
    made after a call of [waitFor] that failed.  When it returns it has
    reloaded the page at most [retries + 1] times, once after every call
    of [waitFor] that failed, every reload has returned, and unless the
    retries are used up the last call of [waitFor] has found the
    element. *)
Theorem waitOrRefresh_bounded :
  forall (waitFor reload : nat -> Js.Outcome unit) (retries attempt : nat),
    match CitiPage.waitOrRefresh waitFor reload attempt retries with
    | Js.Returned reloads =>
        (reloads <= S retries)%nat
        /\ (forall k,
              (k < reloads)%nat ->
              (exists e, waitFor (attempt + k)%nat = Js.Thrown e)
              /\ reload (attempt + k)%nat = Js.Returned tt)
        /\ ((reloads <= retries)%nat ->
            waitFor (attempt + reloads)%nat = Js.Returned tt)
    | Js.Thrown e =>
        exists k,
          (k <= retries)%nat
          /\ reload (attempt + k)%nat = Js.Thrown e
          /\ (forall j,
                (j <= k)%nat ->
                exists e', waitFor (attempt + j)%nat = Js.Thrown e')
          /\ (forall j,
                (j < k)%nat -> reload (attempt + j)%nat = Js.Returned tt)
    end.
Proof.
  intros waitFor reload retries.
  induction retries as [| r IH]; intros attempt;
    cbn [CitiPage.waitOrRefresh].
  - destruct (waitFor attempt) as [[] | e0] eqn:W.
    + repeat split; try lia. intros _. now rewrite Nat.add_0_r.
    + destruct (reload attempt) as [[] | e1] eqn:R; cbn [Js.obind].
      * repeat split; try lia.
        -- replace k with O by lia. rewrite Nat.add_0_r. now exists e0.
        -- replace k with O by lia. now rewrite Nat.add_0_r.
      * exists O. rewrite Nat.add_0_r. repeat split; try lia; trivial.
        intros j Hj. replace j with O by lia. rewrite Nat.add_0_r.
        now exists e0.
  - destruct (waitFor attempt) as [[] | e0] eqn:W.
    + repeat split; try lia. intros _. now rewrite Nat.add_0_r.
    + destruct (reload attempt) as [[] | e1] eqn:R; cbn [Js.obind].
      * specialize (IH (S attempt)).
        destruct (CitiPage.waitOrRefresh waitFor reload (S attempt) r)
          as [n | e2]; cbn [Js.obind].
        -- destruct IH as [H1 [H2 H3]]. repeat split.
           ++ lia.
           ++ destruct k as [| k]; [rewrite Nat.add_0_r; now exists e0 |].
              replace (attempt + S k)%nat with (S attempt + k)%nat by lia.
              apply H2. lia.
           ++ destruct k as [| k]; [now rewrite Nat.add_0_r |].
              replace (attempt + S k)%nat with (S attempt + k)%nat by lia.
              apply H2. lia.
           ++ intros H.
              replace (attempt + S n)%nat with (S attempt + n)%nat by lia.
              apply H3. lia.
        -- destruct IH as [k [Hk [Hr [Hw Hrs]]]]. exists (S k).
           replace (attempt + S k)%nat with (S attempt + k)%nat by lia.
           repeat split; trivial; try lia.
           ++ intros [| j] Hj; [rewrite Nat.add_0_r; now exists e0 |].
              replace (attempt + S j)%nat with (S attempt + j)%nat by lia.
              apply Hw. lia.
           ++ intros [| j] Hj; [now rewrite Nat.add_0_r |].
              replace (attempt + S j)%nat with (S attempt + j)%nat by lia.
              apply Hrs. lia.
      * exists O. rewrite Nat.add_0_r. repeat split; try lia; trivial.
        intros j Hj. replace j with O by lia. rewrite Nat.add_0_r.
        now exists e0.
Qed.



End PageFacts.

(* ================================================================== *)
(** * The two sign conventions *)
(* ================================================================== *)

Module SignFacts.
Import Js.

Lemma shr_1_nonneg (mrs : shr_record) :
  0 <= shr_m mrs -> 0 <= shr_m (shr_1 mrs).
Proof.
  destruct mrs as [m r s]. cbn [shr_m].
  destruct m as [| [p | p |] | p]; cbn; lia.
Qed.

Lemma iter_pos_invariant {A : Type} (P : A -> Prop) (f : A -> A) :
  (forall x, P x -> P (f x)) ->
  forall (n : positive) (x : A), P x -> P (iter_pos f n x).
Proof.
  intros Hf. induction n as [n IH | n IH |]; intros x Hx; cbn.
  - apply IH, IH, Hf, Hx.
  - apply IH, IH, Hx.
  - apply Hf, Hx.
Qed.

Lemma shr_fexp_nonneg (m e : Z) (l : location) :
  0 <= m -> 0 <= shr_m (fst (shr_fexp prec emax m e l)).
Proof.
  intros Hm. unfold shr_fexp, shr.
  assert (H0 : 0 <= shr_m (shr_record_of_loc m l)).
  { destruct l as [| []]; exact Hm. }
  destruct (fexp prec emax (Zdigits2 m + e) - e) as [| p | p];
    cbn [fst]; try exact H0.
  apply (iter_pos_invariant (fun mrs => 0 <= shr_m mrs));
    [apply shr_1_nonneg | exact H0].
Qed.

Lemma round_nearest_even_nonneg (m : Z) (l : location) :
  0 <= m -> 0 <= round_nearest_even m l.
Proof.
  intros Hm. destruct l as [| []]; cbn; try lia.
  destruct (Z.even m); lia.
Qed.

(** Rounding a non-negative mantissa gives a zero or a number of the
    sign asked for. *)
Lemma binary_round_aux_sign (sx : bool) (mx ex : Z) (lx : location) :
  0 <= mx ->
  Shape.signOrZero sx (binary_round_aux prec emax sx mx ex lx) = true.
Proof.
  intros Hm. unfold binary_round_aux.
  pose proof (shr_fexp_nonneg mx ex lx Hm) as H1.
  destruct (shr_fexp prec emax mx ex lx) as [mrs' e']. cbn [fst] in H1.
  pose proof (shr_fexp_nonneg
                (round_nearest_even (shr_m mrs') (loc_of_shr_record mrs'))
                e' loc_Exact
                (round_nearest_even_nonneg _ _ H1)) as H2.
  destruct (shr_fexp prec emax _ e' loc_Exact) as [mrs'' e'']. cbn [fst] in H2.
  destruct (shr_m mrs'') as [| p | p]; [reflexivity | | lia].
  destruct (e'' <=? emax - prec); cbn; apply Bool.eqb_reflx.
Qed.

Lemma mul_sign_right (sx sy : bool) (x : number) (my : positive) (ey : Z) :
  Shape.signOrZero sx x = true ->
  Shape.signOrZero (xorb sx sy) (mul x (S754_finite sy my ey)) = true.
Proof.
  destruct x as [s | s | | s m e]; cbn [Shape.signOrZero mul SFmul];
    try discriminate; try reflexivity.
  - intros H. apply Bool.eqb_prop in H. subst. apply Bool.eqb_reflx.
  - intros H. apply Bool.eqb_prop in H. subst.
    apply binary_round_aux_sign. lia.
Qed.

Lemma mul_sign_left (sx sy : bool) (mx : positive) (ex : Z) (y : number) :
  Shape.signOrZero sy y = true ->
  Shape.signOrZero (xorb sx sy) (mul (S754_finite sx mx ex) y) = true.
Proof.
  destruct y as [s | s | | s m e]; cbn [Shape.signOrZero mul SFmul];
    try discriminate; try reflexivity.
  - intros H. apply Bool.eqb_prop in H. subst. apply Bool.eqb_reflx.
  - intros H. apply Bool.eqb_prop in H. subst.
    apply binary_round_aux_sign. lia.
Qed.

Lemma ofZ_sign (z : Z) :
  Shape.signOrZero (z <? 0) (ofZ z) = true.
Proof.
  unfold ofZ, dyadic, binary_normalize.
  destruct z as [| p | p]; [reflexivity | |];
    unfold binary_round;
    destruct (shl_align _ _ _) as [mz ez];
    apply binary_round_aux_sign; lia.
Qed.

(** [Math.round] keeps the sign. *)
Lemma Math_round_sign (s : bool) (x : number) :
  Shape.signOrZero s x = true -> Shape.signOrZero s (Math_round x) = true.
Proof.
  destruct x as [s' | s' | | s' m e]; cbn [Math_round]; trivial.
  cbn [Shape.signOrZero]. intros H. apply Bool.eqb_prop in H. subst s'.
  destruct (Z.leb_spec 0 e) as [He | He]; [cbn; apply Bool.eqb_reflx |].
  set (r := Z.shiftr (cond_Zopp s (Z.pos m) + Z.shiftl 1 (- e - 1)) (- e)).
  destruct (Z.eqb_spec r 0) as [Hr | Hr]; [reflexivity |].
  assert (Hsign : (r <? 0) = s).
  { subst r. rewrite Z.shiftr_div_pow2 in * by lia.
    rewrite Z.shiftl_mul_pow2 in * by lia. rewrite Z.mul_1_l in *.
    assert (Hp : 2 ^ (- e) = 2 * 2 ^ (- e - 1)).
    { rewrite <- Z.pow_succ_r by lia. f_equal. lia. }
    assert (Hq : 0 < 2 ^ (- e - 1)) by (apply Z.pow_pos_nonneg; lia).
    destruct s; cbn [cond_Zopp] in *.
    - apply Z.ltb_lt.
      assert ((- Z.pos m + 2 ^ (- e - 1)) / 2 ^ (- e) <= 0).
      { apply Z.lt_succ_r. apply Z.div_lt_upper_bound; lia. }
      lia.
    - apply Z.ltb_ge. apply Z.div_pos; lia. }
  rewrite <- Hsign. apply ofZ_sign.
Qed.

Lemma nonNegative_sign (x : number) :
  leb (ofZ 0) x = true -> Shape.signOrZero false x = true.
Proof. destruct x as [s | [|] | | [|] m e]; cbn; congruence. Qed.

Lemma sign_false_nonneg (x : number) :
  Shape.signOrZero false x = true -> leb (ofZ 0) x = true.
Proof. destruct x as [s | [|] | | [|] m e]; cbn; congruence. Qed.

Lemma sign_true_nonpos (x : number) :
  Shape.signOrZero true x = true -> leb x (ofZ 0) = true.
Proof. destruct x as [s | [|] | | [|] m e]; cbn; congruence. Qed.

(** The export and the ledger use opposite signs: for a transaction with
    an amount of at least 0, a debit is at least 0 in [transactions.csv]
    and at most 0 in the ledger, and a credit the other way round. *)
Theorem opposite_sign_conventions :
  forall t : Lib.Transaction,
    Spec.nonNegative t ->
    if Lib.isDebit t then
      leb (ofZ 0) (Lib.amount t) = true
      /\ leb (Actual.amount (Actual.convertTransaction t)) (ofZ 0) = true
    else
      leb (Lib.amount t) (ofZ 0) = true
      /\ leb (ofZ 0) (Actual.amount (Actual.convertTransaction t)) = true.
Proof.
  intros t Ht. apply nonNegative_sign in Ht.
  assert (Hround : Shape.signOrZero false
                     (Math_round (mul (Lib.absoluteAmount t) (ofZ 100)))
                   = true).
  { apply Math_round_sign.
    apply (mul_sign_right false false _ 7036874417766400 (-46)), Ht. }
  unfold Lib.amount, Actual.convertTransaction. cbn [Actual.amount].
  destruct (Lib.isDebit t); split.
  - apply sign_false_nonneg.
    apply (mul_sign_left false false 4503599627370496 (-52)), Ht.
  - apply sign_true_nonpos.
    apply (mul_sign_right false true _ 4503599627370496 (-52)), Hround.
  - apply sign_true_nonpos.
    apply (mul_sign_left true false 4503599627370496 (-52)), Ht.
  - apply sign_false_nonneg.
    apply (mul_sign_right false false _ 4503599627370496 (-52)), Hround.
Qed.

(** The hypothesis holds for the purchase of the scenario, a debit. *)
Lemma opposite_sign_conventions_witness :
  leb (ofZ 0) (Lib.amount Scenario.coffee) = true
  /\ leb (Actual.amount (Actual.convertTransaction Scenario.coffee)) (ofZ 0)
     = true.
Proof.
  refine (opposite_sign_conventions Scenario.coffee _).
  vm_compute. reflexivity.
Defined.

End SignFacts.

(* ================================================================== *)
(** * Payloads and the account mapping *)
(* ================================================================== *)

Module PayloadFacts.
Import Js.

Lemma filter_either_or {A : Type} (p q : A -> bool) (l : list A) :
  (forall x, p x = true -> q x = true -> False) ->
  Permutation (filter (fun x => p x || q x) l) (filter p l ++ filter q l).
Proof.
  intros Hdis. induction l as [| x l IH]; cbn [filter]; [constructor |].
  destruct (p x) eqn:Hp, (q x) eqn:Hq; cbn [orb app].
  - elim (Hdis x Hp Hq).
  - apply perm_skip, IH.
  - eapply perm_trans; [apply perm_skip, IH | apply Permutation_middle].
  - exact IH.
Qed.

Lemma groups_hold_mapped (keys : list string)
      (transactions : list Lib.Transaction) :
  NoDup keys ->
  Permutation
    (flat_map (fun k => filter (Spec.ofAccount k) transactions) keys)
    (filter (Shape.mapped keys) transactions).
Proof.
  induction 1 as [| k keys Hout Hnd IH]; cbn [flat_map].
  - unfold Shape.mapped. cbn [existsb].
    induction transactions as [| t ts IHt]; [constructor | exact IHt].
  - eapply perm_trans; [apply Permutation_app_head, IH |].
    apply Permutation_sym.
    eapply perm_trans; [| apply (filter_either_or (Spec.ofAccount k))].
    + unfold Shape.mapped, Spec.ofAccount. cbn [existsb].
      apply Permutation_refl.
    + intros t Hk Hks. unfold Spec.ofAccount in Hk.
      apply String.eqb_eq in Hk. unfold Shape.mapped in Hks.
      apply existsb_exists in Hks. destruct Hks as [k' [Hin Heq]].
      apply String.eqb_eq in Heq. apply Hout. congruence.
Qed.

(** With the distinct keys of an account mapping, the payloads follow
    the order of the mapping, one per key, and the groups together hold
    each transaction of a mapped account exactly once: none is lost and
    none is sent twice. *)
Theorem payloads_follow_the_mapping :
  forall (params : Actual.ActualParams) (transactions : list Lib.Transaction),
    NoDup (map fst (Actual.accountMapping params)) ->
    map Actual.account (Actual.payloads params transactions)
    = map fst (Actual.accountMapping params)
    /\ Permutation
         (flat_map snd
            (Actual.groupTransactionsByAccount
               (map fst (Actual.accountMapping params)) transactions))
         (filter (Shape.mapped (map fst (Actual.accountMapping params)))
                 transactions).
Proof.
  intros params transactions Hnd. split.
  - rewrite GroupFacts.payloads_entries, map_map. cbn [Actual.account].
    rewrite map_id. apply GroupFacts.emptyGroups_keys_NoDup, Hnd.
  - rewrite GroupFacts.groupTransactionsByAccount_entries.
    rewrite (GroupFacts.emptyGroups_keys_NoDup _ Hnd).
    rewrite flat_map_concat_map, map_map. cbn [snd].
    rewrite <- flat_map_concat_map.
    apply groups_hold_mapped, Hnd.
Qed.

(** The keys of the mapping of the scenario are distinct. *)
Lemma payloads_follow_the_mapping_witness :
  map Actual.account
      (Actual.payloads Scenario.params [Scenario.coffee; Scenario.salary])
  = map fst (Actual.accountMapping Scenario.params).
Proof.
  refine (proj1 (payloads_follow_the_mapping Scenario.params
                   [Scenario.coffee; Scenario.salary] _)).
  repeat constructor; cbn; intuition discriminate.
Defined.

End PayloadFacts.

(* ================================================================== *)
(** * The columns and the rows of a DBS statement *)
(* ================================================================== *)

Module ColumnFacts.
Import Js.

Lemma indexOfFrom_found (x : string) (l : list string) :
  forall i,
    In x l ->
    i <= indexOfFrom i x l
    /\ nth_error l (Z.to_nat (indexOfFrom i x l - i)) = Some x.
Proof.
  induction l as [| y l IH]; intros i Hin; [destruct Hin |].
  cbn [indexOfFrom].
  destruct (String.eqb y x) eqn:E.
  - apply String.eqb_eq in E. subst y. rewrite Z.sub_diag.
    split; [lia | reflexivity].
  - destruct Hin as [-> | Hin]; [now rewrite String.eqb_refl in E |].
    destruct (IH (i + 1) Hin) as [Hle Hnth]. split; [lia |].
    replace (indexOfFrom (i + 1) x l - i)
      with (Z.succ (indexOfFrom (i + 1) x l - (i + 1))) by lia.
    rewrite Z2Nat.inj_succ by lia. exact Hnth.
Qed.

Lemma indexOfFrom_missing (x : string) (l : list string) :
  forall i, ~ In x l -> indexOfFrom i x l = -1.
Proof.
  induction l as [| y l IH]; intros i Hout; [reflexivity |].
  cbn [indexOfFrom].
  destruct (String.eqb y x) eqn:E.
  - apply String.eqb_eq in E. elim Hout. now left.
  - apply IH. intros H. apply Hout. now right.
Qed.

(** [indexOf] and the array access agree. *)
Lemma at_indexOf (x : string) (l : list string) :
  In x l -> at_ l (indexOf x l) = Some x.
Proof.
  intros Hin. unfold indexOf, at_.
  destruct (indexOfFrom_found x l 0 Hin) as [Hle Hnth].
  destruct (Z.ltb_spec (indexOfFrom 0 x l) 0) as [H | _]; [lia |].
  now rewrite Z.sub_0_r in Hnth.
Qed.

Lemma arrayIncludes_In (x : string) (l : list string) :
  arrayIncludes x l = true <-> In x l.
Proof.
  unfold arrayIncludes. rewrite existsb_exists. split.
  - intros [y [Hin E]]. apply String.eqb_eq in E. now subst.
  - intros Hin. exists x. split; [exact Hin | apply String.eqb_refl].
Qed.

(** The columns are found by their names, wherever they stand in the
    header row: the debit and credit columns in both layouts, the four
    reference columns under the names of the layout that the header
    shows. *)
Theorem resolveColumns_by_name :
  forall headerRow : list string,
    let c := Dbs.resolveColumns headerRow in
    (In "Debit Amount" headerRow ->
     at_ headerRow (Dbs.idxDebitAmount c) = Some "Debit Amount")
    /\ (In "Credit Amount" headerRow ->
        at_ headerRow (Dbs.idxCreditAmount c) = Some "Credit Amount")
    /\ (In "Transaction Ref1" headerRow ->
        at_ headerRow (Dbs.ref1 c) = Some "Transaction Ref1"
        /\ (In "Reference" headerRow ->
            at_ headerRow (Dbs.ref0 c) = Some "Reference")
        /\ (In "Transaction Ref2" headerRow ->
            at_ headerRow (Dbs.ref2 c) = Some "Transaction Ref2")
        /\ (In "Transaction Ref3" headerRow ->
            at_ headerRow (Dbs.ref3 c) = Some "Transaction Ref3"))
    /\ (~ In "Transaction Ref1" headerRow ->
        (In "Statement Code" headerRow ->
         at_ headerRow (Dbs.ref0 c) = Some "Statement Code")
        /\ (In "Client Reference" headerRow ->
            at_ headerRow (Dbs.ref1 c) = Some "Client Reference")
        /\ (In "Additional Reference" headerRow ->
            at_ headerRow (Dbs.ref2 c) = Some "Additional Reference")
        /\ (In "Misc Reference" headerRow ->
            at_ headerRow (Dbs.ref3 c) = Some "Misc Reference")).
Proof.
  intros headerRow. cbv zeta. unfold Dbs.resolveColumns.
  destruct (arrayIncludes "Transaction Ref1" headerRow) eqn:E;
    cbn [Dbs.idxDebitAmount Dbs.idxCreditAmount Dbs.ref0 Dbs.ref1 Dbs.ref2
         Dbs.ref3].
  - split; [apply at_indexOf |]. split; [apply at_indexOf |]. split.
    + intros Hin. repeat split; intros; apply at_indexOf; assumption.
    + intros Hout. apply arrayIncludes_In in E. contradiction.
  - split; [apply at_indexOf |]. split; [apply at_indexOf |]. split.
    + intros Hin. apply arrayIncludes_In in Hin. congruence.
    + intros _. repeat split; intros; apply at_indexOf; assumption.
Qed.

Section Rows.
Variable dateOfCell : option string -> Outcome Temporal.PlainDate.

Lemma parseRows_zero_amounts (account : string) (c : Dbs.Columns)
      (rows : list (list string)) :
  Dbs.idxDebitAmount c = -1 -> Dbs.idxCreditAmount c = -1 ->
  forall built transactions : list Lib.Transaction,
    Dbs.parseRows dateOfCell account c rows built = Returned transactions ->
    Forall (fun t => Lib.absoluteAmount t = ofZ 0 /\ Lib.isDebit t = false)
           built ->
    Forall (fun t => Lib.absoluteAmount t = ofZ 0 /\ Lib.isDebit t = false)
           transactions.
Proof.
  intros Hd Hc.
  induction rows as [| cells rows IH]; intros built transactions;
    cbn [Dbs.parseRows].
  - intros H. injection H as <-. trivial.
  - unfold Dbs.parseCells. rewrite Hd, Hc.
    destruct (dateOfCell (at_ (map trim cells) 0)) as [date | e];
      cbn [obind]; [| discriminate].
    intros H Hall. apply (IH _ _ H). constructor; [| exact Hall].
    cbn [Lib.absoluteAmount Lib.isDebit]. split; vm_compute; reflexivity.
Qed.

(** A statement whose header has neither a debit nor a credit column is
    no error: every transaction gets the amount 0 and counts as a
    credit. *)
Theorem parseDbsCsv_without_amount_columns :
  forall (account : string) (headerRow : list string)
         (rows : list (list string)) (transactions : list Lib.Transaction),
    ~ In "Debit Amount" headerRow ->
    ~ In "Credit Amount" headerRow ->
    Dbs.parseDbsCsv dateOfCell account (headerRow :: rows)
    = Returned transactions ->
    Forall (fun t => Lib.absoluteAmount t = ofZ 0 /\ Lib.isDebit t = false)
           transactions.
Proof.
  intros account headerRow rows transactions Hd Hc H.
  unfold Dbs.parseDbsCsv in H.
  eapply parseRows_zero_amounts; [| | exact H | constructor].
  - unfold Dbs.resolveColumns.
    destruct (arrayIncludes "Transaction Ref1" headerRow);
      apply indexOfFrom_missing, Hd.
  - unfold Dbs.resolveColumns.
    destruct (arrayIncludes "Transaction Ref1" headerRow);
      apply indexOfFrom_missing, Hc.
Qed.

Lemma parseRows_all_or_nothing (account : string) (c : Dbs.Columns)
      (rows : list (list string)) :
  forall built : list Lib.Transaction,
    ((exists transactions,
         Dbs.parseRows dateOfCell account c rows built = Returned transactions)
     <-> Forall (fun cells =>
                   exists date,
                     dateOfCell (at_ (map trim cells) 0) = Returned date)
                rows)
    /\ (forall transactions,
          Dbs.parseRows dateOfCell account c rows built
          = Returned transactions ->
          List.length transactions
          = (List.length rows + List.length built)%nat).
Proof.
  induction rows as [| cells rows IH]; intros built; cbn [Dbs.parseRows].
  - split; [split; [constructor | eauto] |].
    intros t H. injection H as <-. reflexivity.
  - unfold Dbs.parseCells.
    destruct (dateOfCell (at_ (map trim cells) 0)) as [date | e] eqn:E;
      cbn [obind].
    + match goal with
      | |- context [Dbs.parseRows _ _ _ _ (?t :: built)] =>
          destruct (IH (t :: built)) as [Hiff Hlen]
      end.
      split.
      * rewrite Hiff. split.
        -- intros H. constructor; [now exists date | exact H].
        -- intros H. now inversion H.
      * intros t H. rewrite (Hlen _ H). cbn [List.length]. lia.
    + split; [| discriminate]. split.
      * intros [t H]. discriminate.
      * intros H. inversion H as [| ? ? [d Hd] _]. congruence.
Qed.

(** Once the text has been cut and read by the CSV library,
    [parseDbsCsv] returns exactly when there is a header row and the
    date of every data row after it can be read, and then with one
    transaction per data row; without a header row it throws, and one
    unreadable date makes it throw for the whole statement. *)
Theorem parseDbsCsv_all_or_nothing :
  forall (account : string) (rows : list (list string)),
    ((exists transactions,
         Dbs.parseDbsCsv dateOfCell account rows = Returned transactions)
     <-> exists headerRow data,
           rows = headerRow :: data
           /\ Forall (fun cells =>
                        exists date,
                          dateOfCell (at_ (map trim cells) 0) = Returned date)
                     data)
    /\ (forall transactions,
          Dbs.parseDbsCsv dateOfCell account rows = Returned transactions ->
          S (List.length transactions) = List.length rows).
Proof.
  intros account [| headerRow data]; cbn [Dbs.parseDbsCsv].
  - split; [| discriminate]. split.
    + intros [t H]. discriminate.
    + intros [h [d [H _]]]. discriminate.
  - destruct (parseRows_all_or_nothing account
                (Dbs.resolveColumns headerRow) data []) as [Hiff Hlen].
    split.
    + rewrite Hiff. split.
      * intros H. now exists headerRow, data.
      * intros [h [d [Heq H]]]. now injection Heq as -> ->.
    + intros t H. rewrite (Hlen _ H). cbn [List.length]. lia.
Qed.
End Rows.

(** The hypotheses hold for a statement with the three columns date,
    reference and balance. *)
Lemma parseDbsCsv_without_amount_columns_witness :
  Forall (fun t => Lib.absoluteAmount t = ofZ 0 /\ Lib.isDebit t = false)
    [Lib.mkTransaction "POSB" Scenario.jan1 "ADV" (ofZ 0) false false].
Proof.
  refine (parseDbsCsv_without_amount_columns Scenario.readAsJan1 "POSB"
            ["Transaction Date"; "Statement Code"; "Balance"]
            [["01 Jan 2024"; "ADV"; "12.00"]]
            _ _ _ _).
  - cbn. intuition discriminate.
  - cbn. intuition discriminate.
  - vm_compute. reflexivity.
Defined.

End ColumnFacts.

(* ================================================================== *)
(** * Thousands separators in amounts *)
(* ================================================================== *)

Module CommaFacts.
Import Js.

Lemma digit_not_special (c : ascii) :
  isDigit c = true ->
  isWhiteSpace c = false
  /\ c <> "-"%char /\ c <> "+"%char /\ c <> "I"%char /\ c <> ","%char.
Proof.
  destruct c as [[] [] [] [] [] [] [] []]; intros H;
    try discriminate H; repeat split; try reflexivity; discriminate.
Qed.

Lemma scanDigits_stops (a rest : string) :
  Citi.allDigits a = true ->
  forall acc count,
    scanDigits acc count (a ++ String "," rest)
    = (fst (fst (scanDigits acc count a)), snd (fst (scanDigits acc count a)),
       String "," rest)
    /\ snd (scanDigits acc count a) = EmptyString.
Proof.
  induction a as [| c a IH]; intros Hd acc count.
  - split; reflexivity.
  - cbn [Citi.allDigits] in Hd. apply andb_prop in Hd. destruct Hd as [Hc Ha].
    cbn [append scanDigits]. rewrite Hc. apply IH, Ha.
Qed.

Lemma scanUnsigned_stops (a rest : string) :
  Citi.allDigits a = true ->
  scanUnsigned (a ++ String "," rest) = scanUnsigned a.
Proof.
  intros Hd. unfold scanUnsigned.
  assert (Hp : prefix "Infinity" (a ++ String "," rest) = false
               /\ prefix "Infinity" a = false).
  { destruct a as [| c a]; [split; reflexivity |].
    cbn [Citi.allDigits] in Hd. apply andb_prop in Hd. destruct Hd as [Hc _].
    destruct (digit_not_special c Hc) as [_ [_ [_ [HI _]]]].
    cbn [append prefix].
    destruct (ascii_dec "I" c) as [E | _]; [now elim HI |].
    split; reflexivity. }
  destruct Hp as [-> ->].
  destruct (scanDigits_stops a rest Hd 0 0) as [-> Hrest].
  destruct (scanDigits 0 0 a) as [[i ni] r1]. cbn [fst snd] in *.
  subst r1. reflexivity.
Qed.

Lemma parseFloat_stops (a rest : string) :
  Citi.allDigits a = true ->
  parseFloat (a ++ String "," rest) = parseFloat a
  /\ parseFloat (String "-" (a ++ String "," rest))
     = parseFloat (String "-" a).
Proof.
  intros Hd. split.
  - destruct a as [| c a]; [reflexivity |].
    pose proof Hd as Hd'.
    cbn [Citi.allDigits] in Hd'. apply andb_prop in Hd'.
    destruct Hd' as [Hc _].
    destruct (digit_not_special c Hc) as [Hw [Hm [Hp _]]].
    unfold parseFloat. cbn [append trimStart]. rewrite Hw.
    change (String c (a ++ String "," rest))
      with (String c a ++ String "," rest)%string.
    assert (Hsign : forall s,
               match String c s with
               | String "-" r => (true, r)
               | String "+" r => (false, r)
               | _ => (false, String c s)
               end = (false, String c s)).
    { intros s.
      destruct c as [[] [] [] [] [] [] [] []];
        try reflexivity; [now elim Hp | now elim Hm]. }
    rewrite (Hsign a).
    change (String c a ++ String "," rest)%string
      with (String c (a ++ String "," rest)).
    rewrite (Hsign (a ++ String "," rest)%string).
    change (String c (a ++ String "," rest))
      with (String c a ++ String "," rest)%string.
    now rewrite scanUnsigned_stops.
  - unfold parseFloat. cbn [trimStart isWhiteSpace]. cbn.
    change (isWhiteSpace "-") with false. cbv iota.
    now rewrite scanUnsigned_stops.
Qed.

(** Reading an amount stops at the first comma: when [parseFloatSafely]
    is called without its second argument, as [parseDbsCsv] does, a
    thousands separator cuts the amount down to the digits before it. *)
Theorem parseFloatSafely_stops_at_comma :
  forall a rest : string,
    Citi.allDigits a = true ->
    Lib.parseFloatSafely (a ++ String "," rest) false
    = Lib.parseFloatSafely a false.
Proof.
  intros a rest Hd. unfold Lib.parseFloatSafely.
  now rewrite (proj1 (parseFloat_stops a rest Hd)).
Qed.

(** The amount 1,234.56 is read as 1. *)
Lemma parseFloatSafely_stops_at_comma_witness :
  Lib.parseFloatSafely "1,234.56" false = ofZ 1.
Proof.
  refine (eq_trans
            (parseFloatSafely_stops_at_comma "1" "234.56" eq_refl) _).
  vm_compute. reflexivity.
Defined.

Lemma removeFirstComma_digits (a rest : string) :
  Citi.allDigits a = true ->
  removeFirstComma (a ++ String "," rest) = (a ++ rest)%string.
Proof.
  induction a as [| c a IH]; intros Hd; [reflexivity |].
  cbn [Citi.allDigits] in Hd. apply andb_prop in Hd. destruct Hd as [Hc Ha].
  destruct (digit_not_special c Hc) as [_ [_ [_ [_ Hcomma]]]].
  cbn [append removeFirstComma].
  destruct (Ascii.eqb_spec c ","); [contradiction |].
  now rewrite IH.
Qed.

Lemma allDigits_app (a b : string) :
  Citi.allDigits a = true -> Citi.allDigits b = true ->
  Citi.allDigits (a ++ b) = true.
Proof.
  induction a as [| c a IH]; intros Ha Hb; [exact Hb |].
  cbn [Citi.allDigits append] in *. apply andb_prop in Ha.
  destruct Ha as [-> Ha]. now apply IH.
Qed.

Lemma append_assoc (a b c : string) :
  ((a ++ b) ++ c = a ++ (b ++ c))%string.
Proof. induction a as [| x a IH]; cbn [append]; congruence. Qed.

(** [parseNumber] of the Citibank table removes the first comma only:
    an amount with two thousands separators is cut at the second one,
    both as a credit and, with the minus sign put in front, as a
    debit. *)
Theorem parseNumber_second_comma :
  forall a b rest : string,
    Citi.allDigits a = true ->
    Citi.allDigits b = true ->
    let raw := ("SGD " ++ a ++ String "," (b ++ String "," rest))%string in
    Lib.parseFloatSafely (Citi.parseNumber raw) false
    = Lib.parseFloatSafely (a ++ b) false
    /\ Lib.parseFloatSafely (String "-" (Citi.parseNumber raw)) false
       = Lib.parseFloatSafely (String "-" (a ++ b)) false.
Proof.
  intros a b rest Ha Hb raw. subst raw.
  unfold Citi.parseNumber, substringFrom.
  change (dropUnits (Z.to_nat 4)
            ("SGD " ++ a ++ String "," (b ++ String "," rest)))
    with (a ++ String "," (b ++ String "," rest))%string.
  rewrite (removeFirstComma_digits _ _ Ha), <- append_assoc.
  unfold Lib.parseFloatSafely.
  destruct (parseFloat_stops (a ++ b) rest (allDigits_app a b Ha Hb))
    as [-> ->].
  split; reflexivity.
Qed.

(** The amount SGD 1,234,567.00 is read as 1234. *)
Lemma parseNumber_second_comma_witness :
  Lib.parseFloatSafely (Citi.parseNumber "SGD 1,234,567.00") false
  = ofZ 1234.
Proof.
  refine (eq_trans
            (proj1 (parseNumber_second_comma "1" "234" "567.00"
                      eq_refl eq_refl)) _).
  vm_compute. reflexivity.
Defined.

End CommaFacts.

(* ================================================================== *)
(** * A run of the ledger import in which nothing fails *)
(* ================================================================== *)

Module RunFacts.
Import Js.

Lemma accountIds_keeps (accounts : list Actual.LedgerAccount) (k : string) :
  forall m : JsMap string,
    Forall (fun a => Actual.name a <> k) accounts ->
    Map_get k (fold_left (fun m a => Map_set (Actual.name a) (Actual.id a) m)
                         accounts m)
    = Map_get k m.
Proof.
  induction accounts as [| a accounts IH]; intros m Hall; [reflexivity |].
  inversion Hall as [| ? ? Ha Hrest]; subst. cbn [fold_left].
  rewrite (IH _ Hrest). apply MapFacts.get_set_other, Ha.
Qed.

(** When several accounts of the ledger have the same name, the name
    stands for the one listed last: its id is the one that the imports
    for that name go to. *)
Theorem accountIds_last_wins :
  forall (before after : list Actual.LedgerAccount) (a : Actual.LedgerAccount),
    Forall (fun b => Actual.name b <> Actual.name a) after ->
    Map_get (Actual.name a) (Actual.accountIds (before ++ a :: after))
    = Some (Actual.id a).
Proof.
  intros before after a Hafter. unfold Actual.accountIds.
  rewrite fold_left_app. cbn [fold_left].
  rewrite (accountIds_keeps after _ _ Hafter).
  apply MapFacts.get_set_same.
Qed.

(** Two accounts called Card: the second one is used. *)
Lemma accountIds_last_wins_witness :
  Map_get "Card"
    (Actual.accountIds
       [Scenario.card; Scenario.checking;
        Actual.mkLedgerAccount "Card" "id-second-card"])
  = Some "id-second-card".
Proof.
  apply (accountIds_last_wins [Scenario.card; Scenario.checking] []
           (Actual.mkLedgerAccount "Card" "id-second-card")).
  constructor.
Defined.

(** The resolution, entry by entry: with distinct sources, each source
    gets the id that the ledger has under its own destination. *)
Lemma resolveEntries_exact (availableAccounts : JsMap string)
      (entries : list (string * string)) :
  NoDup (map fst entries) ->
  forall acc m : JsMap string,
    Actual.resolveEntries availableAccounts entries acc = Returned m ->
    forall s d,
      In (s, d) entries ->
      exists i,
        Map_get d availableAccounts = Some i /\ Map_get s m = Some i.
Proof.
  induction entries as [| [s0 d0] entries IH]; intros Hnd acc m H s d Hin;
    [destruct Hin |].
  cbn [map fst] in Hnd. inversion Hnd as [| ? ? Hout Hnd']; subst.
  cbn [Actual.resolveEntries] in H. unfold Map_has in H.
  destruct (Map_get d0 availableAccounts) as [i0 |] eqn:E; [| discriminate].
  destruct Hin as [Heq | Hin].
  - injection Heq as <- <-. exists i0. split; [exact E |].
    rewrite (TraceFacts.resolveEntries_keeps _ _ _ _ s0 H Hout).
    apply MapFacts.get_set_same.
  - exact (IH Hnd' _ _ H s d Hin).
Qed.

Section Run.
Variable api : Actual.Api.

(** A run in which nothing fails: when [api.init], [api.downloadBudget]
    and [api.getAccounts] return, the keys of the mapping are distinct,
    every destination is the name of an account that the ledger listed,
    every listed account that is a destination has an id that is not
    empty, and no import call of the run threw, [importTransactions]
    reports success, and it has made exactly one import per entry of the
    mapping, in the order of the mapping: to the id of a listed account
    with the name of the destination, with the JSON reading of the
    converted transactions of the source account. *)
Theorem importTransactions_succeeds :
  forall (params : Actual.ActualParams)
         (transactions : list Lib.Transaction)
         (l l1 l2 l3 : Actual.Ledger api) (u1 u2 : unit)
         (accounts : list Actual.LedgerAccount),
    Actual.api_init api (Actual.dataDir params) (Actual.serverURL params)
                    (Actual.password params) l
    = (Returned u1, l1) ->
    Actual.api_downloadBudget api (Actual.syncId params) l1
    = (Returned u2, l2) ->
    Actual.api_getAccounts api l2 = (Returned accounts, l3) ->
    NoDup (map fst (Actual.accountMapping params)) ->
    Forall (fun e => In (snd e) (map Actual.name accounts))
           (Actual.accountMapping params) ->
    (forall a,
        In a accounts ->
        In (Actual.name a) (map snd (Actual.accountMapping params)) ->
        Actual.id a <> EmptyString) ->
    let run :=
      Actual.importTransactions api params transactions (Actual.start api l)
    in
    (forall c,
        In c (Actual.importCalls api (snd run)) ->
        Actual.rejected c = false) ->
    fst run = true
    /\ Forall2
         (fun e c =>
            Actual.forAccount c = fst e
            /\ (exists a, In a accounts /\ Actual.name a = snd e
                          /\ Actual.id a = Actual.accountId c)
            /\ Actual.records c
               = map Actual.parsedTransaction
                     (map Actual.convertTransaction
                          (filter (Spec.ofAccount (fst e)) transactions))
            /\ Actual.rejected c = false)
         (Actual.accountMapping params)
         (Actual.importCalls api (snd run)).
Proof.
  intros params transactions l l1 l2 l3 u1 u2 accounts Hi Hd Ha Hnd Hdest
         Hids.
  cbv zeta. intros Hno.
  destruct (TraceFacts.resolveEntries_listed accounts
              (Actual.accountMapping params) Hdest) as [m Hm].
  pose proof (TraceFacts.syncStep_trace api params
                (Actual.stdinLines params transactions) l l1 l2 l3 u1 u2
                accounts Hi Hd Ha) as Hstep.
  rewrite Hm in Hstep.
  set (f := fun name : string => Map_get name m) in *.
  destruct (Actual.processTransactions api f
              (Actual.stdinLines params transactions)
              (Actual.mkWorld api l3 [] [])) as [r w'] eqn:P.
  destruct (TraceFacts.importTransactions_of_loop api _ _ _ _ _ Hstep)
    as [Hfst Hcalls].
  rewrite Hfst, Hcalls in *.
  destruct (TraceFacts.processTransactions_prefix api _ _ _ _ _ P)
    as [done [rest [Hsplit Hr]]].
  cbn [Actual.importCalls app] in Hr.
  destruct r as [u | e]; cbn [Actual.hasThrown negb].
  2:{ exfalso. destruct Hr as [done' [last [_ Hlog]]].
      specialize (Hno (Spec.callFor f last true)).
      rewrite Hlog in Hno. discriminate Hno.
      apply in_or_app. right. now left. }
  destruct Hr as [-> Hlog]. rewrite app_nil_r in Hsplit.
  split; [reflexivity |].
  assert (Hentry : forall e,
             In e (Actual.accountMapping params) ->
             exists a, In a accounts /\ Actual.name a = snd e
                       /\ f (fst e) = Some (Actual.id a)
                       /\ truthy (f (fst e)) = true).
  { intros [s d] Hin.
    destruct (resolveEntries_exact _ _ Hnd _ _ Hm s d Hin) as [i [Hd' Hs]].
    destruct (SyncFacts.accountIds_listed _ _ _ Hd') as [a [Hin' [Hname Hid]]].
    exists a. cbn [fst snd]. unfold f. rewrite Hs, <- Hid.
    repeat split; trivial.
    assert (Hne : Actual.id a <> EmptyString).
    { apply Hids; [exact Hin' |]. rewrite Hname.
      apply in_map_iff. now exists (s, d). }
    destruct (Actual.id a); [now elim Hne | reflexivity]. }
  rewrite Hlog, <- Hsplit, TraceFacts.stdinLines_entries,
    (GroupFacts.emptyGroups_keys_NoDup _ Hnd).
  rewrite TraceFacts.filter_all.
  - rewrite !map_map. apply TraceFacts.Forall2_map_right.
    intros e Hin. destruct (Hentry e Hin) as [a [Hin' [Hname [Hf _]]]].
    unfold Spec.callFor.
    cbn [Actual.forAccount Actual.accountId Actual.records Actual.rejected
         Actual.Json.account Actual.Json.transactions].
    repeat split; trivial.
    exists a. rewrite Hf. repeat split; trivial.
  - intros line Hin. apply in_map_iff in Hin.
    destruct Hin as [k [<- Hk]]. cbn [Actual.Json.account].
    apply in_map_iff in Hk. destruct Hk as [e [<- He]].
    now destruct (Hentry e He) as [a [_ [_ [_ Ht]]]].
Qed.
End Run.

(** The hypotheses hold for the ledger of the scenario that accepts
    every import. *)
Lemma importTransactions_succeeds_witness :
  fst (Actual.importTransactions Scenario.accepting Scenario.params
         [Scenario.coffee; Scenario.salary]
         (Actual.start Scenario.accepting tt))
  = true.
Proof.
  refine (proj1 (importTransactions_succeeds Scenario.accepting
                   Scenario.params [Scenario.coffee; Scenario.salary]
                   tt tt tt tt tt tt [Scenario.checking; Scenario.card]
                   eq_refl eq_refl eq_refl _ _ _ _)).
  - repeat constructor; cbn; intuition discriminate.
  - repeat constructor; cbn; tauto.
  - intros a [<- | [<- | []]] _; discriminate.
  - intros c Hc. vm_compute in Hc.
    destruct Hc as [<- | [<- | []]]; reflexivity.
Defined.

End RunFacts.

(* ================================================================== *)
(** * Trimming, the head of a DBS statement and the configuration *)
(* ================================================================== *)

Module TrimFacts.
Import Js.

Lemma string_of_list_app (a b : list ascii) :
  string_of_list_ascii (a ++ b)
  = (string_of_list_ascii a ++ string_of_list_ascii b)%string.
Proof. induction a as [| c a IH]; cbn; congruence. Qed.

Lemma list_of_string_app (a b : string) :
  list_ascii_of_string (a ++ b)
  = list_ascii_of_string a ++ list_ascii_of_string b.
Proof. induction a as [| c a IH]; cbn; congruence. Qed.

Lemma reverse_app (a b : string) :
  reverse (a ++ b) = (reverse b ++ reverse a)%string.
Proof.
  unfold reverse. now rewrite list_of_string_app, rev_app_distr,
                    string_of_list_app.
Qed.

Lemma reverse_reverse (s : string) : reverse (reverse s) = s.
Proof.
  unfold reverse.
  now rewrite list_ascii_of_string_of_list_ascii, rev_involutive,
    string_of_list_ascii_of_string.
Qed.

Lemma trimStart_head (s : string) :
  trimStart s = EmptyString
  \/ exists c t, trimStart s = String c t /\ isWhiteSpace c = false.
Proof.
  induction s as [| c s IH]; [now left |].
  cbn [trimStart]. destruct (isWhiteSpace c) eqn:E; [exact IH |].
  right. now exists c, s.
Qed.

(** In front of a string that does not start with white space,
    [trimStart] leaves that string alone. *)
Lemma trimStart_before (a b : string) :
  trimStart b = b -> exists a', trimStart (a ++ b) = (a' ++ b)%string.
Proof.
  intros Hb. induction a as [| c a IH].
  - exists EmptyString. exact Hb.
  - cbn [append trimStart]. destruct (isWhiteSpace c); [exact IH |].
    now exists (String c a).
Qed.

(** After a string that does not end in white space, [trimEnd] leaves
    that string alone. *)
Lemma trimEnd_after (p r : string) :
  trimStart (reverse p) = reverse p ->
  exists r', trimEnd (p ++ r) = (p ++ r')%string.
Proof.
  intros Hp. unfold trimEnd. rewrite reverse_app.
  destruct (trimStart_before (reverse r) (reverse p) Hp) as [a' ->].
  rewrite reverse_app, reverse_reverse. now exists (reverse a').
Qed.

Lemma prefix_split (p s : string) :
  prefix p s = true -> exists r, s = (p ++ r)%string.
Proof.
  revert s. induction p as [| c p IH]; intros s H.
  - now exists s.
  - destruct s as [| d s]; [discriminate |]. cbn [prefix] in H.
    destruct (ascii_dec c d) as [-> |]; [| discriminate].
    destruct (IH s H) as [r ->]. now exists r.
Qed.

Lemma prefix_app (p r : string) : prefix p (p ++ r) = true.
Proof.
  induction p as [| c p IH]; [now destruct r |].
  cbn [append prefix]. now destruct (ascii_dec c c).
Qed.

(** Where [indexOf] points, the text that was looked for begins. *)
Lemma indexOfFrom_points (sub s : string) :
  includes sub s = true ->
  forall i,
    i <= JsText.indexOfFrom i sub s
    /\ prefix sub
         (dropUnits (Z.to_nat (JsText.indexOfFrom i sub s - i)) s)
       = true.
Proof.
  induction s as [| c s IH]; intros H i.
  - cbn [includes] in H. rewrite orb_false_r in H.
    cbn [JsText.indexOfFrom]. rewrite H, Z.sub_diag.
    split; [lia | exact H].
  - cbn [includes] in H. cbn [JsText.indexOfFrom].
    destruct (prefix sub (String c s)) eqn:E.
    + rewrite Z.sub_diag. split; [lia | exact E].
    + cbn [orb] in H. destruct (IH H (i + 1)) as [Hle Hp]. split; [lia |].
      replace (JsText.indexOfFrom (i + 1) sub s - i)
        with (Z.succ (JsText.indexOfFrom (i + 1) sub s - (i + 1))) by lia.
      rewrite Z2Nat.inj_succ by lia. exact Hp.
Qed.

(** A statement without the signature of the bank is refused.  In one
    that has it and a header row, the body that goes to the CSV reader
    begins with the header row: nothing of the head of the file is left
    in front of it. *)
Theorem preamble_body_begins_with_header :
  forall contents : string,
    (includes "Account Details For:" contents = false ->
     DbsText.preamble contents = Thrown "Invalid CSV")
    /\ (includes "Account Details For:" contents = true ->
        includes "Transaction Date," contents = true ->
        exists p,
          DbsText.preamble contents = Returned p
          /\ prefix "Transaction Date," (DbsText.body p) = true).
Proof.
  intros contents. unfold DbsText.preamble. split.
  - intros ->. reflexivity.
  - intros -> Hheader. cbn [negb]. eexists. split; [reflexivity |].
    cbn [DbsText.body]. unfold JsText.indexOf, substringFrom.
    destruct (indexOfFrom_points _ _ Hheader 0) as [_ Hp].
    rewrite Z.sub_0_r in Hp. apply prefix_split in Hp.
    destruct Hp as [r ->]. unfold trim.
    change (trimStart ("Transaction Date," ++ r))
      with ("Transaction Date," ++ r)%string.
    destruct (trimEnd_after "Transaction Date," r eq_refl) as [r' ->].
    apply prefix_app.
Qed.

Lemma allUnits_app (p : ascii -> bool) (a b : string) :
  JsText.allUnits p (a ++ b)
  = JsText.allUnits p a && JsText.allUnits p b.
Proof.
  induction a as [| c a IH]; [reflexivity |].
  cbn [append JsText.allUnits]. now rewrite IH, andb_assoc.
Qed.

Lemma reverse_cons (c : ascii) (s : string) :
  reverse (String c s) = (reverse s ++ String c EmptyString)%string.
Proof. exact (reverse_app (String c EmptyString) s). Qed.

Lemma allUnits_reverse (p : ascii -> bool) (s : string) :
  JsText.allUnits p (reverse s) = JsText.allUnits p s.
Proof.
  induction s as [| c s IH]; [reflexivity |].
  rewrite reverse_cons, allUnits_app, IH. cbn [JsText.allUnits].
  rewrite andb_true_r. apply andb_comm.
Qed.

(** What [trimStart] removes is white space, and it is all there is in
    front. *)
Lemma trimStart_split (s : string) :
  exists pre,
    s = (pre ++ trimStart s)%string
    /\ JsText.allUnits isWhiteSpace pre = true.
Proof.
  induction s as [| c s [pre [IH Hpre]]].
  - now exists EmptyString.
  - cbn [trimStart]. destruct (isWhiteSpace c) eqn:E.
    + exists (String c pre). cbn [append JsText.allUnits].
      rewrite E, Hpre. split; [now f_equal | reflexivity].
    + now exists EmptyString.
Qed.

Lemma trimEnd_split (s : string) :
  exists post,
    s = (trimEnd s ++ post)%string
    /\ JsText.allUnits isWhiteSpace post = true.
Proof.
  destruct (trimStart_split (reverse s)) as [pre [H Hpre]].
  exists (reverse pre). split; [| now rewrite allUnits_reverse].
  unfold trimEnd. rewrite <- reverse_app, <- H.
  symmetry. apply reverse_reverse.
Qed.

Lemma trimStart_blank (s : string) :
  JsText.allUnits isWhiteSpace s = true -> trimStart s = EmptyString.
Proof.
  induction s as [| c s IH]; [reflexivity |].
  cbn [JsText.allUnits trimStart]. intros H. apply andb_prop in H.
  destruct H as [-> H]. apply IH, H.
Qed.

(** The last unit that [trimEnd] leaves is no white space. *)
Lemma trimEnd_last (s : string) :
  trimEnd s = EmptyString
  \/ exists r c,
       trimEnd s = (r ++ String c EmptyString)%string
       /\ isWhiteSpace c = false.
Proof.
  unfold trimEnd.
  destruct (trimStart_head (reverse s)) as [-> | [c [t [-> Hc]]]];
    [now left | right].
  exists (reverse t), c. split; [apply reverse_cons | exact Hc].
Qed.

(** The first unit that [trim] leaves is no white space. *)
Lemma trim_first (s : string) :
  trim s = EmptyString
  \/ exists c r, trim s = String c r /\ isWhiteSpace c = false.
Proof.
  unfold trim.
  destruct (trimStart_head s) as [-> | [c [t [-> Hc]]]]; [now left |].
  destruct (trimEnd_after (String c EmptyString) t) as [r' Hr].
  { cbn. now rewrite Hc. }
  cbn [append] in Hr. rewrite Hr. right. now exists c, r'.
Qed.

Section OnePassword.
Variable opRead : string -> string.

(** When the command prints nothing but white space, or nothing at all,
    [fetch1PasswordCredential] returns [undefined] and the value of the
    configuration stays.  Otherwise the credential is the output without
    the white space in front of it and after it: it is not empty, its
    first and its last character are no white space, and it replaces the
    value of the configuration. *)
Theorem fetch1PasswordCredential_trimmed :
  forall (base field : string) (current : option string),
    let out := opRead ("op://" ++ base ++ "/" ++ field) in
    (JsText.allUnits isWhiteSpace out = true ->
     Config.fetch1PasswordCredential opRead base field = None
     /\ Config.assignField opRead base field current = current)
    /\ (JsText.allUnits isWhiteSpace out = false ->
        exists pre v post,
          out = (pre ++ v ++ post)%string
          /\ JsText.allUnits isWhiteSpace pre = true
          /\ JsText.allUnits isWhiteSpace post = true
          /\ (exists c r, v = String c r /\ isWhiteSpace c = false)
          /\ (exists r c,
                v = (r ++ String c EmptyString)%string
                /\ isWhiteSpace c = false)
          /\ Config.fetch1PasswordCredential opRead base field = Some v
          /\ Config.assignField opRead base field current = Some v).
Proof.
  intros base field current. cbv zeta.
  unfold Config.assignField, Config.fetch1PasswordCredential.
  set (out := opRead ("op://" ++ base ++ "/" ++ field)).
  split.
  - intros Hblank. unfold trim. rewrite (trimStart_blank out Hblank).
    split; reflexivity.
  - intros Hout.
    destruct (trimStart_split out) as [pre [H1 Hpre]].
    destruct (trimEnd_split (trimStart out)) as [post [H2 Hpost]].
    fold (trim out) in H2.
    assert (Hne : trim out <> EmptyString).
    { intros E. rewrite E in H2. cbn [append] in H2.
      rewrite H1, H2, allUnits_app, Hpre, Hpost in Hout. discriminate. }
    destruct (String.eqb_spec (trim out) EmptyString) as [E | _];
      [contradiction |]. cbn [negb].
    exists pre, (trim out), post.
    split; [rewrite <- H2; exact H1 |].
    split; [exact Hpre |]. split; [exact Hpost |].
    split.
    { destruct (trim_first out) as [E | H]; [contradiction | exact H]. }
    split.
    { unfold trim in *.
      destruct (trimEnd_last (trimStart out)) as [E | H];
        [contradiction | exact H]. }
    split; [reflexivity |].
    destruct (trim out); [now elim Hne | reflexivity].
Qed.

Lemma replaceReserved_shape (s : string) :
  String.length (JsText.replaceReserved s) = String.length s
  /\ JsText.allUnits (fun c => negb (JsText.isReserved c))
                     (JsText.replaceReserved s) = true.
Proof.
  induction s as [| c s [IHl IHa]]; [split; reflexivity |].
  cbn [JsText.replaceReserved String.length JsText.allUnits].
  rewrite IHl, IHa. split; [reflexivity |].
  destruct (JsText.isReserved c) eqn:E; [reflexivity |].
  now rewrite E.
Qed.

(** Every source that comes out of the resolution has a key that is not
    empty: its own, or the 1Password reference with each reserved
    character replaced, which has the length of the reference and no
    reserved character.  A source that has neither is left out. *)
Theorem resolveSources_keys :
  forall sources : list Config.SourceParams,
    Forall (fun r =>
              exists k source,
                Config.key r = Some k /\ k <> EmptyString
                /\ In source sources
                /\ (Config.key source = Some k
                    \/ exists ref,
                         Config.from1Password source = Some ref
                         /\ String.length k = String.length ref
                         /\ JsText.allUnits
                              (fun c => negb (JsText.isReserved c)) k
                            = true))
           (Config.resolveSources opRead sources).
Proof.
  intros sources. unfold Config.resolveSources.
  apply Forall_forall. intros r Hr. apply in_flat_map in Hr.
  destruct Hr as [source [Hin Hr]]. unfold Config.resolveSource in Hr.
  destruct (truthy (Config.key source)) eqn:Hk.
  - destruct Hr as [<- | []].
    destruct (Config.key source) as [[| c k] |] eqn:E; try discriminate Hk.
    exists (String c k), source. rewrite E.
    repeat split; trivial; [discriminate | now left].
  - destruct (truthy (Config.from1Password source)) eqn:Hf;
      [| destruct Hr].
    destruct Hr as [<- | []].
    destruct (Config.from1Password source) as [[| c ref] |] eqn:E;
      try discriminate Hf.
    unfold Config.assignFrom1Password. cbn [Config.key elementText].
    rewrite Hk. cbn [negb Config.key].
    exists (JsText.replaceReserved (String c ref)), source.
    destruct (replaceReserved_shape (String c ref)) as [Hlen Hall].
    repeat split; trivial.
    + cbn. discriminate.
    + right. now exists (String c ref).
Qed.
End OnePassword.

(** An output of two line feeds alone: the configured password stays. *)
Lemma fetch1PasswordCredential_trimmed_witness :
  Config.assignField
    (fun _ => String JsText.lineFeed (String JsText.lineFeed EmptyString))
    "vault/bank" "password" (Some "configured")
  = Some "configured".
Proof.
  refine (proj2
            (proj1 (fetch1PasswordCredential_trimmed
                      (fun _ => String JsText.lineFeed
                                       (String JsText.lineFeed EmptyString))
                      "vault/bank" "password" (Some "configured"))
                   _)).
  reflexivity.
Defined.

End TrimFacts.

(* ================================================================== *)
(** * The account labels of the Citibank table *)
(* ================================================================== *)

Module LabelFacts.
Import Js.

Lemma substring_0_split (n : nat) :
  forall r,
    String.length (substring 0 n r) = n ->
    exists post, r = (substring 0 n r ++ post)%string.
Proof.
  induction n as [| n IH]; intros r H.
  - exists r. now destruct r.
  - destruct r as [| c r]; [discriminate H |].
    cbn [substring String.length] in *. injection H as H.
    destruct (IH r H) as [post Hpost]. exists post.
    cbn [append]. now f_equal.
Qed.

Lemma four_digits_here (digits post : string) :
  String.length digits = 4%nat ->
  substring 12 4 ("xxxxxxxxxxxx" ++ digits ++ post) = digits.
Proof.
  destruct digits as [| a [| b [| c [| d [| e r]]]]]; try discriminate.
  intros _. cbn. now destruct post.
Qed.

(** A match of the pattern at the start of a string. *)
Lemma maskedPANHere_Some (s m : string) :
  Citi.maskedPANHere s = Some m ->
  exists digits post,
    s = ("xxxxxxxxxxxx" ++ digits ++ post)%string
    /\ m = ("xxxxxxxxxxxx" ++ digits)%string
    /\ String.length digits = 4%nat /\ Citi.allDigits digits = true.
Proof.
  unfold Citi.maskedPANHere.
  destruct (prefix "xxxxxxxxxxxx" s) eqn:P; [| discriminate].
  destruct (String.length (substring 12 4 s) =? 4)%nat eqn:L; [| discriminate].
  destruct (Citi.allDigits (substring 12 4 s)) eqn:D; [| discriminate].
  cbn [andb]. intros H. injection H as <-. apply Nat.eqb_eq in L.
  apply TrimFacts.prefix_split in P. destruct P as [r ->].
  change (substring 12 4 ("xxxxxxxxxxxx" ++ r)) with (substring 0 4 r) in *.
  destruct (substring_0_split 4 r L) as [post Hpost].
  exists (substring 0 4 r), post. repeat split; trivial.
  now rewrite <- Hpost.
Qed.

Lemma maskedPANHere_None (s : string) :
  Citi.maskedPANHere s = None ->
  forall digits post,
    String.length digits = 4%nat -> Citi.allDigits digits = true ->
    s <> ("xxxxxxxxxxxx" ++ digits ++ post)%string.
Proof.
  intros H digits post L D ->. unfold Citi.maskedPANHere in H.
  rewrite TrimFacts.prefix_app, (four_digits_here digits post L) in H.
  rewrite L, D in H. discriminate H.
Qed.

(** [match] finds the leftmost card number of the attribute. *)
Lemma matchMaskedPAN_Some (c m : string) :
  Citi.matchMaskedPAN c = Some m ->
  exists digits,
    m = ("xxxxxxxxxxxx" ++ digits)%string /\ Shape.cardDigits c digits.
Proof.
  induction c as [| x c IH]; cbn [Citi.matchMaskedPAN].
  - destruct (Citi.maskedPANHere "") eqn:E; [| discriminate].
    vm_compute in E. discriminate E.
  - destruct (Citi.maskedPANHere (String x c)) as [m' |] eqn:E.
    + intros H. injection H as <-.
      destruct (maskedPANHere_Some _ _ E) as [digits [post [Hs [-> [L D]]]]].
      exists digits. split; [reflexivity |].
      split; [exact L |]. split; [exact D |].
      exists EmptyString, post. split; [exact Hs |].
      intros pre' digits' post' Hlt. cbn in Hlt. lia.
    + intros H.
      destruct (IH H) as [digits [-> [L [D [pre [post [Hc Hleft]]]]]]].
      exists digits. split; [reflexivity |].
      split; [exact L |]. split; [exact D |].
      exists (String x pre), post. split; [cbn [append]; now f_equal |].
      intros [| y pre'] digits' post' Hlt L' D' Heq.
      * exact (maskedPANHere_None _ E digits' post' L' D' Heq).
      * cbn [append] in Heq. injection Heq as _ Heq.
        apply (Hleft pre' digits' post'); trivial.
        cbn [String.length] in Hlt. lia.
Qed.

Lemma matchMaskedPAN_None (c : string) :
  Citi.matchMaskedPAN c = None -> Shape.noCardNumber c.
Proof.
  unfold Shape.noCardNumber.
  induction c as [| x c IH]; cbn [Citi.matchMaskedPAN];
    intros H pre digits post L D Heq.
  - destruct pre; [| discriminate Heq]. discriminate Heq.
  - destruct (Citi.maskedPANHere (String x c)) eqn:E; [discriminate |].
    destruct pre as [| y pre].
    + exact (maskedPANHere_None _ E digits post L D Heq).
    + cbn [append] in Heq. injection Heq as _ Heq.
      exact (IH H pre digits post L D Heq).
Qed.

(** The label that the loop builds from the first cell of the parsed
    row. *)
Lemma label_of_row (tr : Citi.TableRow) :
  Shape.labelOf tr
    ("Citi "
     ++ substringFrom
          (Z.of_nat (String.length (elementText (at_ (Citi.parseRow tr) 0)))
           - 4)
          (elementText (at_ (Citi.parseRow tr) 0)))%string.
Proof.
  unfold Shape.labelOf, Citi.parseRow.
  cbn [app at_ Z.ltb Z.compare Z.to_nat nth_error elementText].
  destruct (Citi.classAttr tr) as [classes |]; [| reflexivity].
  destruct (Citi.matchMaskedPAN classes) as [m |] eqn:E.
  - destruct (matchMaskedPAN_Some _ _ E) as [digits [-> Hcard]].
    right. exists digits. split; [exact Hcard |].
    destruct Hcard as [L _]. f_equal.
    replace (String.length ("xxxxxxxxxxxx" ++ digits)) with 16%nat
      by (cbn; now rewrite L).
    reflexivity.
  - left. split; [apply matchMaskedPAN_None, E | reflexivity].
Qed.

(** One turn of the loop: a row without a date is passed over, and a
    row with a date that is read without an exception puts one
    transaction in front, labelled after the row. *)
Lemma parseTableRow_label (tr : Citi.TableRow)
      (csvRows csvRows' : list (list string))
      (transactions transactions' : list Lib.Transaction) :
  Citi.parseTableRow tr (csvRows, transactions)
  = Returned (csvRows', transactions') ->
  (Spec.hasDate tr = false /\ transactions' = transactions)
  \/ (Spec.hasDate tr = true
      /\ exists t,
           transactions' = t :: transactions
           /\ Shape.labelOf tr (Lib.account t)).
Proof.
  pose proof (label_of_row tr) as Hlabel.
  unfold Citi.parseTableRow.
  destruct (TableFacts.at_positions (Citi.parseRow tr))
    as [_ [-> [_ [-> [-> _]]]]].
  assert (Hdate : forall rawDebit rawCredit,
             nth_error (Citi.parseRow tr) 3 = Some rawDebit ->
             nth_error (Citi.parseRow tr) 4 = Some rawCredit ->
             nth_error (Citi.parseRow tr) 1
             = nth_error (Citi.cellTexts tr) 0).
  { unfold Citi.parseRow.
    destruct (Citi.cellTexts tr) as [| c0 [| c1 [| c2 rest]]];
      cbn [app nth_error]; intros rawDebit rawCredit H3 H4;
      try discriminate; reflexivity. }
  assert (Hskip : truthy (nth_error (Citi.parseRow tr) 1) = false ->
                  Spec.hasDate tr = false).
  { unfold Spec.hasDate, Citi.parseRow.
    destruct (Citi.cellTexts tr) as [| c0 rest]; cbn [app nth_error];
      [reflexivity | trivial]. }
  destruct (truthy (nth_error (Citi.parseRow tr) 1)) eqn:Ht; cbn [negb].
  - destruct (nth_error (Citi.parseRow tr) 3) as [rawDebit |] eqn:E3;
      [| discriminate].
    destruct (nth_error (Citi.parseRow tr) 4) as [rawCredit |] eqn:E4;
      [| discriminate].
    match goal with
    | |- obind ?d _ = _ -> _ => destruct d as [date | e]; cbn [obind]
    end; [| discriminate].
    intros H. injection H as _ <-. right. split.
    + unfold Spec.hasDate. rewrite <- (Hdate _ _ eq_refl eq_refl). exact Ht.
    + eexists. split; [reflexivity |]. cbn [Lib.account]. exact Hlabel.
  - intros H. injection H as _ <-. left. split; [now apply Hskip | reflexivity].
Qed.

Lemma eachRow_label (rows : list Citi.TableRow) :
  forall csvRows transactions csvRows' transactions',
    Citi.eachRow rows (csvRows, transactions)
    = Returned (csvRows', transactions') ->
    exists built,
      transactions' = rev built ++ transactions
      /\ Forall2 (fun tr t => Shape.labelOf tr (Lib.account t))
                 (filter Spec.hasDate rows) built.
Proof.
  induction rows as [| tr rows IH];
    intros csvRows transactions csvRows' transactions';
    cbn [Citi.eachRow].
  - intros H. injection H as _ <-. exists []. split; [reflexivity |].
    constructor.
  - destruct (Citi.parseTableRow tr (csvRows, transactions))
      as [[csv1 txs1] | e] eqn:E; cbn [obind]; [| discriminate].
    intros H. destruct (IH _ _ _ _ H) as [built [-> Hall]].
    cbn [filter].
    destruct (parseTableRow_label _ _ _ _ _ E)
      as [[-> ->] | [-> [t [-> Ht]]]].
    + now exists built.
    + exists (t :: built). split.
      * cbn [rev]. now rewrite <- app_assoc.
      * now constructor.
Qed.

(** Whenever [parseTable] returns, its transactions are, last row
    first, those of the rows that have a date, and each is labelled
    after its own row: [Citi ] followed by the four digits of the
    leftmost masked card number in the class attribute of the row, and
    [Citi ] alone when the row has no class attribute or the attribute
    holds no masked card number. *)
Theorem parseTable_account_labels :
  forall (rows : list Citi.TableRow) (csvRows : list (list string))
         (transactions : list Lib.Transaction),
    Citi.parseTable rows = Returned (csvRows, transactions) ->
    Forall2 (fun tr t => Shape.labelOf tr (Lib.account t))
            (filter Spec.hasDate rows) (rev transactions).
Proof.
  intros rows csvRows transactions H.
  destruct (eachRow_label rows _ _ _ _ H) as [built [-> Hall]].
  now rewrite app_nil_r, rev_involutive.
Qed.

(** The hypothesis holds on the table of two purchases, both with the
    card number that ends in 1234. *)
Lemma parseTable_account_labels_witness :
  Forall2 (fun tr t => Shape.labelOf tr (Lib.account t))
    (filter Spec.hasDate [Scenario.pendingPurchase; Scenario.settledPurchase])
    (rev [Lib.mkTransaction "Citi 1234" Scenario.jan1 "BOOKS"
            (parseFloat "1234.56") true false;
          Lib.mkTransaction "Citi 1234" Scenario.jan2 "COFFEE"
            (parseFloat "4.5") true true]).
Proof.
  refine (parseTable_account_labels
            [Scenario.pendingPurchase; Scenario.settledPurchase]
            [["01/01/2024"; "BOOKS"; "-1234.56"; ""; "xxxxxxxxxxxx1234"]]
            _ _).
  vm_compute. reflexivity.
Defined.

End LabelFacts.

(* ================================================================== *)
(** * The sources of a pull *)
(* ================================================================== *)

Module PullFacts.
Import Js.

Section Drivers.
Variable citiScrape dbsScrape
  : Config.SourceParams -> Outcome Lib.DriverOutput.
Variable newPage closePage : Config.SourceParams -> Outcome unit.

(** One source: the outputs and the errors so far stay, and the source
    adds an output, an error, or both. *)
Lemma processSource_adds (source : Config.SourceParams)
      (st : Pull.PullState) :
  exists os es,
    Pull.outputs (Pull.processSource citiScrape dbsScrape newPage closePage
                    source st)
    = Pull.outputs st ++ os
    /\ Pull.errors (Pull.processSource citiScrape dbsScrape newPage closePage
                      source st)
       = Pull.errors st ++ es
    /\ (1 <= List.length os + List.length es)%nat
    /\ (List.length os <= 1)%nat
    /\ Forall (fun e => fst e = Config.key source) es
    /\ Forall (fun o =>
                 Pull.hasCredentials source = true
                 /\ ((Pull.websiteIncludes "citibank.com.sg" source = true
                      /\ citiScrape source = Returned o)
                     \/ (Pull.websiteIncludes "citibank.com.sg" source = false
                         /\ Pull.websiteIncludes "dbs.com.sg" source = true
                         /\ dbsScrape source = Returned o)))
              os.
Proof.
  unfold Pull.processSource, Pull.selectDriver, Pull.citi, Pull.dbs.
  cbn [find Pull.supportsSource Pull.pull].
  destruct (Pull.websiteIncludes "citibank.com.sg" source) eqn:Hc;
    [| destruct (Pull.websiteIncludes "dbs.com.sg" source) eqn:Hd];
    cbn [Pull.pull];
    destruct (newPage source);
    destruct (Pull.hasCredentials source) eqn:Hcr;
    destruct (citiScrape source) as [o1 | e1] eqn:Hs1;
    destruct (dbsScrape source) as [o2 | e2] eqn:Hs2;
    destruct (closePage source);
    cbn [Pull.setError Pull.outputs Pull.errors];
    first
      [ eexists [], [_]; rewrite app_nil_r; split; [reflexivity |];
        split; [reflexivity |]
      | eexists [], [_; _]; rewrite app_nil_r, <- app_assoc;
        split; [reflexivity |]; split; [reflexivity |]
      | eexists [_], []; rewrite app_nil_r; split; [reflexivity |];
        split; [reflexivity |]
      | eexists [_], [_]; split; [reflexivity |]; split; [reflexivity |] ];
    cbn [List.length fst];
    repeat split; try lia; repeat constructor; tauto.
Qed.

Lemma processSources_from (sources : list Config.SourceParams) :
  forall st : Pull.PullState,
    let st' :=
      fold_left (fun st source =>
                   Pull.processSource citiScrape dbsScrape newPage closePage
                     source st)
                sources st in
    exists os es,
      Pull.outputs st' = Pull.outputs st ++ os
      /\ Pull.errors st' = Pull.errors st ++ es
      /\ (List.length sources <= List.length os + List.length es)%nat
      /\ (List.length os <= List.length sources)%nat
      /\ Forall (fun e => In (fst e) (map Config.key sources)) es
      /\ Forall (fun o =>
                   exists source,
                     In source sources
                     /\ Pull.hasCredentials source = true
                     /\ ((Pull.websiteIncludes "citibank.com.sg" source = true
                          /\ citiScrape source = Returned o)
                         \/ (Pull.websiteIncludes "citibank.com.sg" source
                             = false
                             /\ Pull.websiteIncludes "dbs.com.sg" source = true
                             /\ dbsScrape source = Returned o)))
                os.
Proof.
  induction sources as [| source sources IH]; intros st; cbv zeta.
  - exists [], []. rewrite !app_nil_r. cbn. repeat split; auto.
  - cbn [fold_left].
    destruct (processSource_adds source st)
      as [os1 [es1 [Ho1 [He1 [Hone [Hmost [Hkeys Hfrom]]]]]]].
    specialize (IH (Pull.processSource citiScrape dbsScrape newPage closePage
                      source st)).
    cbv zeta in IH.
    destruct IH as [os2 [es2 [Ho2 [He2 [Hall [Hmost2 [Hkeys2 Hfrom2]]]]]]].
    exists (os1 ++ os2), (es1 ++ es2).
    rewrite Ho2, He2, Ho1, He1, <- !app_assoc, !length_app.
    cbn [List.length map].
    repeat split; trivial; try lia.
    + apply Forall_app. split.
      * eapply Forall_impl; [| exact Hkeys]. intros e ->. now left.
      * eapply Forall_impl; [| exact Hkeys2]. intros e He. now right.
    + apply Forall_app. split.
      * eapply Forall_impl; [| exact Hfrom]. intros o Ho.
        exists source. split; [now left | exact Ho].
      * eapply Forall_impl; [| exact Hfrom2].
        intros o [s [Hin Hs]]. exists s. split; [now right | exact Hs].
Qed.

(** Every source of the configuration is accounted for: the outputs and
    the errors together are at least as many as the sources, at most one
    output comes from each source, and every error carries the key of a
    source.  An output is what the scraping returned for a source that
    has a username and a password and whose website names the bank;
    Citibank is tried first. *)
Theorem processSources_accounts_for_sources :
  forall sources : list Config.SourceParams,
    let st :=
      Pull.processSources citiScrape dbsScrape newPage closePage sources in
    (List.length sources
     <= List.length (Pull.outputs st) + List.length (Pull.errors st))%nat
    /\ (List.length (Pull.outputs st) <= List.length sources)%nat
    /\ Forall (fun e => In (fst e) (map Config.key sources)) (Pull.errors st)
    /\ Forall (fun o =>
                 exists source,
                   In source sources
                   /\ Pull.hasCredentials source = true
                   /\ ((Pull.websiteIncludes "citibank.com.sg" source = true
                        /\ citiScrape source = Returned o)
                       \/ (Pull.websiteIncludes "citibank.com.sg" source
                           = false
                           /\ Pull.websiteIncludes "dbs.com.sg" source = true
                           /\ dbsScrape source = Returned o)))
              (Pull.outputs st).
Proof.
  intros sources. cbv zeta. unfold Pull.processSources.
  destruct (processSources_from sources (Pull.mkPullState [] []))
    as [os [es [-> [-> H]]]].
  exact H.
Qed.
End Drivers.

End PullFacts.

(* ================================================================== *)
(** * Rows of the Citibank table that are too short *)
(* ================================================================== *)

Module ShortRowFacts.
Import Js.

Lemma parseTableRow_short (tr : Citi.TableRow) (acc : Citi.Tables) :
  Spec.hasDate tr = true ->
  (List.length (Citi.cellTexts tr) < 3)%nat ->
  exists e, Citi.parseTableRow tr acc = Thrown e.
Proof.
  intros Hdate Hshort. destruct acc as [csvRows transactions].
  unfold Citi.parseTableRow, Citi.parseRow. unfold Spec.hasDate in Hdate.
  destruct (Citi.cellTexts tr) as [| rawDate [| remarks [| debit rest]]];
    cbn [nth_error] in Hdate; [discriminate Hdate | | |].
  - cbn [app].
    destruct (TableFacts.at_positions
                [match Citi.classAttr tr with
                 | Some c =>
                     match Citi.matchMaskedPAN c with
                     | Some m => m
                     | None => EmptyString
                     end
                 | None => EmptyString
                 end; rawDate;
                 if match Citi.classAttr tr with
                    | Some c => includes "pending" c
                    | None => false
                    end
                 then "pending"%string else EmptyString])
      as [_ [-> [_ [-> _]]]].
    cbn [nth_error]. rewrite Hdate. cbn [negb]. now eexists.
  - cbn [app].
    destruct (TableFacts.at_positions
                [match Citi.classAttr tr with
                 | Some c =>
                     match Citi.matchMaskedPAN c with
                     | Some m => m
                     | None => EmptyString
                     end
                 | None => EmptyString
                 end; rawDate; remarks;
                 if match Citi.classAttr tr with
                    | Some c => includes "pending" c
                    | None => false
                    end
                 then "pending"%string else EmptyString])
      as [_ [-> [_ [-> [-> _]]]]].
    cbn [nth_error]. rewrite Hdate. cbn [negb]. now eexists.
  - cbn [List.length] in Hshort. lia.
Qed.

(** A row that has a date but fewer than three cells makes the whole
    table fail: [parseTable] throws instead of leaving the row out, and
    no transaction of the other rows is returned. *)
Theorem parseTable_short_row_throws :
  forall (rows : list Citi.TableRow) (tr : Citi.TableRow),
    In tr rows ->
    Spec.hasDate tr = true ->
    (List.length (Citi.cellTexts tr) < 3)%nat ->
    exists e, Citi.parseTable rows = Thrown e.
Proof.
  intros rows tr Hin Hdate Hshort. unfold Citi.parseTable.
  generalize (@nil (list string), @nil Lib.Transaction).
  induction rows as [| row rows IH]; intros acc; [destruct Hin |].
  cbn [Citi.eachRow].
  destruct Hin as [-> | Hin].
  - destruct (parseTableRow_short tr acc Hdate Hshort) as [e ->].
    now exists e.
  - destruct (Citi.parseTableRow row acc) as [acc' | e]; cbn [obind].
    + apply (IH Hin).
    + now exists e.
Qed.

(** A settled purchase followed by a row with a date and a remark
    only. *)
Lemma parseTable_short_row_throws_witness :
  exists e,
    Citi.parseTable
      [Scenario.settledPurchase;
       Citi.mkTableRow None ["02/01/2024"; "FEE"]]
    = Thrown e.
Proof.
  apply (parseTable_short_row_throws
           [Scenario.settledPurchase;
            Citi.mkTableRow None ["02/01/2024"; "FEE"]]
           (Citi.mkTableRow None ["02/01/2024"; "FEE"])).
  - right. left. reflexivity.
  - reflexivity.
  - cbn. lia.
Defined.

End ShortRowFacts.
